(** * ironic-shop: the trade negotiation of [ShopApplication]

    A shallow embedding of [scripts/apps/ShopApplication.js]: the currency
    arithmetic ([#calculateTotalGold], [#toGold]), the two offer baskets, the
    balance and the confirm predicate ([#calculateTradeBalance],
    [#canConfirmTrade]), the click-to-toggle handler
    ([#onInventoryItemClick]) and the commit ([executeTrade],
    [#transferItem]) against the host's actor and item store; then the
    other handlers of the window, the inventory listing
    ([#prepareInventory]) and, from [scripts/api/ShopAPI.js], the quick
    trades and the registry of open windows.

    Conventions of the embedding:
    - a JavaScript number holding a currency count or a quantity is a [Z];
      a number holding a price or a gold value is an exact rational [Q]
      (the rounding of binary64 arithmetic is outside the model);
    - a property that may be missing is an [option], and [x ?? d] is the
      nullish coalescing of the source;
    - a [Map] is an association list in insertion order with unique keys;
    - an item document is referenced by its id and read through its owner's
      collection, so that a basket entry and the collection see one document;
    - the host's asynchronous operations are run in order by a state and
      exception monad over the [Game]; an operation the host rejects throws
      and leaves what was applied before it in place. *)

From Stdlib Require Import ZArith QArith List String Ascii Bool Lia.
From Stdlib Require Import Permutation Sorted Qround.
Import ListNotations.

Local Open Scope Z_scope.

(** ** JavaScript helpers *)

Module Js.

(** [x ?? d] *)
Definition nullish {A : Type} (x : option A) (d : A) : A :=
  match x with
  | Some v => v
  | None => d
  end.

(** [String.prototype.toLowerCase] on the ASCII letters; other bytes are
    kept as they are. *)
Definition lowerChar (c : ascii) : ascii :=
  let n := nat_of_ascii c in
  if ((65 <=? n) && (n <=? 90))%nat then ascii_of_nat (n + 32) else c.

Fixpoint toLowerCase (s : string) : string :=
  match s with
  | EmptyString => EmptyString
  | String c r => String (lowerChar c) (toLowerCase r)
  end.

(** [s || d] on a possibly missing string: the empty string is falsy. *)
Definition orElse (s : option string) (d : string) : string :=
  match s with
  | None => d
  | Some EmptyString => d
  | Some v => v
  end.

(** [a > b] on rationals, as a boolean. *)
Definition Qgtb (a b : Q) : bool := negb (Qle_bool a b).

End Js.

Notation "x ?? d" := (Js.nullish x d) (at level 45, left associativity).

(** ** Currency *)

(** The five keys of a currency object. *)
Inductive Denomination : Type := pp | gp | ep | sp | cp.

(** [for (const type of ['pp', 'gp', 'ep', 'sp', 'cp'])] *)
Definition denominations : list Denomination := [pp; gp; ep; sp; cp].

(** A currency object: each key may be missing. *)
Record Currency : Type := mkCurrency {
  cur_pp : option Z;
  cur_gp : option Z;
  cur_ep : option Z;
  cur_sp : option Z;
  cur_cp : option Z
}.

(** [currency[type]] *)
Definition prop (c : Currency) (d : Denomination) : option Z :=
  match d with
  | pp => cur_pp c
  | gp => cur_gp c
  | ep => cur_ep c
  | sp => cur_sp c
  | cp => cur_cp c
  end.

(** [{ pp, gp, ep, sp, cp }] with every key present. *)
Definition bundle (a b c d e : Z) : Currency :=
  mkCurrency (Some a) (Some b) (Some c) (Some d) (Some e).

(** [{ pp: 0, gp: 0, ep: 0, sp: 0, cp: 0 }] *)
Definition noCurrency : Currency := bundle 0 0 0 0 0.

(** [{}] *)
Definition emptyObject : Currency := mkCurrency None None None None None.

(** [(x ?? 0)] as a number of coins. *)
Definition orZero (x : option Z) : Q := inject_Z (x ?? 0).

(** [#calculateTotalGold(currency)] *)
Definition calculateTotalGold (currency : Currency) : Q :=
  (orZero (cur_pp currency) * 10 +
   orZero (cur_gp currency) +
   orZero (cur_ep currency) * 0.5 +
   orZero (cur_sp currency) * 0.1 +
   orZero (cur_cp currency) * 0.01)%Q.

(** [#toGold(amount, denom = 'gp')]; a missing [denom] is [None]. *)
Definition toGold (amount : Q) (denom : option string) : Q :=
  let code := Js.toLowerCase (Js.orElse denom "gp") in
  if String.eqb code "pp" then (amount * 10)%Q
  else if String.eqb code "gp" then amount
  else if String.eqb code "ep" then (amount * 0.5)%Q
  else if String.eqb code "sp" then (amount * 0.1)%Q
  else if String.eqb code "cp" then (amount * 0.01)%Q
  else amount.

(** The five codes of the conversion table. *)
Definition knownCodes : list string := ["pp"; "gp"; "ep"; "sp"; "cp"]%string.

(** ** Items, actors and the host *)

(** Document ids are opaque keys; the host draws a fresh one for every
    document it creates. *)
Definition ItemId : Type := nat.

(** The data of an item document ([item.toObject()] without its [_id]):
    [name], [type], [flags.core.sourceId], [system.quantity], the number at
    the configured [itemPricePath] and [system.price.denomination]. *)
Record ItemData : Type := mkItemData {
  name : string;
  type : string;
  sourceId : option string;
  quantity : option Z;
  price : option Q;
  denomination : option string
}.

Record Item : Type := mkItem {
  _id : ItemId;
  data : ItemData
}.

(** An actor: [system.currency] (possibly missing) and the [items]
    collection. *)
Record Actor : Type := mkActor {
  currency : option Currency;
  items : list Item
}.

(** The two parties of a negotiation. *)
Inductive Party : Type := Player | Shop.

Definition other (p : Party) : Party :=
  match p with
  | Player => Shop
  | Shop => Player
  end.

(** The operations [executeTrade] issues against the host. *)
Inductive HostOp : Type :=
| UpdateCurrency (who : Party) (value : Currency)
| UpdateQuantity (owner : Party) (id : ItemId) (value : Z)
| CreateItem (owner : Party) (itemData : ItemData)
| DeleteItem (owner : Party) (id : ItemId).

(** The host: the two actors (a player character and an NPC shop, two
    distinct documents), the [allowNegativeGold] setting, the next fresh id
    and the journal of the operations issued so far (oldest first). *)
Record Game : Type := mkGame {
  playerActor : Actor;
  shopActor : Actor;
  allowNegativeGold : bool;
  nextId : ItemId;
  journal : list HostOp
}.

Definition actorOf (game : Game) (p : Party) : Actor :=
  match p with
  | Player => playerActor game
  | Shop => shopActor game
  end.

Definition setActor (game : Game) (p : Party) (a : Actor) : Game :=
  match p with
  | Player => mkGame a (shopActor game) (allowNegativeGold game)
                     (nextId game) (journal game)
  | Shop => mkGame (playerActor game) a (allowNegativeGold game)
                   (nextId game) (journal game)
  end.

(** [i.id === itemId] *)
Definition hasId (itemId : ItemId) (i : Item) : bool := Nat.eqb (_id i) itemId.

(** [actor.items.get(itemId)] *)
Definition getItem (actor : Actor) (itemId : ItemId) : option Item :=
  find (hasId itemId) (items actor).

(** [#prepareCurrency(actor)] *)
Definition prepareCurrency (actor : Actor) : Currency :=
  let currency := currency actor ?? emptyObject in
  bundle (cur_pp currency ?? 0) (cur_gp currency ?? 0) (cur_ep currency ?? 0)
         (cur_sp currency ?? 0) (cur_cp currency ?? 0).

(** ** Offer baskets *)

(** A [Map] keyed by item id, in insertion order. *)
Definition JsMap (V : Type) : Type := list (ItemId * V).

Section JsMapOps.
Context {V : Type}.

Fixpoint map_get (k : ItemId) (m : JsMap V) : option V :=
  match m with
  | [] => None
  | (k', v) :: r => if Nat.eqb k k' then Some v else map_get k r
  end.

Definition map_has (k : ItemId) (m : JsMap V) : bool :=
  match map_get k m with
  | Some _ => true
  | None => false
  end.

Definition map_delete (k : ItemId) (m : JsMap V) : JsMap V :=
  filter (fun kv => negb (Nat.eqb k (fst kv))) m.

(** [set] replaces the value of a present key where it stands and appends a
    new key. *)
Fixpoint map_set (k : ItemId) (v : V) (m : JsMap V) : JsMap V :=
  match m with
  | [] => [(k, v)]
  | (k', v') :: r =>
      if Nat.eqb k k' then (k, v) :: r else (k', v') :: map_set k v r
  end.

Definition map_values (m : JsMap V) : list V := map snd m.

Definition map_keys (m : JsMap V) : list ItemId := map fst m.

Definition map_size (m : JsMap V) : Z := Z.of_nat (List.length m).

End JsMapOps.

(** [{ item, quantity }]: the offered document and the quantity offered. *)
Record TradeEntry : Type := mkEntry {
  entry_item : ItemId;
  entry_quantity : Z
}.

(** The negotiation state held by the application. *)
Record ShopApplication : Type := mkApp {
  playerTradeItems : JsMap TradeEntry;
  shopTradeItems : JsMap TradeEntry;
  playerTradeCurrency : Currency;
  shopTradeCurrency : Currency
}.

Definition tradeItemsOf (this : ShopApplication) (p : Party) : JsMap TradeEntry :=
  match p with
  | Player => playerTradeItems this
  | Shop => shopTradeItems this
  end.

Definition tradeCurrencyOf (this : ShopApplication) (p : Party) : Currency :=
  match p with
  | Player => playerTradeCurrency this
  | Shop => shopTradeCurrency this
  end.

(** [foundry.utils.getProperty(item, pricePath) ?? 0], the document being
    read through its owner; a reference that no longer resolves has no
    price to read. *)
Definition priceOf (owner : Actor) (item : ItemId) : Q :=
  match getItem owner item with
  | Some doc => price (data doc) ?? 0%Q
  | None => 0%Q
  end.

(** One side of [#calculateTradeBalance]: the currency total, then
    [offerValue += price * quantity] for every entry. *)
Definition offerValue (owner : Actor) (tradeCurrency : Currency)
    (tradeItems : JsMap TradeEntry) : Q :=
  fold_left
    (fun acc e => (acc + priceOf owner (entry_item e) * inject_Z (entry_quantity e))%Q)
    (map_values tradeItems)
    (calculateTotalGold tradeCurrency).

(** [#calculateTradeBalance()] *)
Definition calculateTradeBalance (this : ShopApplication) (game : Game) : Q :=
  let playerOfferValue :=
    offerValue (playerActor game) (playerTradeCurrency this) (playerTradeItems this) in
  let shopOfferValue :=
    offerValue (shopActor game) (shopTradeCurrency this) (shopTradeItems this) in
  (shopOfferValue - playerOfferValue)%Q.

(** [offered > held] where [offered] may be missing ([undefined > n] is
    false). *)
Definition exceeds (offered : option Z) (held : Z) : bool :=
  match offered with
  | Some n => held <? n
  | None => false
  end.

(** [#canConfirmTrade(playerCurrency, shopCurrency)] *)
Definition canConfirmTrade (this : ShopApplication) (game : Game)
    (playerCurrency shopCurrency : Currency) : bool :=
  let hasPlayerOffer :=
    (0 <? map_size (playerTradeItems this))
    || Js.Qgtb (calculateTotalGold (playerTradeCurrency this)) 0 in
  let hasShopOffer :=
    (0 <? map_size (shopTradeItems this))
    || Js.Qgtb (calculateTotalGold (shopTradeCurrency this)) 0 in
  if negb hasPlayerOffer && negb hasShopOffer then false
  else if negb (allowNegativeGold game)
          && existsb
               (fun type =>
                  exceeds (prop (playerTradeCurrency this) type)
                          (prop playerCurrency type ?? 0)
                  || exceeds (prop (shopTradeCurrency this) type)
                             (prop shopCurrency type ?? 0))
               denominations
  then false
  else if Js.Qgtb (calculateTradeBalance this game) 0 then false
  else true.

(** The currency held by a party, as passed to [canConfirmTrade]. *)
Definition heldBy (playerCurrency shopCurrency : Currency) (p : Party) : Currency :=
  match p with
  | Player => playerCurrency
  | Shop => shopCurrency
  end.

(** [context.canConfirm] of [_prepareContext]: the predicate on the
    currency the two actors hold. *)
Definition canConfirm (this : ShopApplication) (game : Game) : bool :=
  canConfirmTrade this game
    (prepareCurrency (playerActor game)) (prepareCurrency (shopActor game)).

(** ** Click to toggle *)

Definition setTradeItems (this : ShopApplication) (p : Party)
    (m : JsMap TradeEntry) : ShopApplication :=
  match p with
  | Player => mkApp m (shopTradeItems this)
                    (playerTradeCurrency this) (shopTradeCurrency this)
  | Shop => mkApp (playerTradeItems this) m
                  (playerTradeCurrency this) (shopTradeCurrency this)
  end.

(** How the quantity dialog ends: closed or cancelled, or confirmed with
    [parseInt] of the number field ([None] when it does not parse). *)
Inductive DialogResult : Type :=
| DialogCancel
| DialogConfirm (entered : option Z).

(** [#promptQuantity(itemName, maxQuantity)]: [null] on cancel, else
    [Math.min(Math.max(1, parseInt(..) || 1), maxQuantity)]. *)
Definition promptQuantity (maxQuantity : Z) (dialog : DialogResult) : option Z :=
  match dialog with
  | DialogCancel => None
  | DialogConfirm entered =>
      let qty :=
        match entered with
        | None => 1
        | Some n => if n =? 0 then 1 else n
        end in
      Some (Z.min (Z.max 1 qty) maxQuantity)
  end.

(** [#onInventoryItemClick(event)] for the element of item [itemId] in the
    inventory of [source]; [dialog] is how the quantity dialog ends if it is
    opened. *)
Definition onInventoryItemClick (source : Party) (itemId : ItemId)
    (dialog : DialogResult) (this : ShopApplication) (game : Game)
    : ShopApplication :=
  let actor := actorOf game source in
  let tradeMap := tradeItemsOf this source in
  match getItem actor itemId with
  | None => this
  | Some item =>
      if map_has itemId tradeMap then
        setTradeItems this source (map_delete itemId tradeMap)
      else
        let maxQuantity := quantity (data item) ?? 1 in
        if 1 <? maxQuantity then
          match promptQuantity maxQuantity dialog with
          | None => this
          | Some quantity =>
              if quantity <=? 0 then this
              else setTradeItems this source
                     (map_set itemId (mkEntry itemId quantity) tradeMap)
          end
        else
          setTradeItems this source (map_set itemId (mkEntry itemId 1) tradeMap)
  end.

(** [clearTrade()], also the reset at the end of a successful
    [executeTrade]. *)
Definition clearTrade (this : ShopApplication) : ShopApplication :=
  mkApp [] [] noCurrency noCurrency.

(** ** The host monad *)

(** How a computation completes. *)
Inductive Completion (A : Type) : Type :=
| Normal (a : A)
| Throw.

Arguments Normal {A} a.
Arguments Throw {A}.

(** A computation against the host: it completes or throws, and in both
    cases hands back the host as it left it. *)
Definition Host (A : Type) : Type := Game -> Completion A * Game.

Definition ret {A : Type} (a : A) : Host A := fun game => (Normal a, game).

Definition bind {A B : Type} (c : Host A) (k : A -> Host B) : Host B :=
  fun game =>
    match c game with
    | (Normal a, game') => k a game'
    | (Throw, game') => (Throw, game')
    end.

Definition getGame : Host Game := fun game => (Normal game, game).

Declare Scope host_scope.
Delimit Scope host_scope with host.
Notation "x <- c ;; k" := (bind c (fun x => k))
  (at level 61, c at next level, right associativity) : host_scope.
Notation "c ;; k" := (bind c (fun _ => k))
  (at level 61, right associativity) : host_scope.

(** [for (const x of l) await f(x)] *)
Fixpoint forEach {A : Type} (l : list A) (f : A -> Host unit) : Host unit :=
  match l with
  | [] => ret tt
  | x :: r => (f x ;; forEach r f)%host
  end.

Definition withQuantity (value : Z) (d : ItemData) : ItemData :=
  mkItemData (name d) (type d) (sourceId d) (Some value) (price d) (denomination d).

Definition setItems (actor : Actor) (l : list Item) : Actor :=
  mkActor (currency actor) l.

Definition appendJournal (op : HostOp) (game : Game) : Game :=
  mkGame (playerActor game) (shopActor game) (allowNegativeGold game)
         (nextId game) (journal game ++ [op]).

(** What an accepted operation does to the store; [None] when the document
    it addresses is not in its owner's collection. *)
Definition perform (op : HostOp) (game : Game) : option Game :=
  match op with
  | UpdateCurrency who value =>
      Some (setActor game who (mkActor (Some value) (items (actorOf game who))))
  | UpdateQuantity owner id value =>
      let actor := actorOf game owner in
      match getItem actor id with
      | None => None
      | Some _ =>
          Some (setActor game owner
                  (setItems actor
                     (map (fun i => if hasId id i
                                    then mkItem (_id i) (withQuantity value (data i))
                                    else i)
                          (items actor))))
      end
  | CreateItem owner itemData =>
      let actor := actorOf game owner in
      let game' :=
        setActor game owner
          (setItems actor (items actor ++ [mkItem (nextId game) itemData])) in
      Some (mkGame (playerActor game') (shopActor game') (allowNegativeGold game')
                   (S (nextId game')) (journal game'))
  | DeleteItem owner id =>
      let actor := actorOf game owner in
      match getItem actor id with
      | None => None
      | Some _ =>
          Some (setActor game owner
                  (setItems actor
                     (filter (fun i => negb (hasId id i)) (items actor))))
      end
  end.

Section Commit.

(** Whether the host rejects an operation issued in a given state. *)
Variable rejects : HostOp -> Game -> bool.

(** [await] of one host operation: it is journalled, then applied unless
    the host rejects it. *)
Definition issue (op : HostOp) : Host unit :=
  fun game =>
    let game' := appendJournal op game in
    if rejects op game then (Throw, game')
    else match perform op game' with
         | Some game'' => (Normal tt, game'')
         | None => (Throw, game')
         end.

(** Reading a document through its owner; a reference that no longer
    resolves throws. *)
Definition resolve (owner : Party) (item : ItemId) : Host Item :=
  fun game =>
    match getItem (actorOf game owner) item with
    | Some doc => (Normal doc, game)
    | None => (Throw, game)
    end.

(** [if (sourceId)]: a missing or empty string is falsy. *)
Definition truthy (s : option string) : bool :=
  match s with
  | None => false
  | Some v => negb (String.eqb v "")
  end.

(** [a === b] on possibly missing strings. *)
Definition strictEq (a b : option string) : bool :=
  match a, b with
  | Some x, Some y => String.eqb x y
  | None, None => true
  | _, _ => false
  end.

(** The stacking target of [#transferItem]: by [sourceId] when the item has
    one, else (or when none matches) by name and type. *)
Definition findExisting (item : Item) (toActor : Actor) : option Item :=
  let sourceId' := sourceId (data item) in
  let existingItem :=
    if truthy sourceId'
    then find (fun i => strictEq (sourceId (data i)) sourceId') (items toActor)
    else None in
  match existingItem with
  | Some e => Some e
  | None =>
      find (fun i => String.eqb (name (data i)) (name (data item))
                     && String.eqb (type (data i)) (type (data item)))
           (items toActor)
  end.

(** [#transferItem(item, fromActor, toActor, quantity)] *)
Definition transferItem (item : ItemId) (fromActor toActor : Party)
    (quantity' : Z) : Host unit :=
  (doc <- resolve fromActor item ;;
   game <- getGame ;;
   match findExisting doc (actorOf game toActor) with
   | Some existingItem =>
       let existingQty := quantity (data existingItem) ?? 1 in
       issue (UpdateQuantity toActor (_id existingItem) (existingQty + quantity'))
   | None =>
       issue (CreateItem toActor (withQuantity quantity' (data doc)))
   end ;;
   doc' <- resolve fromActor item ;;
   let currentQty := quantity (data doc') ?? 1 in
   if currentQty <=? quantity' then issue (DeleteItem fromActor item)
   else issue (UpdateQuantity fromActor item (currentQty - quantity')))%host.

(** [for (const { item, quantity } of l)
      await this.#transferItem(item, fromActor, toActor, quantity)] *)
Definition transferAll (fromActor toActor : Party) (l : list TradeEntry) : Host unit :=
  forEach l
    (fun e => transferItem (entry_item e) fromActor toActor (entry_quantity e)).

(** The new currency of a party: [held - offered + received] for each of
    the five keys. *)
Definition settle (held offered received : Currency) : Currency :=
  let f type :=
    (prop held type ?? 0) - (prop offered type ?? 0) + (prop received type ?? 0) in
  bundle (f pp) (f gp) (f ep) (f sp) (f cp).

(** The [try] block of [executeTrade]. *)
Definition executeTradeBody (this : ShopApplication) : Host unit :=
  (game <- getGame ;;
   let playerCurrency := prepareCurrency (playerActor game) in
   let shopCurrency := prepareCurrency (shopActor game) in
   let newPlayerCurrency :=
     settle playerCurrency (playerTradeCurrency this) (shopTradeCurrency this) in
   let newShopCurrency :=
     settle shopCurrency (shopTradeCurrency this) (playerTradeCurrency this) in
   let itemsToPlayer := map_values (shopTradeItems this) in
   let itemsToShop := map_values (playerTradeItems this) in
   issue (UpdateCurrency Player newPlayerCurrency) ;;
   issue (UpdateCurrency Shop newShopCurrency) ;;
   transferAll Shop Player itemsToPlayer ;;
   transferAll Player Shop itemsToShop)%host.

(** What the user is told at the end. *)
Inductive Outcome : Type :=
| Completed  (* [ui.notifications.info('Trade completed ...')] *)
| Failed.    (* [ui.notifications.error('Failed to complete trade ...')] *)

(** [executeTrade()]: on normal completion the trade state is reset; in the
    [catch] it is left as it was. *)
Definition executeTrade (this : ShopApplication) (game : Game)
    : Outcome * ShopApplication * Game :=
  match executeTradeBody this game with
  | (Normal _, game') => (Completed, clearTrade this, game')
  | (Throw, game') => (Failed, this, game')
  end.

End Commit.

(** The host that accepts every operation. *)
Definition reliable : HostOp -> Game -> bool := fun _ _ => false.

(** ** The operations of a transfer and of a commit *)

(** The operation by which [#transferItem] accounts for the moved quantity
    at the destination: stacked onto the existing item, or created. *)
Definition destinationOp (doc : Item) (toActor : Party) (quantity' : Z)
    (game : Game) : HostOp :=
  match findExisting doc (actorOf game toActor) with
  | Some existingItem =>
      UpdateQuantity toActor (_id existingItem)
        ((quantity (data existingItem) ?? 1) + quantity')
  | None => CreateItem toActor (withQuantity quantity' (data doc))
  end.

(** The operation by which [#transferItem] takes the moved quantity from
    the source: deleted, or reduced. *)
Definition sourceOp (doc : Item) (fromActor : Party) (quantity' : Z) : HostOp :=
  let currentQty := quantity (data doc) ?? 1 in
  if currentQty <=? quantity' then DeleteItem fromActor (_id doc)
  else UpdateQuantity fromActor (_id doc) (currentQty - quantity').

(** An operation on an item of [owner]. *)
Definition itemOp (owner : Party) (op : HostOp) : Prop :=
  match op with
  | UpdateCurrency _ _ => False
  | UpdateQuantity o _ _ | CreateItem o _ | DeleteItem o _ => o = owner
  end.

(** The currencies of both parties are the same in two states. *)
Definition sameCurrency (game game' : Game) : Prop :=
  forall p, currency (actorOf game' p) = currency (actorOf game p).


(** The count of a denomination that the record of an actor stores: a
    missing [system.currency], or a missing key of it, stores none. *)
Definition storedCount (actor : Actor) (d : Denomination) : Z :=
  match currency actor with
  | None => 0
  | Some c =>
      match prop c d with
      | None => 0
      | Some n => n
      end
  end.

(** The currency a party holds, per denomination, as [executeTrade] reads
    it. *)
Definition held (game : Game) (p : Party) (d : Denomination) : Z :=
  prop (prepareCurrency (actorOf game p)) d ?? 0.

(** The offered documents of a basket are distinct and in the collection of
    the offering actor. *)
Definition offersResolve (owner : Actor) (tradeItems : JsMap TradeEntry) : Prop :=
  NoDup (map entry_item (map_values tradeItems)) /\
  Forall (fun e => getItem owner (entry_item e) <> None) (map_values tradeItems).

(** ** The spec's reading of the balance *)

(** The spec's normalized item price: the price converted to the base unit
    by the item's denomination. *)
Definition spec_normalizedPrice (owner : Actor) (item : ItemId) : Q :=
  match getItem owner item with
  | Some doc => toGold (price (data doc) ?? 0%Q) (denomination (data doc))
  | None => 0%Q
  end.

(** The spec's [totalNormalizedValue()]: [normalize(currency)] plus, for
    each entry, the normalized price times the quantity. *)
Definition spec_totalNormalizedValue (owner : Actor) (tradeCurrency : Currency)
    (tradeItems : JsMap TradeEntry) : Q :=
  fold_left
    (fun acc e =>
       (acc + spec_normalizedPrice owner (entry_item e) * inject_Z (entry_quantity e))%Q)
    (map_values tradeItems)
    (calculateTotalGold tradeCurrency).

(** The spec's [balance()]. *)
Definition spec_balance (this : ShopApplication) (game : Game) : Q :=
  (spec_totalNormalizedValue (shopActor game) (shopTradeCurrency this)
     (shopTradeItems this)
   - spec_totalNormalizedValue (playerActor game) (playerTradeCurrency this)
       (playerTradeItems this))%Q.

(** Every document of the actor is priced in gp (or in a denomination the
    conversion does not know). *)
Definition pricedInGold (actor : Actor) : Prop :=
  forall doc, In doc (items actor) ->
    ~ In (Js.toLowerCase (Js.orElse (denomination (data doc)) "gp"))
         ["pp"; "ep"; "sp"; "cp"]%string.

(** ** Concrete states *)

Module Examples.

(** A gem priced 1 pp, held by the shop. *)
Definition gem : Item :=
  mkItem 1%nat (mkItemData "Gem" "loot" None (Some 1) (Some 1%Q) (Some "pp"%string)).

(** The shop offers the gem, the player offers 5 gp out of the 5 gp held. *)
Definition gemGame : Game :=
  mkGame (mkActor (Some (bundle 0 5 0 0 0)) [])
         (mkActor (Some noCurrency) [gem])
         false 2%nat [].

Definition gemOffer : ShopApplication :=
  mkApp [] [(1%nat, mkEntry 1%nat 1)] (bundle 0 5 0 0 0) noCurrency.

(** A trinket priced 100 cp, held by the shop. *)
Definition trinket : Item :=
  mkItem 1%nat
    (mkItemData "Trinket" "loot" None (Some 1) (Some 100%Q) (Some "cp"%string)).

Definition trinketGame : Game :=
  mkGame (mkActor (Some (bundle 0 5 0 0 0)) [])
         (mkActor (Some noCurrency) [trinket])
         false 2%nat [].

Definition trinketOffer : ShopApplication :=
  mkApp [] [(1%nat, mkEntry 1%nat 1)] (bundle 0 5 0 0 0) noCurrency.

(** Five arrows held by the player. *)
Definition arrows : Item :=
  mkItem 7%nat (mkItemData "Arrow" "consumable" None (Some 5) (Some 1%Q) None).

Definition arrowGame : Game :=
  mkGame (mkActor None [arrows]) (mkActor None []) false 8%nat [].

(** Three of the five arrows are offered. *)
Definition threeArrows : ShopApplication :=
  mkApp [(7%nat, mkEntry 7%nat 3)] [] noCurrency noCurrency.

(** A sword priced 100 gp, held by the shop; neither party holds any
    currency. *)
Definition sword : Item :=
  mkItem 1%nat
    (mkItemData "Sword" "weapon" None (Some 1) (Some 100%Q) (Some "gp"%string)).

Definition swordGame : Game :=
  mkGame (mkActor (Some noCurrency) []) (mkActor (Some noCurrency) [sword])
         false 2%nat [].

(** The shop offers the sword, the player offers nothing. *)
Definition swordOffer : ShopApplication :=
  mkApp [] [(1%nat, mkEntry 1%nat 1)] noCurrency noCurrency.

(** Two potions held by the player, three potions of the same compendium
    source and a shield held by the shop. *)
Definition potions : Item :=
  mkItem 1%nat
    (mkItemData "Potion" "consumable" (Some "Compendium.items.potion"%string)
       (Some 2) (Some 2%Q) (Some "gp"%string)).

Definition shopPotions : Item :=
  mkItem 2%nat
    (mkItemData "Potion of Healing" "consumable"
       (Some "Compendium.items.potion"%string)
       (Some 3) (Some 2%Q) (Some "gp"%string)).

Definition shield : Item :=
  mkItem 3%nat
    (mkItemData "Shield" "equipment" None (Some 1) (Some 5%Q) (Some "gp"%string)).

Definition marketGame : Game :=
  mkGame (mkActor (Some (bundle 0 20 0 0 0)) [potions])
         (mkActor (Some (bundle 1 50 0 0 0)) [shopPotions; shield])
         false 4%nat [].

(** The player offers the two potions and 5 gp, the shop offers the
    shield. *)
Definition marketOffer : ShopApplication :=
  mkApp [(1%nat, mkEntry 1%nat 2)] [(3%nat, mkEntry 3%nat 1)]
        (bundle 0 5 0 0 0) noCurrency.

(** Currency records with missing keys: the player's record stores 7 gp
    and nothing else, the shop's 3 gp and 2 sp. *)
Definition purseGame : Game :=
  mkGame (mkActor (Some (mkCurrency None (Some 7) None None None)) [])
         (mkActor (Some (mkCurrency None (Some 3) None (Some 2) None)) [])
         false 1%nat [].

(** The player offers 1 gp, the shop 2 sp. *)
Definition purseOffer : ShopApplication :=
  mkApp [] [] (bundle 0 1 0 0 0) (bundle 0 0 0 2 0).

End Examples.

(** ** The other handlers of the trade window *)

(** [currency[type] = value] *)
Definition setProp (c : Currency) (d : Denomination) (value : Z) : Currency :=
  match d with
  | pp => mkCurrency (Some value) (cur_gp c) (cur_ep c) (cur_sp c) (cur_cp c)
  | gp => mkCurrency (cur_pp c) (Some value) (cur_ep c) (cur_sp c) (cur_cp c)
  | ep => mkCurrency (cur_pp c) (cur_gp c) (Some value) (cur_sp c) (cur_cp c)
  | sp => mkCurrency (cur_pp c) (cur_gp c) (cur_ep c) (Some value) (cur_cp c)
  | cp => mkCurrency (cur_pp c) (cur_gp c) (cur_ep c) (cur_sp c) (Some value)
  end.

Definition setTradeCurrency (this : ShopApplication) (p : Party) (c : Currency)
    : ShopApplication :=
  match p with
  | Player => mkApp (playerTradeItems this) (shopTradeItems this)
                    c (shopTradeCurrency this)
  | Shop => mkApp (playerTradeItems this) (shopTradeItems this)
                  (playerTradeCurrency this) c
  end.

(** The [change] listener of the currency input of [side] for [type]:
    [Math.max(0, parseInt(e.target.value) || 0)]; [parsed] is the result
    of [parseInt] ([None] when it is [NaN]). *)
Definition onCurrencyChange (side : Party) (type : Denomination)
    (parsed : option Z) (this : ShopApplication) : ShopApplication :=
  let value := Z.max 0 (parsed ?? 0) in
  setTradeCurrency this side (setProp (tradeCurrencyOf this side) type value).

(** [#onDrop(event)]: [tradeType] is [dataset.trade] of the list dropped
    on, [payload] the parsed drag data [{ itemId, source }] ([None] when
    [JSON.parse] throws, which the handler catches). *)
Definition onDrop (tradeType : string) (payload : option (ItemId * string))
    (this : ShopApplication) (game : Game) : ShopApplication :=
  match payload with
  | None => this
  | Some (itemId, source) =>
      if String.eqb tradeType "player-items" && String.eqb source "player" then
        match getItem (playerActor game) itemId with
        | Some item =>
            if negb (map_has itemId (playerTradeItems this)) then
              setTradeItems this Player
                (map_set itemId (mkEntry itemId 1) (playerTradeItems this))
            else this
        | None => this
        end
      else if String.eqb tradeType "shop-items" && String.eqb source "shop" then
        match getItem (shopActor game) itemId with
        | Some item =>
            if negb (map_has itemId (shopTradeItems this)) then
              setTradeItems this Shop
                (map_set itemId (mkEntry itemId 1) (shopTradeItems this))
            else this
        | None => this
        end
      else this
  end.

(** [#onRemovePlayerItem] *)
Definition onRemovePlayerItem (itemId : ItemId) (this : ShopApplication)
    : ShopApplication :=
  setTradeItems this Player (map_delete itemId (playerTradeItems this)).

(** [#onRemoveShopItem] *)
Definition onRemoveShopItem (itemId : ItemId) (this : ShopApplication)
    : ShopApplication :=
  setTradeItems this Shop (map_delete itemId (shopTradeItems this)).

(** What the user can do to the trade state of an open window. *)
Inductive UiEvent : Type :=
| InventoryItemClick (source : Party) (itemId : ItemId) (dialog : DialogResult)
| DropOnTradeList (tradeType : string) (payload : option (ItemId * string))
| RemovePlayerItem (itemId : ItemId)
| RemoveShopItem (itemId : ItemId)
| CurrencyChange (side : Party) (type : Denomination) (parsed : option Z)
| ClearTrade.

Definition handle (game : Game) (this : ShopApplication) (ev : UiEvent)
    : ShopApplication :=
  match ev with
  | InventoryItemClick source itemId dialog =>
      onInventoryItemClick source itemId dialog this game
  | DropOnTradeList tradeType payload => onDrop tradeType payload this game
  | RemovePlayerItem itemId => onRemovePlayerItem itemId this
  | RemoveShopItem itemId => onRemoveShopItem itemId this
  | CurrencyChange side type parsed => onCurrencyChange side type parsed this
  | ClearTrade => clearTrade this
  end.

(** The trade state of a freshly constructed window. *)
Definition newTrade : ShopApplication := mkApp [] [] noCurrency noCurrency.

(** An entry of a basket of [owner]: it is keyed by the id of its document,
    the document is in the owner's collection, and the quantity offered is
    at least 1 and at most the quantity held (at most 1 for a document
    holding less than 1). *)
Definition entryOk (owner : Actor) (kv : ItemId * TradeEntry) : Prop :=
  entry_item (snd kv) = fst kv /\
  exists doc,
    getItem owner (fst kv) = Some doc /\
    1 <= entry_quantity (snd kv) <= Z.max 1 (quantity (data doc) ?? 1).

Definition basketOk (owner : Actor) (m : JsMap TradeEntry) : Prop :=
  NoDup (map_keys m) /\ Forall (entryOk owner) m.

(** A bundle with its five keys present and no negative count. *)
Definition canonical (c : Currency) : Prop :=
  forall d, exists n, prop c d = Some n /\ 0 <= n.

Definition tradeOk (game : Game) (this : ShopApplication) : Prop :=
  basketOk (playerActor game) (playerTradeItems this) /\
  basketOk (shopActor game) (shopTradeItems this) /\
  canonical (playerTradeCurrency this) /\
  canonical (shopTradeCurrency this).

(** [context.tradeBalanceClass] of [_prepareContext] *)
Definition tradeBalanceClass (this : ShopApplication) (game : Game) : string :=
  let balance := calculateTradeBalance this game in
  if Js.Qgtb balance 0 then "positive"
  else if Js.Qgtb 0 balance then "negative"
  else "neutral".

(** The value of a bundle in copper pieces. *)
Definition coppers (c : Currency) : Z :=
  1000 * (prop c pp ?? 0) + 100 * (prop c gp ?? 0) + 50 * (prop c ep ?? 0)
  + 10 * (prop c sp ?? 0) + (prop c cp ?? 0).

(** The quantity a document stands for: [system.quantity ?? 1]. *)
Definition quantityOf (i : Item) : Z := quantity (data i) ?? 1.

Fixpoint sumQuantities (l : list Item) : Z :=
  match l with
  | [] => 0
  | i :: r => quantityOf i + sumQuantities r
  end.

(** The number of things an actor holds: the sum of the quantities of its
    documents. *)
Definition totalQuantity (actor : Actor) : Z := sumQuantities (items actor).

(** The documents of an actor have distinct ids. *)
Definition distinctIds (actor : Actor) : Prop := NoDup (map _id (items actor)).
(** ** The inventory listing *)

(** The item types the window lists. *)
Definition validTypes : list string :=
  ["weapon"; "equipment"; "consumable"; "tool"; "loot"; "container"; "gear";
   "物品"]%string.

(** [validTypes.includes(type)] *)
Definition isValidType (t : string) : bool :=
  existsb (String.eqb t) validTypes.

(** [s.includes(t)] on strings: [t] occurs in [s]. *)
Fixpoint includes (s t : string) : bool :=
  String.prefix t s
  || match s with
     | EmptyString => false
     | String _ r => includes r t
     end.

(** [Array.prototype.sort(compareFn)]. The sort of the host is stable, and
    for a comparator that is a consistent ordering its result is the stable
    arrangement of the array; it is computed here by insertion, an element
    staying before the later elements it compares equal to. *)
Section Sort.
Context {A : Type}.
Variable compareFn : A -> A -> Q.

Fixpoint insertSorted (x : A) (l : list A) : list A :=
  match l with
  | [] => [x]
  | y :: r =>
      if Js.Qgtb (compareFn x y) 0 then y :: insertSorted x r else x :: y :: r
  end.

Definition sortBy (l : list A) : list A := fold_right insertSorted [] l.

End Sort.

(** A row of the listing: [id], [name], [price] (the raw value), [denom],
    [priceInGp], [quantity] and [inTrade]. The fields [uuid], [img] and
    [priceLabel], which only carry text to the template, are left out. *)
Record Row : Type := mkRow {
  row_id : ItemId;
  row_name : string;
  row_price : Q;
  row_denom : string;
  row_priceInGp : Q;
  row_quantity : Z;
  row_inTrade : bool
}.

Section Inventory.

(** [a.localeCompare(b)], which depends on the locale of the host. *)
Variable localeCompare : string -> string -> Z.

(** The callback of [items.map] in [#prepareInventory]. *)
Definition prepareRow (tradeMap : JsMap TradeEntry) (item : Item) : Row :=
  let rawValue := price (data item) ?? 0%Q in
  let denom := Js.toLowerCase (denomination (data item) ?? "gp"%string) in
  let quantity' := quantity (data item) ?? 1 in
  let inTrade := map_has (_id item) tradeMap in
  let priceInGp := toGold rawValue (Some denom) in
  mkRow (_id item) (name (data item)) rawValue denom priceInGp quantity' inTrade.

(** The two filters of [#prepareInventory]: the type is one of the listed
    types, and, when a search text is given, the lower-cased name includes
    the lower-cased text. *)
Definition listed (searchFilter : string) (item : Item) : bool :=
  isValidType (type (data item))
  && match searchFilter with
     | EmptyString => true
     | _ => includes (Js.toLowerCase (name (data item))) (Js.toLowerCase searchFilter)
     end.

(** The comparator chosen by [switch (sortMethod)]. *)
Definition comparator (sortMethod : string) (a b : Row) : Q :=
  if String.eqb sortMethod "price" then (row_priceInGp b - row_priceInGp a)%Q
  else if String.eqb sortMethod "price-asc" then (row_priceInGp a - row_priceInGp b)%Q
  else if String.eqb sortMethod "quantity"
       then inject_Z (row_quantity b - row_quantity a)
  else inject_Z (localeCompare (row_name a) (row_name b)).

(** [#prepareInventory(actor, pricePath, source, searchFilter, sortMethod)] *)
Definition prepareInventory (this : ShopApplication) (actor : Actor)
    (source : Party) (searchFilter sortMethod : string) : list Row :=
  let items' := filter (listed searchFilter) (items actor) in
  let tradeMap := tradeItemsOf this source in
  let preparedItems := map (prepareRow tradeMap) items' in
  sortBy (comparator sortMethod) preparedItems.

End Inventory.
(** ** Quick buy and quick sell ([scripts/api/ShopAPI.js]) *)

Module Quick.

(** An actor as [quickBuy] and [quickSell] see it: the number at the
    configured [defaultCurrency] path (possibly missing) and the items. *)
Record Trader : Type := mkTrader {
  gold : option Q;
  stock : list Item
}.

(** Where an item document lives: in the inventory of one of the two
    actors, or elsewhere (the inventory of another actor, or the item
    directory of the world). *)
Inductive Holder : Type :=
| Held (p : Party)
| Elsewhere.

(** The [item] argument: missing, a string id, or an item document, which
    comes with the place it lives in and is used as it is. *)
Inductive ItemArg : Type :=
| NoItem
| ById (id : ItemId)
| Document (holder : Holder) (doc : Item).

(** The operations issued against the host. *)
Inductive Op : Type :=
| SetGold (who : Party) (value : Q)
| Create (owner : Party) (itemData : ItemData)
| SetQuantity (holder : Holder) (id : ItemId) (value : Z)
| Delete (holder : Holder) (id : ItemId).

(** The host: the two actors, the documents that live elsewhere, the next
    fresh id and the journal of the operations issued so far. *)
Record World : Type := mkWorld {
  player : Trader;
  shop : Trader;
  elsewhere : list Item;
  fresh : ItemId;
  log : list Op
}.

Definition traderOf (w : World) (p : Party) : Trader :=
  match p with
  | Player => player w
  | Shop => shop w
  end.

Definition setTrader (w : World) (p : Party) (t : Trader) : World :=
  match p with
  | Player => mkWorld t (shop w) (elsewhere w) (fresh w) (log w)
  | Shop => mkWorld (player w) t (elsewhere w) (fresh w) (log w)
  end.

(** The documents of a place. *)
Definition stockOf (w : World) (h : Holder) : list Item :=
  match h with
  | Held p => stock (traderOf w p)
  | Elsewhere => elsewhere w
  end.

Definition setStock (w : World) (h : Holder) (l : list Item) : World :=
  match h with
  | Held p => setTrader w p (mkTrader (gold (traderOf w p)) l)
  | Elsewhere => mkWorld (player w) (shop w) l (fresh w) (log w)
  end.

(** [actor.items.get(id)] *)
Definition lookup (t : Trader) (id : ItemId) : option Item :=
  find (hasId id) (stock t).

(** What an accepted operation does; [None] when the document it
    addresses is not in the place it is addressed at. *)
Definition apply (op : Op) (w : World) : option World :=
  match op with
  | SetGold who value =>
      Some (setTrader w who (mkTrader (Some value) (stock (traderOf w who))))
  | Create owner itemData =>
      let t := traderOf w owner in
      let w' := setTrader w owner
                  (mkTrader (gold t) (stock t ++ [mkItem (fresh w) itemData])) in
      Some (mkWorld (player w') (shop w') (elsewhere w') (S (fresh w')) (log w'))
  | SetQuantity holder id value =>
      match find (hasId id) (stockOf w holder) with
      | None => None
      | Some _ =>
          Some (setStock w holder
                  (map (fun i => if hasId id i
                                 then mkItem (_id i) (withQuantity value (data i))
                                 else i)
                       (stockOf w holder)))
      end
  | Delete holder id =>
      match find (hasId id) (stockOf w holder) with
      | None => None
      | Some _ =>
          Some (setStock w holder
                  (filter (fun i => negb (hasId id i)) (stockOf w holder)))
      end
  end.

Definition record (op : Op) (w : World) : World :=
  mkWorld (player w) (shop w) (elsewhere w) (fresh w) (log w ++ [op]).

(** A computation against the host, as for the trade window. *)
Definition Run (A : Type) : Type := World -> Completion A * World.

Definition andThen {A B : Type} (c : Run A) (k : A -> Run B) : Run B :=
  fun w =>
    match c w with
    | (Normal a, w') => k a w'
    | (Throw, w') => (Throw, w')
    end.

(** [if (typeof item === 'string') item = actor.items.get(item)]: an id is
    looked up in the inventory of [actor]; a document is left as it is. *)
Definition resolveItem (actor : Party) (item : ItemArg) (w : World) : ItemArg :=
  match item with
  | ById id =>
      match lookup (traderOf w actor) id with
      | Some doc => Document (Held actor) doc
      | None => NoItem
      end
  | _ => item
  end.

Section Trades.

(** Whether the host rejects an operation issued in a given state. *)
Variable rejects : Op -> World -> bool.

(** [await] of one host operation. *)
Definition send (op : Op) : Run unit :=
  fun w =>
    let w' := record op w in
    if rejects op w then (Throw, w')
    else match apply op w' with
         | Some w'' => (Normal tt, w'')
         | None => (Throw, w')
         end.

(** [a < b] on rationals, as a boolean. *)
Definition Qltb (a b : Q) : bool := Js.Qgtb b a.

(** The end of [quickBuy] and [quickSell]: the document is deleted when
    [itemQty <= quantity], else its quantity is reduced; the operation
    goes to the document where it lives. *)
Definition takeFrom (holder : Holder) (id : ItemId) (itemQty quantity' : Z) : Run unit :=
  if itemQty <=? quantity' then send (Delete holder id)
  else send (SetQuantity holder id (itemQty - quantity')).

(** [ShopAPI.quickBuy({ shopActor, playerActor, item, quantity })]. The
    result is the boolean the promise resolves to. *)
Definition quickBuy (item : ItemArg) (quantity' : Z) (w : World) : bool * World :=
  match resolveItem Shop item w with
  | NoItem | ById _ => (false, w)
  | Document holder doc =>
      let price' := ((price (data doc) ?? 0) * inject_Z quantity')%Q in
      let playerGold := gold (player w) ?? 0%Q in
      let shopGold := gold (shop w) ?? 0%Q in
      if Qltb playerGold price' then (false, w)
      else
        let itemQty := quantity (data doc) ?? 1 in
        if itemQty <? quantity' then (false, w)
        else
          match
            andThen (send (SetGold Player (playerGold - price')))
              (fun _ => andThen (send (SetGold Shop (shopGold + price')))
              (fun _ => andThen (send (Create Player (withQuantity quantity' (data doc))))
              (fun _ => takeFrom holder (_id doc) itemQty quantity'))) w
          with
          | (Normal _, w') => (true, w')
          | (Throw, w') => (false, w')
          end
  end.

(** [ShopAPI.quickSell({ shopActor, playerActor, item, quantity, sellRatio })] *)
Definition quickSell (item : ItemArg) (quantity' : Z) (sellRatio : Q) (w : World)
    : bool * World :=
  match resolveItem Player item w with
  | NoItem | ById _ => (false, w)
  | Document holder doc =>
      let basePrice := price (data doc) ?? 0%Q in
      let sellPrice := inject_Z (Qfloor (basePrice * sellRatio) * quantity') in
      let playerGold := gold (player w) ?? 0%Q in
      let shopGold := gold (shop w) ?? 0%Q in
      if Qltb shopGold sellPrice then (false, w)
      else
        let itemQty := quantity (data doc) ?? 1 in
        if itemQty <? quantity' then (false, w)
        else
          match
            andThen (send (SetGold Player (playerGold + sellPrice)))
              (fun _ => andThen (send (SetGold Shop (shopGold - sellPrice)))
              (fun _ => andThen (send (Create Shop (withQuantity quantity' (data doc))))
              (fun _ => takeFrom holder (_id doc) itemQty quantity'))) w
          with
          | (Normal _, w') => (true, w')
          | (Throw, w') => (false, w')
          end
  end.

End Trades.

(** The host that accepts every operation. *)
Definition accepting : Op -> World -> bool := fun _ _ => false.

(** The gold of a party, [getProperty(actor, currencyPath) ?? 0]. *)
Definition goldOf (w : World) (p : Party) : Q := gold (traderOf w p) ?? 0%Q.

(** The number of things a party holds. *)
Definition holdings (w : World) (p : Party) : Z := sumQuantities (stock (traderOf w p)).

(** The document and place an [item] argument stands for in a trade where
    [actor] gives: the document found under a string id in the inventory
    of [actor], or the document passed, wherever it lives. *)
Definition names (actor : Party) (w : World) (item : ItemArg)
    (holder : Holder) (doc : Item) : Prop :=
  (exists id,
     item = ById id /\ lookup (traderOf w actor) id = Some doc /\ holder = Held actor)
  \/ item = Document holder doc.

(** The place is the inventory of the party. *)
Definition isHeldBy (p : Party) (h : Holder) : bool :=
  match h, p with
  | Held Player, Player => true
  | Held Shop, Shop => true
  | _, _ => false
  end.

End Quick.

(** Concrete states of a quick trade. *)
Module QuickExamples.

(** Four remedies priced 2.5. *)
Definition remedy : Item :=
  mkItem 1%nat (mkItemData "Remedy" "consumable" None (Some 4) (Some 2.5%Q) None).

(** The player holds 10 gold and nothing else; the shop holds 50 gold and
    the remedies. *)
Definition stall : Quick.World :=
  Quick.mkWorld (Quick.mkTrader (Some 10%Q) [])
                (Quick.mkTrader (Some 50%Q) [remedy]) [] 2%nat [].

(** The player holds the remedies instead. *)
Definition pouch : Quick.World :=
  Quick.mkWorld (Quick.mkTrader (Some 10%Q) [remedy])
                (Quick.mkTrader (Some 50%Q) []) [] 2%nat [].

(** Neither holds them: the remedies are in another actor's inventory. *)
Definition cellar : Quick.World :=
  Quick.mkWorld (Quick.mkTrader (Some 10%Q) [])
                (Quick.mkTrader (Some 50%Q) []) [remedy] 2%nat [].

End QuickExamples.
(** ** The registry of open shop windows ([ShopAPI.#activeShops]) *)

(** An open window: its trade state and whether it is still rendered
    ([element] is set). *)
Record ShopWindow : Type := mkWindow {
  window_trade : ShopApplication;
  window_element : bool
}.

(** [Map<string, ShopApplication>], in insertion order. *)
Definition Registry : Type := list (string * ShopWindow).

Fixpoint registry_get (key : string) (reg : Registry) : option ShopWindow :=
  match reg with
  | [] => None
  | (key', win) :: r => if String.eqb key key' then Some win else registry_get key r
  end.

Definition registry_delete (key : string) (reg : Registry) : Registry :=
  filter (fun kv => negb (String.eqb key (fst kv))) reg.

Fixpoint registry_set (key : string) (win : ShopWindow) (reg : Registry) : Registry :=
  match reg with
  | [] => [(key, win)]
  | (key', win') :: r =>
      if String.eqb key key' then (key, win) :: r
      else (key', win') :: registry_set key win r
  end.

(** [`${shopActor.id}-${playerActor.id}`] *)
Definition shopKey (shopId playerId : string) : string :=
  (shopId ++ "-" ++ playerId)%string.

(** [ShopAPI.openShop] from the point where both actors are resolved: a
    window registered for the pair and still rendered is returned as it
    is; a stale one is dropped; otherwise a new window is registered and
    rendered. The result is the window returned and the registry. *)
Definition openShop (shopId playerId : string) (reg : Registry)
    : ShopWindow * Registry :=
  let key := shopKey shopId playerId in
  let create (reg' : Registry) :=
    let shop := mkWindow newTrade true in
    (shop, registry_set key shop reg') in
  match registry_get key reg with
  | Some existing =>
      if window_element existing then (existing, reg)
      else create (registry_delete key reg)
  | None => create reg
  end.

(** The [close] listener installed by [openShop]. *)
Definition onShopClose (shopId playerId : string) (reg : Registry) : Registry :=
  registry_delete (shopKey shopId playerId) reg.

(** [ShopAPI.hasActiveShop(actor)]: some key includes the actor's id. *)
Definition hasActiveShop (actorId : string) (reg : Registry) : bool :=
  existsb (fun kv => includes (fst kv) actorId) reg.

(** The character occurs in the string. *)
Fixpoint hasChar (c : ascii) (s : string) : bool :=
  match s with
  | EmptyString => false
  | String d r => Ascii.eqb c d || hasChar c r
  end.

(** * Properties *)

(** ** Comparisons *)

Lemma Qgtb_true (a b : Q) : Js.Qgtb a b = true <-> (b < a)%Q.
Proof.
  unfold Js.Qgtb. rewrite negb_true_iff.
  split; intro H.
  - apply Qnot_le_lt. intro L. apply Qle_bool_iff in L. congruence.
  - destruct (Qle_bool a b) eqn:E; [|reflexivity].
    apply Qle_bool_iff in E. exfalso. apply (Qlt_not_le _ _ H E).
Qed.

Lemma Qgtb_false (a b : Q) : Js.Qgtb a b = false <-> (a <= b)%Q.
Proof.
  unfold Js.Qgtb. rewrite negb_false_iff. apply Qle_bool_iff.
Qed.

Lemma exceeds_true (offered : option Z) (held : Z) :
  exceeds offered held = true <-> exists n, offered = Some n /\ held < n.
Proof.
  destruct offered as [n|]; simpl.
  - rewrite Z.ltb_lt. split.
    + intro H. exists n. auto.
    + intros (m & E & H). injection E as ->. exact H.
  - split; [discriminate|]. intros (m & E & _). discriminate.
Qed.

Lemma denominations_complete (d : Denomination) : In d denominations.
Proof. destruct d; simpl; auto 6. Qed.

(** ** Currency arithmetic *)

(** A missing key counts for nothing in the total. *)
Lemma calculateTotalGold_emptyObject : (calculateTotalGold emptyObject == 0)%Q.
Proof. reflexivity. Qed.

(** C8: for a bundle with counts (pp, gp, ep, sp, cp) the normalized value
    is 10*pp + gp + 0.5*ep + 0.1*sp + 0.01*cp. The embedding is a function
    of the bundle alone: it reads no state and has no effect. *)
Theorem calculateTotalGold_formula (a b c d e : Z) :
  (calculateTotalGold (bundle a b c d e) ==
   10 * inject_Z a + inject_Z b + 0.5 * inject_Z c + 0.1 * inject_Z d
   + 0.01 * inject_Z e)%Q.
Proof.
  unfold calculateTotalGold, orZero, bundle. simpl. ring.
Qed.

(** C9, as stated, fails: a code outside the five (here the upper-case PP)
    is not always returned unchanged, since the switch runs on the
    lower-cased code. *)
Lemma toGold_upper_case_counterexample :
  ~ In "PP"%string knownCodes /\ ~ (toGold 1 (Some "PP"%string) == 1)%Q.
Proof.
  split.
  - simpl. intros [H|[H|[H|[H|[H|[]]]]]]; discriminate.
  - vm_compute. discriminate.
Qed.

(** C9, amended: the denomination is matched case-insensitively, a missing
    or empty one reads as gp; the value is multiplied by the rate of the
    lower-cased code, and is returned unchanged when that code is none of
    the five. *)
Theorem toGold_rates (v : Q) (denom : option string) :
  let code := Js.toLowerCase (Js.orElse denom "gp") in
  (code = "pp"%string -> toGold v denom == v * 10)%Q /\
  (code = "gp"%string -> toGold v denom == v * 1)%Q /\
  (code = "ep"%string -> toGold v denom == v * 0.5)%Q /\
  (code = "sp"%string -> toGold v denom == v * 0.1)%Q /\
  (code = "cp"%string -> toGold v denom == v * 0.01)%Q /\
  (~ In code knownCodes -> toGold v denom == v)%Q.
Proof.
  intro code. unfold toGold. fold code.
  repeat split; intro H.
  - rewrite H. simpl. reflexivity.
  - rewrite H. simpl. ring.
  - rewrite H. simpl. reflexivity.
  - rewrite H. simpl. reflexivity.
  - rewrite H. simpl. reflexivity.
  - repeat match goal with
           | |- context [String.eqb code ?c] =>
               destruct (String.eqb_spec code c) as [E|_];
               [exfalso; apply H; rewrite E; simpl; tauto|]
           end.
    reflexivity.
Qed.

Lemma toGold_rates_witness :
  (toGold 2 (Some "SP"%string) == 2 * 0.1)%Q /\ (toGold 2 None == 2 * 1)%Q
  /\ (toGold 2 (Some "florin"%string) == 2)%Q.
Proof.
  destruct (toGold_rates 2 (Some "SP"%string)) as (_ & _ & _ & Hsp & _).
  destruct (toGold_rates 2 None) as (_ & Hgp & _).
  destruct (toGold_rates 2 (Some "florin"%string)) as (_ & _ & _ & _ & _ & Hother).
  split; [|split].
  - apply Hsp. reflexivity.
  - apply Hgp. reflexivity.
  - apply Hother. simpl. intros [H|[H|[H|[H|[H|[]]]]]]; discriminate.
Defined.

(** ** The balance and the confirm predicate *)

(** C4: with [allowNegativeGold] off, a side that offers more of one
    denomination than it holds of that denomination makes the trade not
    confirmable, whatever the other denominations, the items and the
    totals are. *)
Theorem canConfirmTrade_per_denomination
    (this : ShopApplication) (game : Game) (playerCurrency shopCurrency : Currency)
    (p : Party) (d : Denomination) (offered : Z) :
  allowNegativeGold game = false ->
  prop (tradeCurrencyOf this p) d = Some offered ->
  (prop (heldBy playerCurrency shopCurrency p) d ?? 0) < offered ->
  canConfirmTrade this game playerCurrency shopCurrency = false.
Proof.
  intros Hneg Hoff Hlt.
  unfold canConfirmTrade. rewrite Hneg. cbn [negb andb].
  match goal with |- (if ?c then _ else _) = _ => destruct c; [reflexivity|] end.
  match goal with
  | |- (if existsb ?f ?l then _ else _) = _ =>
      assert (Hex : existsb f l = true)
  end.
  { apply existsb_exists. exists d. split; [apply denominations_complete|].
    apply orb_true_iff.
    destruct p; [left|right]; apply exceeds_true; exists offered; auto. }
  rewrite Hex. reflexivity.
Qed.

Lemma canConfirmTrade_per_denomination_witness :
  canConfirmTrade
    (mkApp [] [] (bundle 0 10 0 0 0) noCurrency)
    Examples.gemGame (bundle 100 5 0 0 0) noCurrency = false.
Proof.
  apply (canConfirmTrade_per_denomination
           (mkApp [] [] (bundle 0 10 0 0 0) noCurrency)
           Examples.gemGame (bundle 100 5 0 0 0) noCurrency Player gp 10).
  - reflexivity.
  - reflexivity.
  - simpl. lia.
Defined.

(** What the code does with the balance: a trade whose balance, as
    [calculateTradeBalance] computes it, is positive cannot be confirmed. *)
Lemma canConfirmTrade_positive_balance
    (this : ShopApplication) (game : Game) (playerCurrency shopCurrency : Currency) :
  (0 < calculateTradeBalance this game)%Q ->
  canConfirmTrade this game playerCurrency shopCurrency = false.
Proof.
  intro H. apply Qgtb_true in H.
  unfold canConfirmTrade. rewrite H.
  repeat match goal with |- (if ?c then _ else _) = _ => destruct c; try reflexivity end.
Qed.

(** C1: the code adds [price * quantity] with the raw price and never
    converts it by the item's denomination. For the gem priced 1 pp offered
    against 5 gp the code's balance is -4, where the balance over
    normalized values is +5. *)
Theorem calculateTradeBalance_ignores_denomination :
  (calculateTradeBalance Examples.gemOffer Examples.gemGame == -4)%Q /\
  (spec_balance Examples.gemOffer Examples.gemGame == 5)%Q.
Proof.
  split; vm_compute; reflexivity.
Qed.

(** C3: on the same state every per-denomination check passes and the
    balance over normalized values is positive, yet the trade is
    confirmable; and a trinket priced 100 cp offered against 5 gp, whose
    normalized balance is negative, is blocked by the balance test. *)
Theorem canConfirm_uses_raw_prices :
  ((0 < spec_balance Examples.gemOffer Examples.gemGame)%Q /\
   canConfirm Examples.gemOffer Examples.gemGame = true) /\
  ((spec_balance Examples.trinketOffer Examples.trinketGame < 0)%Q /\
   canConfirm Examples.trinketOffer Examples.trinketGame = false).
Proof.
  repeat split; vm_compute; reflexivity.
Qed.

(** With nothing offered on either side there is nothing to confirm. *)
Lemma canConfirmTrade_nothing_offered this game playerCurrency shopCurrency :
  canConfirmTrade (clearTrade this) game playerCurrency shopCurrency = false.
Proof. reflexivity. Qed.

Lemma toGold_gold v denom :
  ~ In (Js.toLowerCase (Js.orElse denom "gp")) ["pp"; "ep"; "sp"; "cp"]%string ->
  (toGold v denom == v)%Q.
Proof.
  intro H. unfold toGold.
  repeat match goal with
         | |- context [String.eqb ?code ?c] =>
             destruct (String.eqb_spec code c) as [E|_];
             [try reflexivity; exfalso; apply H; rewrite E; simpl; tauto|]
         end.
  reflexivity.
Qed.

Lemma priceOf_agrees owner item :
  pricedInGold owner -> (priceOf owner item == spec_normalizedPrice owner item)%Q.
Proof.
  intro Hgold. unfold priceOf, spec_normalizedPrice.
  destruct (getItem owner item) as [doc|] eqn:Hdoc; [|reflexivity].
  symmetry. apply toGold_gold. apply Hgold.
  unfold getItem in Hdoc. apply (find_some _ _ Hdoc).
Qed.

Lemma offerValue_agrees owner tradeCurrency tradeItems :
  pricedInGold owner ->
  (offerValue owner tradeCurrency tradeItems
   == spec_totalNormalizedValue owner tradeCurrency tradeItems)%Q.
Proof.
  intro Hgold. unfold offerValue, spec_totalNormalizedValue.
  assert (Hfold : forall l acc acc', (acc == acc')%Q ->
            (fold_left
               (fun a e => a + priceOf owner (entry_item e) * inject_Z (entry_quantity e))
               l acc
             == fold_left
                  (fun a e => a + spec_normalizedPrice owner (entry_item e)
                                  * inject_Z (entry_quantity e))
                  l acc')%Q).
  { induction l as [|e r IH]; intros acc acc' Hacc; simpl; [exact Hacc|].
    apply IH. rewrite Hacc, (priceOf_agrees owner (entry_item e) Hgold). reflexivity. }
  apply Hfold. reflexivity.
Qed.

(** Where every offered price is in gp the code's balance is the balance
    over normalized values. *)
Lemma calculateTradeBalance_agrees this game :
  pricedInGold (playerActor game) -> pricedInGold (shopActor game) ->
  (calculateTradeBalance this game == spec_balance this game)%Q.
Proof.
  intros Hp Hs. unfold calculateTradeBalance, spec_balance.
  rewrite (offerValue_agrees _ _ _ Hp), (offerValue_agrees _ _ _ Hs). reflexivity.
Qed.

(** ** The basket as a map *)

Section JsMapFacts.
Context {V : Type}.
Implicit Types (k : ItemId) (v : V) (m : JsMap V).

Lemma map_has_cons k k' v m :
  map_has k ((k', v) :: m) = Nat.eqb k k' || map_has k m.
Proof.
  unfold map_has. simpl. destruct (Nat.eqb k k'); reflexivity.
Qed.

Lemma map_delete_set_absent k v m :
  map_has k m = false -> map_delete k (map_set k v m) = m.
Proof.
  induction m as [|[k' v'] r IH]; intro H.
  - simpl. rewrite Nat.eqb_refl. reflexivity.
  - rewrite map_has_cons in H. apply orb_false_iff in H as [Hk Hr].
    simpl. rewrite Hk. unfold map_delete in *. simpl. rewrite Hk. simpl.
    f_equal. apply IH. exact Hr.
Qed.

Lemma map_has_set k v m : map_has k (map_set k v m) = true.
Proof.
  induction m as [|[k' v'] r IH]; simpl.
  - unfold map_has. simpl. rewrite Nat.eqb_refl. reflexivity.
  - destruct (Nat.eqb k k') eqn:E; rewrite map_has_cons.
    + rewrite Nat.eqb_refl. reflexivity.
    + rewrite E. exact IH.
Qed.

Lemma map_get_set_same k v m : map_get k (map_set k v m) = Some v.
Proof.
  induction m as [|[k' v'] r IH]; simpl.
  - rewrite Nat.eqb_refl. reflexivity.
  - destruct (Nat.eqb k k') eqn:E; simpl.
    + rewrite Nat.eqb_refl. reflexivity.
    + rewrite E. exact IH.
Qed.

Lemma map_get_set_other k k' v m :
  k' <> k -> map_get k' (map_set k v m) = map_get k' m.
Proof.
  intro N. apply Nat.eqb_neq in N.
  induction m as [|[k0 v0] r IH]; simpl.
  - rewrite N. reflexivity.
  - destruct (Nat.eqb k k0) eqn:E; simpl.
    + apply Nat.eqb_eq in E. subst k0. rewrite N. reflexivity.
    + destruct (Nat.eqb k' k0); [reflexivity|exact IH].
Qed.

Lemma map_get_delete_same k m : map_get k (map_delete k m) = None.
Proof.
  unfold map_delete.
  induction m as [|[k' v'] r IH]; simpl; [reflexivity|].
  destruct (Nat.eqb k k') eqn:E; simpl; [exact IH|].
  rewrite E. exact IH.
Qed.

Lemma map_get_delete_other k k' m :
  k' <> k -> map_get k' (map_delete k m) = map_get k' m.
Proof.
  intro N. unfold map_delete.
  induction m as [|[k0 v0] r IH]; simpl; [reflexivity|].
  destruct (Nat.eqb k k0) eqn:E; simpl.
  - apply Nat.eqb_eq in E. subst k0. apply Nat.eqb_neq in N. rewrite N. exact IH.
  - destruct (Nat.eqb k' k0); [reflexivity|exact IH].
Qed.

Lemma map_has_delete k m : map_has k (map_delete k m) = false.
Proof. unfold map_has. rewrite map_get_delete_same. reflexivity. Qed.

End JsMapFacts.

(** ** Click to toggle *)

Lemma tradeItemsOf_setTradeItems this p m :
  tradeItemsOf (setTradeItems this p m) p = m.
Proof. destruct p; reflexivity. Qed.

Lemma setTradeItems_twice this p m m' :
  setTradeItems (setTradeItems this p m) p m' = setTradeItems this p m'.
Proof. destruct p; reflexivity. Qed.

Lemma setTradeItems_same this p : setTradeItems this p (tradeItemsOf this p) = this.
Proof. destruct this, p; reflexivity. Qed.

(** A confirmed prompt for a stack of more than one answers at least 1. *)
Lemma promptQuantity_positive maxQuantity dialog q :
  1 < maxQuantity -> promptQuantity maxQuantity dialog = Some q -> 1 <= q <= maxQuantity.
Proof.
  intros Hmax H. destruct dialog as [|entered]; [discriminate|].
  simpl in H. injection H as <-. lia.
Qed.

Lemma click_offered source itemId dialog this game doc :
  getItem (actorOf game source) itemId = Some doc ->
  map_has itemId (tradeItemsOf this source) = true ->
  onInventoryItemClick source itemId dialog this game
  = setTradeItems this source (map_delete itemId (tradeItemsOf this source)).
Proof.
  intros Hdoc Hhas. unfold onInventoryItemClick. rewrite Hdoc, Hhas. reflexivity.
Qed.

Lemma click_not_offered source itemId dialog this game :
  map_has itemId (tradeItemsOf this source) = false ->
  onInventoryItemClick source itemId dialog this game = this
  \/ exists doc e,
       getItem (actorOf game source) itemId = Some doc /\
       onInventoryItemClick source itemId dialog this game
       = setTradeItems this source (map_set itemId e (tradeItemsOf this source)).
Proof.
  intro Habsent. unfold onInventoryItemClick.
  destruct (getItem (actorOf game source) itemId) as [doc|] eqn:Hdoc; [|left; reflexivity].
  rewrite Habsent.
  destruct (1 <? quantity (data doc) ?? 1).
  - destruct (promptQuantity (quantity (data doc) ?? 1) dialog) as [q|];
      [|left; reflexivity].
    destruct (q <=? 0); [left; reflexivity|].
    right. exists doc. eexists. split; reflexivity.
  - right. exists doc. eexists. split; reflexivity.
Qed.

(** C7, as stated, fails: three arrows out of five are offered; the
    arrows are toggled off, then on again with 2 chosen in the prompt, and
    the basket offers two arrows. *)
Lemma toggle_twice_counterexample :
  onInventoryItemClick Player 7%nat (DialogConfirm (Some 2))
    (onInventoryItemClick Player 7%nat DialogCancel
       Examples.threeArrows Examples.arrowGame)
    Examples.arrowGame
  = mkApp [(7%nat, mkEntry 7%nat 2)] [] noCurrency noCurrency
  /\ mkApp [(7%nat, mkEntry 7%nat 2)] [] noCurrency noCurrency
     <> Examples.threeArrows.
Proof.
  split; [reflexivity|discriminate].
Qed.

(** C7, amended. Toggling twice returns the basket to its prior content
    when the item was not offered and the first toggle offered it (the
    second withdraws it). When the item was offered, the first toggle
    withdraws it and the second offers it again with the quantity resolved
    at that click (1 for a single item, else the answer of the prompt): the
    prior content returns when that quantity is the one offered before. *)
Theorem onInventoryItemClick_twice
    (source : Party) (itemId : ItemId) (dialog1 dialog2 : DialogResult)
    (this : ShopApplication) (game : Game) :
  let once := onInventoryItemClick source itemId dialog1 this game in
  let twice := onInventoryItemClick source itemId dialog2 once game in
  (map_has itemId (tradeItemsOf this source) = false ->
   once <> this -> twice = this)
  /\
  (forall doc offered,
     getItem (actorOf game source) itemId = Some doc ->
     map_get itemId (tradeItemsOf this source) = Some (mkEntry itemId offered) ->
     (if 1 <? quantity (data doc) ?? 1
      then promptQuantity (quantity (data doc) ?? 1) dialog2 = Some offered
      else offered = 1) ->
     exists m,
       twice = setTradeItems this source m /\
       forall k, map_get k m = map_get k (tradeItemsOf this source)).
Proof.
  intros once twice. split.
  - intros Habsent Hchanged.
    destruct (click_not_offered source itemId dialog1 this game Habsent)
      as [Hsame|(doc & e & Hdoc & Hadded)];
      [exfalso; apply Hchanged; exact Hsame|].
    subst twice. fold once in Hadded. rewrite Hadded.
    rewrite (click_offered _ _ _ _ _ doc Hdoc)
      by (rewrite tradeItemsOf_setTradeItems; apply map_has_set).
    rewrite tradeItemsOf_setTradeItems, setTradeItems_twice.
    rewrite map_delete_set_absent by exact Habsent.
    apply setTradeItems_same.
  - intros doc offered Hdoc Hget Hq.
    assert (Hhas : map_has itemId (tradeItemsOf this source) = true).
    { unfold map_has. rewrite Hget. reflexivity. }
    assert (Honce : once = setTradeItems this source
                             (map_delete itemId (tradeItemsOf this source))).
    { apply (click_offered _ _ _ _ _ doc Hdoc Hhas). }
    exists (map_set itemId (mkEntry itemId offered)
              (map_delete itemId (tradeItemsOf this source))).
    split.
    + subst twice. rewrite Honce. unfold onInventoryItemClick.
      rewrite Hdoc, tradeItemsOf_setTradeItems, map_has_delete.
      destruct (1 <? quantity (data doc) ?? 1) eqn:Hmax.
      * rewrite Hq.
        apply Z.ltb_lt in Hmax.
        pose proof (promptQuantity_positive _ _ _ Hmax Hq) as Hpos.
        destruct (offered <=? 0) eqn:Hle; [apply Z.leb_le in Hle; lia|].
        apply setTradeItems_twice.
      * subst offered. apply setTradeItems_twice.
    + intro k. destruct (Nat.eq_dec k itemId) as [->|N].
      * rewrite map_get_set_same. symmetry. exact Hget.
      * rewrite map_get_set_other by exact N.
        apply map_get_delete_other. exact N.
Qed.

Lemma onInventoryItemClick_twice_witness :
  onInventoryItemClick Player 7%nat DialogCancel
    (onInventoryItemClick Player 7%nat (DialogConfirm (Some 3))
       (clearTrade Examples.threeArrows) Examples.arrowGame)
    Examples.arrowGame
  = clearTrade Examples.threeArrows
  /\
  exists m,
    onInventoryItemClick Player 7%nat (DialogConfirm (Some 3))
      (onInventoryItemClick Player 7%nat DialogCancel
         Examples.threeArrows Examples.arrowGame)
      Examples.arrowGame
    = setTradeItems Examples.threeArrows Player m
    /\ forall k, map_get k m = map_get k (playerTradeItems Examples.threeArrows).
Proof.
  split.
  - apply (proj1 (onInventoryItemClick_twice Player 7%nat (DialogConfirm (Some 3))
                    DialogCancel (clearTrade Examples.threeArrows)
                    Examples.arrowGame)).
    + reflexivity.
    + vm_compute. discriminate.
  - apply (proj2 (onInventoryItemClick_twice Player 7%nat DialogCancel
                    (DialogConfirm (Some 3)) Examples.threeArrows
                    Examples.arrowGame) Examples.arrows 3).
    + reflexivity.
    + reflexivity.
    + reflexivity.
Defined.

(** ** The store *)

Lemma actorOf_setActor_same game p a : actorOf (setActor game p a) p = a.
Proof. destruct p; reflexivity. Qed.

Lemma actorOf_setActor_other game p a :
  actorOf (setActor game p a) (other p) = actorOf game (other p).
Proof. destruct p; reflexivity. Qed.

Lemma actorOf_appendJournal op game p : actorOf (appendJournal op game) p = actorOf game p.
Proof. destruct p; reflexivity. Qed.

Lemma journal_setActor game p a : journal (setActor game p a) = journal game.
Proof. destruct p; reflexivity. Qed.

Lemma getItem_id actor k doc : getItem actor k = Some doc -> _id doc = k.
Proof.
  unfold getItem. intro H. apply find_some in H as [_ H].
  apply Nat.eqb_eq. exact H.
Qed.

Lemma hasId_preserved (u : Item -> Item) k k' x :
  (forall i, _id (u i) = _id i) ->
  hasId k (if hasId k' x then u x else x) = hasId k x.
Proof.
  intro Hu. destruct (hasId k' x); [|reflexivity].
  unfold hasId. rewrite Hu. reflexivity.
Qed.

Lemma find_updated k (u : Item -> Item) (l : list Item) doc :
  (forall i, _id (u i) = _id i) ->
  find (hasId k) l = Some doc ->
  find (hasId k) (map (fun i => if hasId k i then u i else i) l) = Some (u doc).
Proof.
  intros Hu. induction l as [|x r IH]; simpl; [discriminate|].
  rewrite (hasId_preserved u k k x Hu).
  destruct (hasId k x) eqn:E.
  - intro H. injection H as <-. reflexivity.
  - exact IH.
Qed.

Lemma find_deleted k (l : list Item) :
  find (hasId k) (filter (fun i => negb (hasId k i)) l) = None.
Proof.
  induction l as [|x r IH]; simpl; [reflexivity|].
  destruct (hasId k x) eqn:E; simpl; [exact IH|].
  rewrite E. exact IH.
Qed.

Lemma find_update_other k k' (u : Item -> Item) (l : list Item) :
  (forall i, _id (u i) = _id i) ->
  find (hasId k) l <> None ->
  find (hasId k) (map (fun i => if hasId k' i then u i else i) l) <> None.
Proof.
  intros Hu. induction l as [|x r IH]; simpl; [auto|].
  rewrite (hasId_preserved u k k' x Hu).
  destruct (hasId k x); [discriminate|exact IH].
Qed.

Lemma find_appended k (l : list Item) x :
  find (hasId k) l <> None -> find (hasId k) (l ++ [x]) <> None.
Proof.
  induction l as [|y r IH]; simpl; [intro H; exfalso; apply H; reflexivity|].
  destruct (hasId k y); [discriminate|exact IH].
Qed.

Lemma find_delete_other k k' (l : list Item) :
  k <> k' ->
  find (hasId k) l <> None ->
  find (hasId k) (filter (fun i => negb (hasId k' i)) l) <> None.
Proof.
  intros N. induction l as [|x r IH]; simpl; [auto|].
  destruct (hasId k x) eqn:E.
  - intros _. unfold hasId in E. apply Nat.eqb_eq in E.
    assert (E' : hasId k' x = false) by (apply Nat.eqb_neq; congruence).
    rewrite E'. simpl. unfold hasId at 1. rewrite E, Nat.eqb_refl. discriminate.
  - intro H. destruct (hasId k' x); simpl.
    + apply IH. exact H.
    + rewrite E. apply IH. exact H.
Qed.

(** ** Host operations *)

Lemma perform_itemOp owner op game game' :
  itemOp owner op ->
  perform op game = Some game' ->
  actorOf game' (other owner) = actorOf game (other owner)
  /\ currency (actorOf game' owner) = currency (actorOf game owner)
  /\ journal game' = journal game.
Proof.
  intros Hop H.
  destruct op as [who value|o id value|o itemData|o id]; simpl in Hop;
    [contradiction| | |]; subst o; simpl in H.
  - destruct (getItem (actorOf game owner) id); [|discriminate].
    injection H as <-.
    rewrite actorOf_setActor_other, actorOf_setActor_same, journal_setActor. auto.
  - injection H as <-. destruct owner; simpl; auto.
  - destruct (getItem (actorOf game owner) id); [|discriminate].
    injection H as <-.
    rewrite actorOf_setActor_other, actorOf_setActor_same, journal_setActor. auto.
Qed.

Lemma issue_normal rejects op game game' :
  issue rejects op game = (Normal tt, game') ->
  rejects op game = false /\ perform op (appendJournal op game) = Some game'.
Proof.
  unfold issue. destruct (rejects op game); [discriminate|].
  destruct (perform op (appendJournal op game)); [|discriminate].
  intro H. injection H as <-. auto.
Qed.

Lemma issue_throw rejects op game game' :
  issue rejects op game = (Throw, game') -> game' = appendJournal op game.
Proof.
  unfold issue. destruct (rejects op game); [congruence|].
  destruct (perform op (appendJournal op game)); [discriminate|congruence].
Qed.

Lemma issue_reliable op game game' :
  perform op (appendJournal op game) = Some game' ->
  issue reliable op game = (Normal tt, game').
Proof.
  intro H. unfold issue, reliable. rewrite H. reflexivity.
Qed.

Lemma sameCurrency_refl game : sameCurrency game game.
Proof. intro p. reflexivity. Qed.

Lemma sameCurrency_trans g1 g2 g3 :
  sameCurrency g1 g2 -> sameCurrency g2 g3 -> sameCurrency g1 g3.
Proof. intros H12 H23 p. rewrite H23. apply H12. Qed.

Lemma other_involutive p : other (other p) = p.
Proof. destruct p; reflexivity. Qed.

Lemma party_cases (P : Party -> Prop) owner : P owner -> P (other owner) -> forall p, P p.
Proof. intros H1 H2 p. destruct owner, p; assumption. Qed.

Lemma issue_itemOp_sameCurrency rejects owner op game :
  itemOp owner op -> sameCurrency game (snd (issue rejects op game)).
Proof.
  intros Hop. destruct (issue rejects op game) as [[[]|] game'] eqn:E; simpl.
  - apply issue_normal in E as [_ E].
    destruct (perform_itemOp owner op _ _ Hop E) as (Ho & Hc & _).
    intro p. pattern p. apply (party_cases _ owner).
    + rewrite Hc, actorOf_appendJournal. reflexivity.
    + rewrite Ho, actorOf_appendJournal. reflexivity.
  - apply issue_throw in E. subst game'. intro p.
    rewrite actorOf_appendJournal. reflexivity.
Qed.

Lemma perform_journal op game game' :
  perform op game = Some game' -> journal game' = journal game.
Proof.
  destruct op as [who value|o id value|o itemData|o id]; simpl.
  - intro H. injection H as <-. apply journal_setActor.
  - destruct (getItem (actorOf game o) id); [|discriminate].
    intro H. injection H as <-. apply journal_setActor.
  - intro H. injection H as <-. destruct o; reflexivity.
  - destruct (getItem (actorOf game o) id); [|discriminate].
    intro H. injection H as <-. apply journal_setActor.
Qed.

Lemma items_setActor_cases game o a p :
  items (actorOf (setActor game o a) p) = items a /\ o = p
  \/ actorOf (setActor game o a) p = actorOf game p /\ o <> p.
Proof.
  destruct o, p; simpl; auto; right; split; auto; discriminate.
Qed.

(** An accepted operation keeps every document resolvable, except the one
    it deletes. *)
Lemma perform_keeps_resolving op game game' p r :
  perform op game = Some game' ->
  op <> DeleteItem p r ->
  getItem (actorOf game p) r <> None ->
  getItem (actorOf game' p) r <> None.
Proof.
  intros H Hop Hr.
  destruct op as [who value|o id value|o itemData|o id]; simpl in H.
  - injection H as <-. unfold getItem in *.
    destruct (items_setActor_cases game who
                (mkActor (Some value) (items (actorOf game who))) p)
      as [[E ->]|[E _]]; rewrite E; exact Hr.
  - destruct (getItem (actorOf game o) id); [|discriminate].
    injection H as <-. unfold getItem in *.
    match goal with
    | |- context [setActor game o ?a] =>
        destruct (items_setActor_cases game o a p) as [[E ->]|[E _]]; rewrite E
    end; [|exact Hr].
    simpl. apply find_update_other; [reflexivity|exact Hr].
  - injection H as <-. unfold getItem in *.
    destruct o, p; simpl in *; try exact Hr; apply find_appended; exact Hr.
  - destruct (getItem (actorOf game o) id); [|discriminate].
    injection H as <-. unfold getItem in *.
    match goal with
    | |- context [setActor game o ?a] =>
        destruct (items_setActor_cases game o a p) as [[E ->]|[E _]]; rewrite E
    end; [|exact Hr].
    simpl. apply find_delete_other; [congruence|exact Hr].
Qed.

(** ** Transfer of one item *)

Lemma transferItem_unfold rejects item fromActor toActor q game :
  transferItem rejects item fromActor toActor q game =
  match getItem (actorOf game fromActor) item with
  | None => (Throw, game)
  | Some doc =>
      match issue rejects (destinationOp doc toActor q game) game with
      | (Throw, game1) => (Throw, game1)
      | (Normal _, game1) =>
          match getItem (actorOf game1 fromActor) item with
          | None => (Throw, game1)
          | Some doc' => issue rejects (sourceOp doc' fromActor q) game1
          end
      end
  end.
Proof.
  unfold transferItem, bind, resolve, getGame, destinationOp.
  destruct (getItem (actorOf game fromActor) item) as [doc|]; [|reflexivity].
  destruct (findExisting doc (actorOf game toActor)) as [e|];
    match goal with
    | |- context [issue rejects ?op game] =>
        destruct (issue rejects op game) as [[[]|] game1]; [|reflexivity]
    end;
    (destruct (getItem (actorOf game1 fromActor) item) as [doc'|] eqn:E;
     [|reflexivity]);
    unfold sourceOp; rewrite (getItem_id _ _ _ E);
    destruct (quantity (data doc') ?? 1 <=? q); reflexivity.
Qed.

Lemma destinationOp_itemOp doc toActor q game :
  itemOp toActor (destinationOp doc toActor q game).
Proof.
  unfold destinationOp. destruct (findExisting doc (actorOf game toActor)); reflexivity.
Qed.

Lemma sourceOp_itemOp doc fromActor q : itemOp fromActor (sourceOp doc fromActor q).
Proof.
  unfold sourceOp. destruct (quantity (data doc) ?? 1 <=? q); reflexivity.
Qed.

(** A transfer never touches the currency of either party, however it
    completes. *)
Lemma transferItem_sameCurrency rejects item fromActor toActor q game :
  sameCurrency game (snd (transferItem rejects item fromActor toActor q game)).
Proof.
  rewrite transferItem_unfold.
  destruct (getItem (actorOf game fromActor) item) as [doc|];
    [|apply sameCurrency_refl].
  pose proof (issue_itemOp_sameCurrency rejects toActor _ game
                (destinationOp_itemOp doc toActor q game)) as H1.
  destruct (issue rejects (destinationOp doc toActor q game) game)
    as [[[]|] game1]; simpl in H1; [|exact H1].
  destruct (getItem (actorOf game1 fromActor) item) as [doc'|]; [|exact H1].
  apply (sameCurrency_trans _ game1); [exact H1|].
  apply (issue_itemOp_sameCurrency rejects fromActor). apply sourceOp_itemOp.
Qed.

(** A transfer that completes has applied the destination operation and
    then the source operation. *)
Lemma transferItem_normal rejects item fromActor q game game' doc :
  getItem (actorOf game fromActor) item = Some doc ->
  transferItem rejects item fromActor (other fromActor) q game = (Normal tt, game') ->
  let destOp := destinationOp doc (other fromActor) q game in
  let srcOp := sourceOp doc fromActor q in
  exists game1,
    perform destOp (appendJournal destOp game) = Some game1 /\
    perform srcOp (appendJournal srcOp game1) = Some game'.
Proof.
  intros Hdoc H destOp srcOp.
  rewrite transferItem_unfold, Hdoc in H. fold destOp in H.
  destruct (issue rejects destOp game) as [[[]|] game1] eqn:E1; [|discriminate].
  apply issue_normal in E1 as [_ E1].
  exists game1. split; [exact E1|].
  destruct (perform_itemOp (other fromActor) destOp _ _
              (destinationOp_itemOp doc _ q game) E1) as (Hfrom & _).
  rewrite other_involutive, actorOf_appendJournal in Hfrom.
  rewrite Hfrom, Hdoc in H.
  apply issue_normal in H as [_ H]. exact H.
Qed.

Lemma find_hasId_In e l : In e l -> find (hasId (_id e)) l <> None.
Proof.
  intros Hin Hnone.
  pose proof (find_none _ _ Hnone e Hin) as H.
  unfold hasId in H. rewrite Nat.eqb_refl in H. discriminate.
Qed.

Lemma findExisting_In doc toActor e :
  findExisting doc toActor = Some e -> In e (items toActor).
Proof.
  unfold findExisting.
  destruct (truthy (sourceId (data doc))).
  - destruct (find _ (items toActor)) as [e'|] eqn:E.
    + intro H. injection H as <-. apply (find_some _ _ E).
    + intro H. apply (find_some _ _ H).
  - intro H. apply (find_some _ _ H).
Qed.

(** On a host that accepts every operation, the transfer of a document that
    resolves completes. *)
Lemma transferItem_reliable item fromActor q game :
  getItem (actorOf game fromActor) item <> None ->
  exists game',
    transferItem reliable item fromActor (other fromActor) q game = (Normal tt, game').
Proof.
  intro Hres.
  destruct (getItem (actorOf game fromActor) item) as [doc|] eqn:Hdoc;
    [clear Hres|exfalso; apply Hres; reflexivity].
  rewrite transferItem_unfold, Hdoc.
  set (destOp := destinationOp doc (other fromActor) q game).
  assert (Hdest : exists game1, perform destOp (appendJournal destOp game) = Some game1).
  { subst destOp. unfold destinationOp.
    destruct (findExisting doc (actorOf game (other fromActor))) as [e|] eqn:E.
    - simpl. rewrite actorOf_appendJournal.
      destruct (getItem (actorOf game (other fromActor)) (_id e)) eqn:G;
        [eexists; reflexivity|].
      exfalso. apply (find_hasId_In e _ (findExisting_In _ _ _ E)). exact G.
    - simpl. eexists. reflexivity. }
  destruct Hdest as (game1 & Hdest).
  rewrite (issue_reliable _ _ _ Hdest).
  destruct (perform_itemOp (other fromActor) destOp _ _
              (destinationOp_itemOp doc _ q game) Hdest) as (Hfrom & _).
  rewrite other_involutive, actorOf_appendJournal in Hfrom.
  rewrite Hfrom, Hdoc.
  assert (Hsrc : exists game', perform (sourceOp doc fromActor q)
                        (appendJournal (sourceOp doc fromActor q) game1) = Some game').
  { assert (G : getItem (actorOf game1 fromActor) (_id doc) = Some doc).
    { rewrite Hfrom, (getItem_id _ _ _ Hdoc). exact Hdoc. }
    unfold sourceOp. destruct (quantity (data doc) ?? 1 <=? q); simpl;
      rewrite actorOf_appendJournal, G; eexists; reflexivity. }
  destruct Hsrc as (game' & Hsrc).
  exists game'. apply issue_reliable. exact Hsrc.
Qed.

Lemma journal_appendJournal op game : journal (appendJournal op game) = journal game ++ [op].
Proof. reflexivity. Qed.

(** What a transfer that completes has done, at the destination and at the
    source. *)
Lemma transferItem_effects
    (rejects : HostOp -> Game -> bool) (item : ItemId) (fromActor : Party)
    (q : Z) (game game' : Game) (doc : Item) :
  getItem (actorOf game fromActor) item = Some doc ->
  transferItem rejects item fromActor (other fromActor) q game = (Normal tt, game') ->
  let toActor := other fromActor in
  let n := quantity (data doc) ?? 1 in
  let destOp :=
    match findExisting doc (actorOf game toActor) with
    | Some existingItem =>
        UpdateQuantity toActor (_id existingItem)
          ((quantity (data existingItem) ?? 1) + q)
    | None => CreateItem toActor (withQuantity q (data doc))
    end in
  match findExisting doc (actorOf game toActor) with
  | Some existingItem =>
      In (mkItem (_id existingItem)
            (withQuantity ((quantity (data existingItem) ?? 1) + q) (data existingItem)))
         (items (actorOf game' toActor))
  | None =>
      In (mkItem (nextId game) (withQuantity q (data doc)))
         (items (actorOf game' toActor))
  end
  /\ (n <= q ->
      journal game' = journal game ++ [destOp; DeleteItem fromActor item] /\
      getItem (actorOf game' fromActor) item = None)
  /\ (q < n ->
      journal game' = journal game ++ [destOp; UpdateQuantity fromActor item (n - q)] /\
      getItem (actorOf game' fromActor) item
      = Some (mkItem item (withQuantity (n - q) (data doc)))).
Proof.
  intros Hdoc Hrun toActor n destOp.
  destruct (transferItem_normal _ _ _ _ _ _ _ Hdoc Hrun) as (game1 & Hdest & Hsrc).
  fold toActor in Hdest. change (destinationOp doc toActor q game) with destOp in Hdest.
  pose proof (getItem_id _ _ _ Hdoc) as Hid.
  assert (Hjournal : journal game' = journal game ++ [destOp; sourceOp doc fromActor q]).
  { rewrite (perform_journal _ _ _ Hsrc), journal_appendJournal.
    rewrite (perform_journal _ _ _ Hdest), journal_appendJournal.
    rewrite <- app_assoc. reflexivity. }
  destruct (perform_itemOp fromActor _ _ _ (sourceOp_itemOp doc fromActor q) Hsrc)
    as (Hto & _).
  rewrite actorOf_appendJournal in Hto. fold toActor in Hto.
  assert (Hfrom1 : actorOf game1 fromActor = actorOf game fromActor).
  { destruct (perform_itemOp toActor destOp _ _
                (destinationOp_itemOp doc _ q game) Hdest) as (H & _).
    unfold toActor in H. rewrite other_involutive, actorOf_appendJournal in H.
    exact H. }
  split; [|split].
  - rewrite Hto. clear Hsrc Hjournal Hto.
    subst destOp. 
    destruct (findExisting doc (actorOf game toActor)) as [e|] eqn:E; simpl in Hdest.
    + rewrite actorOf_appendJournal in Hdest.
      destruct (getItem (actorOf game toActor) (_id e)); [|discriminate].
      injection Hdest as <-. rewrite actorOf_setActor_same. simpl.
      apply in_map_iff. exists e. split; [|apply (findExisting_In _ _ _ E)].
      unfold hasId. rewrite Nat.eqb_refl. reflexivity.
    + injection Hdest as <-. rewrite actorOf_appendJournal.
      destruct toActor; simpl; apply in_or_app; right; left; reflexivity.
  - intro Hle. unfold sourceOp in Hjournal, Hsrc. fold n in Hjournal, Hsrc.
    apply Z.leb_le in Hle. rewrite Hle, Hid in Hjournal, Hsrc.
    split; [exact Hjournal|].
    simpl in Hsrc. rewrite actorOf_appendJournal in Hsrc.
    destruct (getItem (actorOf game1 fromActor) item); [|discriminate].
    injection Hsrc as <-. rewrite actorOf_setActor_same.
    unfold getItem. simpl. apply find_deleted.
  - intro Hlt. unfold sourceOp in Hjournal, Hsrc. fold n in Hjournal, Hsrc.
    assert (Hle : (n <=? q) = false) by (apply Z.leb_gt; exact Hlt).
    rewrite Hle, Hid in Hjournal, Hsrc.
    split; [exact Hjournal|].
    simpl in Hsrc. rewrite actorOf_appendJournal, Hfrom1, Hdoc in Hsrc.
    injection Hsrc as <-. rewrite actorOf_setActor_same.
    unfold getItem. simpl.
    rewrite (find_updated item (fun i => mkItem (_id i) (withQuantity (n - q) (data i)))
               _ doc (fun i => eq_refl) Hdoc).
    rewrite Hid. reflexivity.
Qed.

(** C6: a transfer of [q] from a document holding [n] first accounts for
    [q] at the destination: the stacking target, when there is one, is
    left with its quantity field raised by [q]; otherwise a document with
    the fields of the source and the quantity field [q] is created. Then
    the source is deleted when [n <= q], and otherwise stays in place with
    its quantity field set to [n - q] and its other fields as they
    were. *)
Theorem transferItem_source
    (rejects : HostOp -> Game -> bool) (item : ItemId) (fromActor : Party)
    (q : Z) (game game' : Game) (doc : Item) :
  getItem (actorOf game fromActor) item = Some doc ->
  transferItem rejects item fromActor (other fromActor) q game = (Normal tt, game') ->
  let toActor := other fromActor in
  let quantityIn (i : Item) : Z :=
    match quantity (data i) with
    | Some k => k
    | None => 1
    end in
  let holding (value : Z) (i : Item) : ItemData :=
    mkItemData (name (data i)) (type (data i)) (sourceId (data i))
               (Some value) (price (data i)) (denomination (data i)) in
  let n := quantityIn doc in
  let destOp :=
    match findExisting doc (actorOf game toActor) with
    | Some existingItem =>
        UpdateQuantity toActor (_id existingItem) (quantityIn existingItem + q)
    | None => CreateItem toActor (holding q doc)
    end in
  match findExisting doc (actorOf game toActor) with
  | Some existingItem =>
      In (mkItem (_id existingItem)
            (holding (quantityIn existingItem + q) existingItem))
         (items (actorOf game' toActor))
  | None =>
      In (mkItem (nextId game) (holding q doc)) (items (actorOf game' toActor))
  end
  /\ (n <= q ->
      journal game' = journal game ++ [destOp; DeleteItem fromActor item] /\
      getItem (actorOf game' fromActor) item = None)
  /\ (q < n ->
      journal game' = journal game ++ [destOp; UpdateQuantity fromActor item (n - q)] /\
      getItem (actorOf game' fromActor) item = Some (mkItem item (holding (n - q) doc))).
Proof.
  intros Hdoc Hrun toActor quantityIn holding n destOp.
  destruct (transferItem_effects rejects item fromActor q game game' doc Hdoc Hrun)
    as (Hdest & Hdelete & Hreduce).
  split; [exact Hdest|]. split.
  - intro Hle. apply Hdelete. exact Hle.
  - intro Hlt. apply Hreduce. exact Hlt.
Qed.

Lemma transferItem_keeps_resolving rejects item fromActor q game game' p r :
  transferItem rejects item fromActor (other fromActor) q game = (Normal tt, game') ->
  (p = fromActor -> r <> item) ->
  getItem (actorOf game p) r <> None ->
  getItem (actorOf game' p) r <> None.
Proof.
  intros Hrun Hr Hres.
  destruct (getItem (actorOf game fromActor) item) as [doc|] eqn:Hdoc.
  2:{ rewrite transferItem_unfold, Hdoc in Hrun. discriminate. }
  destruct (transferItem_normal _ _ _ _ _ _ _ Hdoc Hrun) as (game1 & Hdest & Hsrc).
  apply (perform_keeps_resolving _ _ _ _ _ Hsrc).
  - unfold sourceOp. rewrite (getItem_id _ _ _ Hdoc).
    destruct (quantity (data doc) ?? 1 <=? q); [|discriminate].
    intro E. injection E as E1 E2. apply Hr; congruence.
  - rewrite actorOf_appendJournal.
    apply (perform_keeps_resolving _ _ _ _ _ Hdest).
    + unfold destinationOp.
      destruct (findExisting doc (actorOf game (other fromActor))); discriminate.
    + rewrite actorOf_appendJournal. exact Hres.
Qed.

Lemma transferItem_journal rejects item fromActor toActor q game :
  exists ops,
    journal (snd (transferItem rejects item fromActor toActor q game))
    = journal game ++ ops.
Proof.
  rewrite transferItem_unfold.
  destruct (getItem (actorOf game fromActor) item) as [doc|];
    [|exists []; simpl; symmetry; apply app_nil_r].
  assert (Hissue : forall op g, exists ops,
             journal (snd (issue rejects op g)) = journal g ++ ops).
  { intros op g. exists [op].
    destruct (issue rejects op g) as [[[]|] g'] eqn:E; simpl.
    - apply issue_normal in E as [_ E]. rewrite (perform_journal _ _ _ E). reflexivity.
    - apply issue_throw in E. subst g'. reflexivity. }
  destruct (Hissue (destinationOp doc toActor q game) game) as (ops1 & H1).
  destruct (issue rejects (destinationOp doc toActor q game) game)
    as [[[]|] game1]; simpl in H1; [|exists ops1; exact H1].
  destruct (getItem (actorOf game1 fromActor) item) as [doc'|];
    [|exists ops1; exact H1].
  destruct (Hissue (sourceOp doc' fromActor q) game1) as (ops2 & H2).
  exists (ops1 ++ ops2). rewrite H2, H1, app_assoc. reflexivity.
Qed.

(** ** The loops of a commit *)

Section Loops.
Variable rejects : HostOp -> Game -> bool.
Variable fromActor toActor : Party.

Lemma transferAll_sameCurrency l game :
  sameCurrency game (snd (transferAll rejects fromActor toActor l game)).
Proof.
  revert game. induction l as [|e r IH]; intro game; [apply sameCurrency_refl|].
  unfold transferAll in *. simpl. unfold bind.
  pose proof (transferItem_sameCurrency rejects (entry_item e) fromActor toActor
                (entry_quantity e) game) as H.
  destruct (transferItem rejects (entry_item e) fromActor toActor
              (entry_quantity e) game) as [[[]|] game1]; simpl in H; [|exact H].
  apply (sameCurrency_trans _ game1); [exact H|apply IH].
Qed.

Lemma transferAll_journal l game :
  exists ops,
    journal (snd (transferAll rejects fromActor toActor l game)) = journal game ++ ops.
Proof.
  revert game. induction l as [|e r IH]; intro game.
  - exists []. simpl. symmetry. apply app_nil_r.
  - unfold transferAll in *. simpl. unfold bind.
    destruct (transferItem_journal rejects (entry_item e) fromActor toActor
                (entry_quantity e) game) as (ops1 & H1).
    destruct (transferItem rejects (entry_item e) fromActor toActor
                (entry_quantity e) game) as [[[]|] game1]; simpl in H1;
      [|exists ops1; exact H1].
    destruct (IH game1) as (ops2 & H2).
    exists (ops1 ++ ops2). rewrite H2, H1, app_assoc. reflexivity.
Qed.

End Loops.

(** On a host that accepts every operation, the transfers of distinct
    documents that resolve all complete, and the documents of the receiving
    actor still resolve afterwards. *)
Lemma transferAll_reliable fromActor l game :
  NoDup (map entry_item l) ->
  Forall (fun e => getItem (actorOf game fromActor) (entry_item e) <> None) l ->
  exists game',
    transferAll reliable fromActor (other fromActor) l game = (Normal tt, game') /\
    (forall r, getItem (actorOf game (other fromActor)) r <> None ->
               getItem (actorOf game' (other fromActor)) r <> None).
Proof.
  revert game. induction l as [|e r IH]; intros game Hnd Hall.
  - exists game. split; [reflexivity|auto].
  - inversion Hnd as [|? ? Hnotin Hnd']; subst.
    inversion Hall as [|? ? He Hall']; subst.
    destruct (transferItem_reliable (entry_item e) fromActor (entry_quantity e) game He)
      as (game1 & Hrun).
    destruct (IH game1 Hnd') as (game' & Hrest & Hkeep).
    { apply Forall_forall. intros e' Hin.
      apply (transferItem_keeps_resolving _ _ _ _ _ _ _ _ Hrun).
      - intros _ E. apply Hnotin. rewrite <- E. apply in_map. exact Hin.
      - apply (proj1 (Forall_forall _ _) Hall' e' Hin). }
    exists game'. split.
    + unfold transferAll in *. simpl. unfold bind. rewrite Hrun. exact Hrest.
    + intros k Hk. apply Hkeep.
      apply (transferItem_keeps_resolving _ _ _ _ _ _ _ _ Hrun); [|exact Hk].
      intro E. destruct fromActor; discriminate.
Qed.

(** ** The commit *)

Lemma executeTradeBody_unfold rejects this game :
  executeTradeBody rejects this game =
  let newPlayerCurrency :=
    settle (prepareCurrency (playerActor game))
           (playerTradeCurrency this) (shopTradeCurrency this) in
  let newShopCurrency :=
    settle (prepareCurrency (shopActor game))
           (shopTradeCurrency this) (playerTradeCurrency this) in
  match issue rejects (UpdateCurrency Player newPlayerCurrency) game with
  | (Throw, game1) => (Throw, game1)
  | (Normal _, game1) =>
      match issue rejects (UpdateCurrency Shop newShopCurrency) game1 with
      | (Throw, game2) => (Throw, game2)
      | (Normal _, game2) =>
          match transferAll rejects Shop Player
                  (map_values (shopTradeItems this)) game2 with
          | (Throw, game3) => (Throw, game3)
          | (Normal _, game3) =>
              transferAll rejects Player Shop (map_values (playerTradeItems this)) game3
          end
      end
  end.
Proof.
  unfold executeTradeBody, bind, getGame. cbv zeta.
  destruct (issue rejects _ game) as [[[]|] game1]; [|reflexivity].
  destruct (issue rejects _ game1) as [[[]|] game2]; [|reflexivity].
  destruct (transferAll rejects Shop Player _ game2) as [[[]|] game3]; reflexivity.
Qed.

Lemma executeTrade_completed_inv rejects this game this' game' :
  executeTrade rejects this game = (Completed, this', game') ->
  this' = clearTrade this /\ executeTradeBody rejects this game = (Normal tt, game').
Proof.
  unfold executeTrade.
  destruct (executeTradeBody rejects this game) as [[[]|] g]; [|discriminate].
  intro H. injection H as <- <-. auto.
Qed.

(** A commit that completes has persisted, for each party, the currency
    [held - offered + received]. *)
Lemma executeTrade_currency rejects this game this' game' :
  executeTrade rejects this game = (Completed, this', game') ->
  forall p,
    currency (actorOf game' p)
    = Some (settle (prepareCurrency (actorOf game p))
                   (tradeCurrencyOf this p) (tradeCurrencyOf this (other p))).
Proof.
  intro H. apply executeTrade_completed_inv in H as [_ H].
  rewrite executeTradeBody_unfold in H. cbv zeta in H.
  destruct (issue rejects _ game) as [[[]|] game1] eqn:E1; [|discriminate].
  destruct (issue rejects _ game1) as [[[]|] game2] eqn:E2; [|discriminate].
  pose proof (transferAll_sameCurrency rejects Shop Player
                (map_values (shopTradeItems this)) game2) as H3.
  destruct (transferAll rejects Shop Player _ game2) as [[[]|] game3];
    [|discriminate].
  pose proof (transferAll_sameCurrency rejects Player Shop
                (map_values (playerTradeItems this)) game3) as H4.
  rewrite H in H4. simpl in H3, H4.
  apply issue_normal in E1 as [_ E1]. apply issue_normal in E2 as [_ E2].
  simpl in E1, E2. injection E1 as <-. injection E2 as <-.
  intro p. rewrite H4, H3. destruct p; reflexivity.
Qed.

(** The trade state after [executeTrade]: reset when the commit completed,
    untouched when it failed. *)
Lemma executeTrade_baskets rejects this game :
  snd (fst (executeTrade rejects this game))
  = match fst (fst (executeTrade rejects this game)) with
    | Completed => clearTrade this
    | Failed => this
    end.
Proof.
  unfold executeTrade.
  destruct (executeTradeBody rejects this game) as [[[]|] g]; reflexivity.
Qed.

Lemma settle_prop held offered received d :
  prop (settle held offered received) d
  = Some ((prop held d ?? 0) - (prop offered d ?? 0) + (prop received d ?? 0)).
Proof. destruct d; reflexivity. Qed.

Lemma prepareCurrency_prop actor c d :
  currency actor = Some c -> prop (prepareCurrency actor) d = Some (prop c d ?? 0).
Proof. intro H. unfold prepareCurrency. rewrite H. destruct d; reflexivity. Qed.

Lemma held_completed rejects this game this' game' p d :
  executeTrade rejects this game = (Completed, this', game') ->
  held game' p d
  = held game p d - (prop (tradeCurrencyOf this p) d ?? 0)
    + (prop (tradeCurrencyOf this (other p)) d ?? 0).
Proof.
  intro H. unfold held at 1.
  rewrite (prepareCurrency_prop _ _ d (executeTrade_currency _ _ _ _ _ H p)).
  rewrite settle_prop. reflexivity.
Qed.

Lemma held_storedCount game p d : held game p d = storedCount (actorOf game p) d.
Proof.
  unfold held, storedCount, prepareCurrency.
  destruct (currency (actorOf game p)) as [c|]; destruct d; simpl;
    try reflexivity;
    match goal with |- context [Js.nullish ?x _] => destruct x; reflexivity end.
Qed.

(** C5: on a commit that completes, each party's persisted count of each
    denomination is the count its record stored at commit time (a missing
    key storing none), minus what it offered, plus what the other party
    offered; and both baskets, items and currency, are empty. *)
Theorem executeTrade_completed
    (rejects : HostOp -> Game -> bool) (this this' : ShopApplication)
    (game game' : Game) :
  executeTrade rejects this game = (Completed, this', game') ->
  (forall p d,
     prop (currency (actorOf game' p) ?? emptyObject) d
     = Some (storedCount (actorOf game p) d
             - (prop (tradeCurrencyOf this p) d ?? 0)
             + (prop (tradeCurrencyOf this (other p)) d ?? 0)))
  /\ playerTradeItems this' = [] /\ shopTradeItems this' = []
  /\ playerTradeCurrency this' = noCurrency /\ shopTradeCurrency this' = noCurrency.
Proof.
  intro H. split.
  - intros p d. rewrite (executeTrade_currency _ _ _ _ _ H p). simpl.
    rewrite settle_prop. fold (held game p d). rewrite held_storedCount.
    reflexivity.
  - apply executeTrade_completed_inv in H as [-> _]. repeat split.
Qed.

Lemma executeTrade_completed_witness :
  (prop (currency (playerActor
           (snd (executeTrade reliable Examples.purseOffer Examples.purseGame)))
         ?? emptyObject) gp = Some 6
   /\ prop (currency (shopActor
              (snd (executeTrade reliable Examples.purseOffer Examples.purseGame)))
            ?? emptyObject) gp = Some 4)
  /\ (prop (currency (playerActor
              (snd (executeTrade reliable Examples.purseOffer Examples.purseGame)))
            ?? emptyObject) sp = Some 2
      /\ prop (currency (shopActor
                 (snd (executeTrade reliable Examples.purseOffer Examples.purseGame)))
               ?? emptyObject) sp = Some 0).
Proof.
  assert (H : executeTrade reliable Examples.purseOffer Examples.purseGame
              = (Completed, clearTrade Examples.purseOffer,
                 snd (executeTrade reliable Examples.purseOffer Examples.purseGame)))
    by reflexivity.
  destruct (executeTrade_completed reliable _ _ _ _ H) as (Hcur & _).
  split; split.
  - exact (Hcur Player gp).
  - exact (Hcur Shop gp).
  - exact (Hcur Player sp).
  - exact (Hcur Shop sp).
Defined.

(** C10: a commit that completes conserves, for every denomination, the
    total of the counts the two parties' records store. *)
Theorem executeTrade_conserves_currency
    (rejects : HostOp -> Game -> bool) (this this' : ShopApplication)
    (game game' : Game) (d : Denomination) :
  executeTrade rejects this game = (Completed, this', game') ->
  storedCount (playerActor game') d + storedCount (shopActor game') d
  = storedCount (playerActor game) d + storedCount (shopActor game) d.
Proof.
  intro H.
  pose proof (held_completed _ _ _ _ _ Player d H) as Hp.
  pose proof (held_completed _ _ _ _ _ Shop d H) as Hs.
  rewrite !held_storedCount in Hp, Hs. simpl in Hp, Hs.
  rewrite Hp, Hs. lia.
Qed.

Lemma executeTrade_conserves_currency_witness :
  storedCount
    (playerActor (snd (executeTrade reliable Examples.purseOffer Examples.purseGame))) gp
  + storedCount
      (shopActor (snd (executeTrade reliable Examples.purseOffer Examples.purseGame))) gp
  = 7 + 3.
Proof.
  apply (executeTrade_conserves_currency reliable Examples.purseOffer
           (clearTrade Examples.purseOffer) Examples.purseGame
           (snd (executeTrade reliable Examples.purseOffer Examples.purseGame)) gp).
  reflexivity.
Defined.

Lemma transferItem_source_witness :
  getItem (playerActor (snd (transferItem reliable 7%nat Player Shop 2 Examples.arrowGame)))
    7%nat
  = Some (mkItem 7%nat
            (mkItemData "Arrow" "consumable" None (Some 3) (Some 1%Q) None))
  /\ In (mkItem 8%nat (mkItemData "Arrow" "consumable" None (Some 2) (Some 1%Q) None))
        (items (shopActor
                  (snd (transferItem reliable 7%nat Player Shop 2 Examples.arrowGame))))
  /\ getItem (playerActor (snd (transferItem reliable 7%nat Player Shop 5 Examples.arrowGame)))
       7%nat
     = None.
Proof.
  assert (Hrun2 : transferItem reliable 7%nat Player (other Player) 2 Examples.arrowGame
                  = (Normal tt,
                     snd (transferItem reliable 7%nat Player Shop 2 Examples.arrowGame)))
    by reflexivity.
  assert (Hrun5 : transferItem reliable 7%nat Player (other Player) 5 Examples.arrowGame
                  = (Normal tt,
                     snd (transferItem reliable 7%nat Player Shop 5 Examples.arrowGame)))
    by reflexivity.
  destruct (transferItem_source reliable 7%nat Player 2 Examples.arrowGame _
              Examples.arrows eq_refl Hrun2) as (Hcreated & _ & Hreduce).
  destruct (transferItem_source reliable 7%nat Player 5 Examples.arrowGame _
              Examples.arrows eq_refl Hrun5) as (_ & Hdelete & _).
  split; [|split].
  - apply Hreduce. simpl. lia.
  - exact Hcreated.
  - apply Hdelete. simpl. lia.
Defined.


Lemma issue_UpdateCurrency_reliable who value game :
  issue reliable (UpdateCurrency who value) game
  = (Normal tt,
     setActor (appendJournal (UpdateCurrency who value) game) who
       (mkActor (Some value) (items (actorOf game who)))).
Proof.
  unfold issue, reliable. simpl. rewrite actorOf_appendJournal. reflexivity.
Qed.

Lemma getItem_same_items a b k : items a = items b -> getItem a k = getItem b k.
Proof. unfold getItem. intros ->. reflexivity. Qed.







(** * Further properties of the trade window *)

(** ** Basket maintenance *)

Section JsMapInvariants.
Context {V : Type}.
Implicit Types (k : ItemId) (v : V) (m : JsMap V).

Lemma map_has_false_keys k m : map_has k m = false <-> ~ In k (map_keys m).
Proof.
  induction m as [|[k' v'] r IH]; simpl.
  - split; [tauto|reflexivity].
  - rewrite map_has_cons, orb_false_iff, IH, Nat.eqb_neq.
    split.
    + intros [N H] [E|E]; [congruence|tauto].
    + intro H. split; [intro E; apply H; left; congruence|tauto].
Qed.

Lemma map_set_absent k v m : map_has k m = false -> map_set k v m = m ++ [(k, v)].
Proof.
  induction m as [|[k' v'] r IH]; intro H; simpl; [reflexivity|].
  rewrite map_has_cons in H. apply orb_false_iff in H as [Hk Hr].
  rewrite Hk, (IH Hr). reflexivity.
Qed.

Lemma map_keys_delete k m :
  map_keys (map_delete k m) = filter (fun k' => negb (Nat.eqb k k')) (map_keys m).
Proof.
  unfold map_delete, map_keys.
  induction m as [|[k' v'] r IH]; simpl; [reflexivity|].
  destruct (Nat.eqb k k'); simpl; rewrite IH; reflexivity.
Qed.

Lemma NoDup_filter {A : Type} (f : A -> bool) (l : list A) :
  NoDup l -> NoDup (filter f l).
Proof.
  induction 1 as [|x l Hx Hnd IH]; simpl; [constructor|].
  destruct (f x); [|exact IH].
  constructor; [|exact IH]. intro H. apply Hx. apply filter_In in H. tauto.
Qed.

Lemma NoDup_map_delete k m : NoDup (map_keys m) -> NoDup (map_keys (map_delete k m)).
Proof. intro H. rewrite map_keys_delete. apply NoDup_filter. exact H. Qed.

Lemma NoDup_snoc {A : Type} (x : A) (l : list A) :
  NoDup l -> ~ In x l -> NoDup (l ++ [x]).
Proof.
  induction 1 as [|y l Hy Hnd IH]; intro Hx; simpl.
  - constructor; [tauto|constructor].
  - constructor.
    + intro H. apply in_app_or in H as [H|[H|[]]]; [tauto|].
      apply Hx. left. symmetry. exact H.
    + apply IH. intro H. apply Hx. right. exact H.
Qed.

Lemma NoDup_map_set_absent k v m :
  map_has k m = false -> NoDup (map_keys m) -> NoDup (map_keys (map_set k v m)).
Proof.
  intros Habs Hnd. rewrite (map_set_absent k v m Habs).
  unfold map_keys. rewrite map_app. simpl.
  apply NoDup_snoc; [exact Hnd|]. apply map_has_false_keys. exact Habs.
Qed.

Lemma Forall_map_delete (P : ItemId * V -> Prop) k m :
  Forall P m -> Forall P (map_delete k m).
Proof.
  intro H. apply Forall_forall. intros x Hin.
  apply filter_In in Hin as [Hin _].
  apply (proj1 (Forall_forall P m) H x Hin).
Qed.

Lemma Forall_map_set_absent (P : ItemId * V -> Prop) k v m :
  map_has k m = false -> Forall P m -> P (k, v) -> Forall P (map_set k v m).
Proof.
  intros Habs H Hkv. rewrite (map_set_absent k v m Habs).
  apply Forall_app. split; [exact H|]. constructor; [exact Hkv|constructor].
Qed.

End JsMapInvariants.

Lemma basketOk_delete owner k m : basketOk owner m -> basketOk owner (map_delete k m).
Proof.
  intros [Hnd Hall]. split; [apply NoDup_map_delete|apply Forall_map_delete]; assumption.
Qed.

Lemma basketOk_set owner k q m doc :
  map_has k m = false ->
  getItem owner k = Some doc ->
  1 <= q <= Z.max 1 (quantity (data doc) ?? 1) ->
  basketOk owner m -> basketOk owner (map_set k (mkEntry k q) m).
Proof.
  intros Habs Hdoc Hq [Hnd Hall]. split.
  - apply NoDup_map_set_absent; assumption.
  - apply Forall_map_set_absent; [assumption|assumption|].
    split; [reflexivity|]. exists doc. auto.
Qed.

Lemma canonical_noCurrency : canonical noCurrency.
Proof. intro d. exists 0. destruct d; simpl; split; (reflexivity || lia). Qed.

Lemma prop_setProp_same c d v : prop (setProp c d v) d = Some v.
Proof. destruct d; reflexivity. Qed.

Lemma prop_setProp_other c d d' v : d' <> d -> prop (setProp c d v) d' = prop c d'.
Proof. destruct d, d'; intro H; try reflexivity; congruence. Qed.

Lemma Denomination_eq_dec (d d' : Denomination) : {d = d'} + {d <> d'}.
Proof. decide equality. Qed.

Lemma canonical_setProp c d v : canonical c -> 0 <= v -> canonical (setProp c d v).
Proof.
  intros Hc Hv d'. destruct (Denomination_eq_dec d' d) as [->|N].
  - exists v. rewrite prop_setProp_same. auto.
  - rewrite (prop_setProp_other _ _ _ _ N). apply Hc.
Qed.

Lemma tradeOk_setTradeItems game this p m :
  tradeOk game this -> basketOk (actorOf game p) m ->
  tradeOk game (setTradeItems this p m).
Proof.
  intros (Hp & Hs & Hcp & Hcs) Hm. destruct p; simpl in Hm; repeat split; simpl;
    try apply Hm; try apply Hp; try apply Hs; assumption.
Qed.

Lemma tradeOk_basket game this p :
  tradeOk game this -> basketOk (actorOf game p) (tradeItemsOf this p).
Proof. intros (Hp & Hs & _). destruct p; assumption. Qed.

Lemma tradeOk_click game this source itemId dialog :
  tradeOk game this -> tradeOk game (onInventoryItemClick source itemId dialog this game).
Proof.
  intro Hok. unfold onInventoryItemClick.
  destruct (getItem (actorOf game source) itemId) as [doc|] eqn:Hdoc; [|exact Hok].
  pose proof (tradeOk_basket game this source Hok) as Hb.
  destruct (map_has itemId (tradeItemsOf this source)) eqn:Hhas.
  - apply tradeOk_setTradeItems; [exact Hok|]. apply basketOk_delete. exact Hb.
  - destruct (1 <? quantity (data doc) ?? 1) eqn:Hmax.
    + destruct (promptQuantity (quantity (data doc) ?? 1) dialog) as [q|] eqn:Hq;
        [|exact Hok].
      destruct (q <=? 0); [exact Hok|].
      apply Z.ltb_lt in Hmax.
      pose proof (promptQuantity_positive _ _ _ Hmax Hq).
      apply tradeOk_setTradeItems; [exact Hok|].
      apply (basketOk_set _ _ _ _ doc); try assumption. lia.
    + apply tradeOk_setTradeItems; [exact Hok|].
      apply (basketOk_set _ _ _ _ doc); try assumption. lia.
Qed.

Lemma tradeOk_drop game this tradeType payload :
  tradeOk game this -> tradeOk game (onDrop tradeType payload this game).
Proof.
  intro Hok. unfold onDrop. destruct payload as [[itemId source]|]; [|exact Hok].
  destruct (String.eqb tradeType "player-items" && String.eqb source "player").
  - destruct (getItem (playerActor game) itemId) as [doc|] eqn:Hdoc; [|exact Hok].
    destruct (map_has itemId (playerTradeItems this)) eqn:Hhas; [exact Hok|]. simpl.
    apply (tradeOk_setTradeItems game this Player); [exact Hok|].
    apply (basketOk_set _ _ _ _ doc); try assumption; [lia|].
    apply (tradeOk_basket game this Player Hok).
  - destruct (String.eqb tradeType "shop-items" && String.eqb source "shop");
      [|exact Hok].
    destruct (getItem (shopActor game) itemId) as [doc|] eqn:Hdoc; [|exact Hok].
    destruct (map_has itemId (shopTradeItems this)) eqn:Hhas; [exact Hok|]. simpl.
    apply (tradeOk_setTradeItems game this Shop); [exact Hok|].
    apply (basketOk_set _ _ _ _ doc); try assumption; [lia|].
    apply (tradeOk_basket game this Shop Hok).
Qed.

Lemma tradeOk_newTrade game : tradeOk game newTrade.
Proof.
  repeat split; try constructor; apply canonical_noCurrency.
Qed.

Lemma tradeOk_handle game this ev : tradeOk game this -> tradeOk game (handle game this ev).
Proof.
  intro Hok. destruct ev as [source itemId dialog|tradeType payload|itemId|itemId
                            |side type parsed|]; simpl.
  - apply tradeOk_click. exact Hok.
  - apply tradeOk_drop. exact Hok.
  - apply (tradeOk_setTradeItems game this Player); [exact Hok|].
    apply basketOk_delete. apply (tradeOk_basket game this Player Hok).
  - apply (tradeOk_setTradeItems game this Shop); [exact Hok|].
    apply basketOk_delete. apply (tradeOk_basket game this Shop Hok).
  - destruct Hok as (Hp & Hs & Hcp & Hcs). unfold onCurrencyChange.
    destruct side; repeat split; simpl; try apply Hp; try apply Hs; try assumption;
      apply canonical_setProp; try assumption; lia.
  - apply tradeOk_newTrade.
Qed.

Lemma tradeOk_events game events this :
  tradeOk game this -> tradeOk game (fold_left (handle game) events this).
Proof.
  revert this. induction events as [|ev r IH]; intros this Hok; simpl; [exact Hok|].
  apply IH. apply tradeOk_handle. exact Hok.
Qed.

(** X1: whatever the user does in a freshly opened window (clicks, drops,
    removals, currency inputs, clearing), as long as the inventories do not
    change, every basket keeps one entry per item, keyed by the item's id,
    for an item its owner holds, with a quantity between 1 and the quantity
    held (1 for an item holding less); and every offered currency count is
    present and not negative. *)
Theorem trade_state_invariant (game : Game) (events : list UiEvent) :
  tradeOk game (fold_left (handle game) events newTrade).
Proof.
  apply tradeOk_events.
  repeat split; try constructor; apply canonical_noCurrency.
Qed.
Lemma basketOk_offersResolve owner m : basketOk owner m -> offersResolve owner m.
Proof.
  intros [Hnd Hall]. unfold offersResolve, map_values.
  assert (Hkeys : map entry_item (map snd m) = map_keys m).
  { unfold map_keys. rewrite map_map. apply map_ext_in. intros kv Hin.
    apply (proj1 (Forall_forall _ _) Hall kv Hin). }
  split.
  - rewrite Hkeys. exact Hnd.
  - apply Forall_forall. intros e Hin. apply in_map_iff in Hin as (kv & <- & Hin).
    destruct (proj1 (Forall_forall _ _) Hall kv Hin) as (Hk & doc & Hdoc & _).
    rewrite Hk, Hdoc. discriminate.
Qed.

(** X2: in every state the user can reach from a freshly opened window
    while the inventories do not change, the offered documents of both
    baskets are distinct and still in their owner's inventory, which is
    what a commit needs to find them. *)
Theorem reachable_offers_resolve (game : Game) (events : list UiEvent) :
  let this := fold_left (handle game) events newTrade in
  offersResolve (playerActor game) (playerTradeItems this) /\
  offersResolve (shopActor game) (shopTradeItems this).
Proof.
  intro this.
  destruct (tradeOk_events game events newTrade (tradeOk_newTrade game))
    as (Hp & Hs & _).
  split; apply basketOk_offersResolve; assumption.
Qed.

(** ** Drops and removals *)

Lemma map_get_set_absent_keeps {V : Type} k k' (v e : V) (m : JsMap V) :
  map_has k m = false -> map_get k' m = Some e -> map_get k' (map_set k v m) = Some e.
Proof.
  intros Habs Hget. destruct (Nat.eq_dec k' k) as [->|N].
  - unfold map_has in Habs. rewrite Hget in Habs. discriminate.
  - rewrite map_get_set_other by exact N. exact Hget.
Qed.

(** X3: a drop never withdraws or changes an entry that is already offered,
    on either side: the entry found under a key before the drop is found
    unchanged after it (in particular, dropping an offered item again does
    not reset its quantity to 1). *)
Theorem onDrop_keeps_entries
    (tradeType : string) (payload : option (ItemId * string))
    (this : ShopApplication) (game : Game) (p : Party) (k : ItemId) (e : TradeEntry) :
  map_get k (tradeItemsOf this p) = Some e ->
  map_get k (tradeItemsOf (onDrop tradeType payload this game) p) = Some e.
Proof.
  intro Hget. unfold onDrop. destruct payload as [[itemId source]|]; [|exact Hget].
  destruct (String.eqb tradeType "player-items" && String.eqb source "player").
  - destruct (getItem (playerActor game) itemId); [|exact Hget].
    destruct (map_has itemId (playerTradeItems this)) eqn:Hhas; [exact Hget|]. simpl.
    destruct p; simpl in *; [|exact Hget].
    apply map_get_set_absent_keeps; assumption.
  - destruct (String.eqb tradeType "shop-items" && String.eqb source "shop");
      [|exact Hget].
    destruct (getItem (shopActor game) itemId); [|exact Hget].
    destruct (map_has itemId (shopTradeItems this)) eqn:Hhas; [exact Hget|]. simpl.
    destruct p; simpl in *; [exact Hget|].
    apply map_get_set_absent_keeps; assumption.
Qed.

Lemma onDrop_keeps_entries_witness :
  map_get 7%nat
    (playerTradeItems
       (onDrop "player-items" (Some (7%nat, "player"%string))
          Examples.threeArrows Examples.arrowGame))
  = Some (mkEntry 7%nat 3).
Proof.
  apply (onDrop_keeps_entries "player-items" (Some (7%nat, "player"%string))
           Examples.threeArrows Examples.arrowGame Player 7%nat (mkEntry 7%nat 3)).
  reflexivity.
Defined.

Lemma onDrop_cases tradeType payload this game :
  onDrop tradeType payload this game = this
  \/ exists p itemId,
       map_has itemId (tradeItemsOf this p) = false /\
       getItem (actorOf game p) itemId <> None /\
       payload = Some (itemId, match p with Player => "player" | Shop => "shop" end)%string /\
       onDrop tradeType payload this game
       = setTradeItems this p (map_set itemId (mkEntry itemId 1) (tradeItemsOf this p)).
Proof.
  unfold onDrop. destruct payload as [[itemId source]|]; [|left; reflexivity].
  destruct (String.eqb tradeType "player-items" && String.eqb source "player") eqn:E1.
  - destruct (getItem (playerActor game) itemId) as [doc|] eqn:Hdoc; [|left; reflexivity].
    destruct (map_has itemId (playerTradeItems this)) eqn:Hhas; [left; reflexivity|].
    right. exists Player, itemId. simpl. rewrite Hdoc.
    apply andb_true_iff in E1 as [_ E1]. apply String.eqb_eq in E1. subst source.
    repeat split; auto. discriminate.
  - destruct (String.eqb tradeType "shop-items" && String.eqb source "shop") eqn:E2;
      [|left; reflexivity].
    destruct (getItem (shopActor game) itemId) as [doc|] eqn:Hdoc; [|left; reflexivity].
    destruct (map_has itemId (shopTradeItems this)) eqn:Hhas; [left; reflexivity|].
    right. exists Shop, itemId. simpl. rewrite Hdoc.
    apply andb_true_iff in E2 as [_ E2]. apply String.eqb_eq in E2. subst source.
    repeat split; auto. discriminate.
Qed.

(** X4: dropping the same item on the same list twice is the same as
    dropping it once. *)
Theorem onDrop_idempotent
    (tradeType : string) (payload : option (ItemId * string))
    (this : ShopApplication) (game : Game) :
  onDrop tradeType payload (onDrop tradeType payload this game) game
  = onDrop tradeType payload this game.
Proof.
  destruct (onDrop_cases tradeType payload this game)
    as [Hsame|(p & itemId & Habs & Hres & Hpay & Hadd)].
  - rewrite Hsame. exact Hsame.
  - rewrite Hadd.
    destruct (onDrop_cases tradeType payload
                (setTradeItems this p
                   (map_set itemId (mkEntry itemId 1) (tradeItemsOf this p))) game)
      as [Hsame|(p' & itemId' & Habs' & _ & Hpay' & _)]; [exact Hsame|].
    exfalso. rewrite Hpay in Hpay'. injection Hpay' as Hid Hsrc.
    assert (p' = p) by (destruct p, p'; try reflexivity; discriminate).
    subst p' itemId'.
    rewrite tradeItemsOf_setTradeItems, map_has_set in Habs'. discriminate.
Qed.

(** X5: an item that was not offered and is dropped onto a trade list is
    withdrawn again, leaving exactly the previous trade state, by the
    remove button of its side and also by a click on it in the
    inventory. *)
Theorem drop_then_withdraw
    (tradeType : string) (itemId : ItemId) (source : string) (dialog : DialogResult)
    (this : ShopApplication) (game : Game) :
  let dropped := onDrop tradeType (Some (itemId, source)) this game in
  dropped <> this ->
  (source = "player"%string /\
   onRemovePlayerItem itemId dropped = this /\
   onInventoryItemClick Player itemId dialog dropped game = this)
  \/
  (source = "shop"%string /\
   onRemoveShopItem itemId dropped = this /\
   onInventoryItemClick Shop itemId dialog dropped game = this).
Proof.
  intros dropped Hchanged.
  destruct (onDrop_cases tradeType (Some (itemId, source)) this game)
    as [Hsame|(p & k & Habs & Hres & Hpay & Hadd)]; [contradiction|].
  injection Hpay as -> ->. fold dropped in Hadd.
  assert (Hback : setTradeItems dropped p
                    (map_delete k (tradeItemsOf dropped p)) = this).
  { rewrite Hadd, tradeItemsOf_setTradeItems, setTradeItems_twice.
    rewrite map_delete_set_absent by exact Habs. apply setTradeItems_same. }
  assert (Hclick : onInventoryItemClick p k dialog dropped game = this).
  { destruct (getItem (actorOf game p) k) as [doc|] eqn:Hdoc;
      [|exfalso; apply Hres; reflexivity].
    rewrite (click_offered _ _ _ _ _ doc Hdoc); [exact Hback|].
    rewrite Hadd, tradeItemsOf_setTradeItems. apply map_has_set. }
  destruct p; [left|right]; (split; [reflexivity|split; [exact Hback|exact Hclick]]).
Qed.

Lemma drop_then_withdraw_witness :
  onRemovePlayerItem 7%nat
    (onDrop "player-items" (Some (7%nat, "player"%string)) newTrade Examples.arrowGame)
  = newTrade.
Proof.
  destruct (drop_then_withdraw "player-items" 7%nat "player" DialogCancel
              newTrade Examples.arrowGame) as [(_ & H & _)|(E & _)].
  - vm_compute. discriminate.
  - exact H.
  - discriminate E.
Defined.

Lemma map_delete_absent {V : Type} k (m : JsMap V) :
  map_has k m = false -> map_delete k m = m.
Proof.
  unfold map_delete. induction m as [|[k' v'] r IH]; intro H; simpl; [reflexivity|].
  rewrite map_has_cons in H. apply orb_false_iff in H as [Hk Hr].
  rewrite Hk. simpl. f_equal. apply IH. exact Hr.
Qed.

(** X6: the remove button of the player's list leaves the whole trade
    state as it is when the item is not offered; in general the item is no
    longer offered afterwards, every other entry is found as before, and
    the shop's basket and both currencies are untouched. *)
Theorem onRemovePlayerItem_lookup (itemId k : ItemId) (this : ShopApplication) :
  (map_has itemId (playerTradeItems this) = false ->
   onRemovePlayerItem itemId this = this)
  /\ map_get k (playerTradeItems (onRemovePlayerItem itemId this))
     = (if Nat.eqb k itemId then None else map_get k (playerTradeItems this))
  /\ shopTradeItems (onRemovePlayerItem itemId this) = shopTradeItems this
  /\ playerTradeCurrency (onRemovePlayerItem itemId this) = playerTradeCurrency this
  /\ shopTradeCurrency (onRemovePlayerItem itemId this) = shopTradeCurrency this.
Proof.
  split; [|split; [|repeat split]].
  - intro Habs. unfold onRemovePlayerItem.
    rewrite (map_delete_absent _ _ Habs). apply (setTradeItems_same this Player).
  - unfold onRemovePlayerItem. simpl.
    destruct (Nat.eqb_spec k itemId) as [->|N].
    + apply map_get_delete_same.
    + apply map_get_delete_other. exact N.
Qed.

Lemma onRemovePlayerItem_lookup_witness :
  onRemovePlayerItem 9%nat Examples.threeArrows = Examples.threeArrows.
Proof.
  apply (proj1 (onRemovePlayerItem_lookup 9%nat 0%nat Examples.threeArrows)).
  reflexivity.
Defined.
(** ** When a trade can be confirmed *)

Lemma canonical_count c d : canonical c -> 0 <= prop c d ?? 0.
Proof. intro H. destruct (H d) as (n & -> & Hn). exact Hn. Qed.

(** The gold total is the hundredth of the value in copper pieces. *)
Lemma calculateTotalGold_coppers c :
  (calculateTotalGold c == inject_Z (coppers c) * 0.01)%Q.
Proof.
  unfold calculateTotalGold, coppers, orZero. cbn [prop].
  rewrite !inject_Z_plus, !inject_Z_mult. ring.
Qed.

Lemma hundredth_pos n : (0 < inject_Z n * 0.01)%Q <-> 0 < n.
Proof.
  split; intro H.
  - destruct (Z_lt_le_dec 0 n) as [Hn|Hn]; [exact Hn|exfalso].
    apply (Qlt_not_le _ _ H).
    setoid_replace 0%Q with (0 * 0.01)%Q by ring.
    apply Qmult_le_compat_r; [|discriminate].
    change 0%Q with (inject_Z 0). rewrite <- Zle_Qle. exact Hn.
  - setoid_replace 0%Q with (0 * 0.01)%Q by ring.
    apply Qmult_lt_compat_r; [reflexivity|].
    change 0%Q with (inject_Z 0). rewrite <- Zlt_Qlt. exact H.
Qed.

(** X7: for a bundle whose five counts are present and not negative, the
    gold total is never negative, and it is positive exactly when some
    count is positive: this is when the currency alone counts as an offer
    for the confirm predicate. *)
Theorem calculateTotalGold_positive (c : Currency) :
  canonical c ->
  (0 <= calculateTotalGold c)%Q /\
  ((0 < calculateTotalGold c)%Q <-> exists d, 0 < prop c d ?? 0).
Proof.
  intro Hc.
  pose proof (canonical_count c pp Hc) as Hpp.
  pose proof (canonical_count c gp Hc) as Hgp.
  pose proof (canonical_count c ep Hc) as Hep.
  pose proof (canonical_count c sp Hc) as Hsp.
  pose proof (canonical_count c cp Hc) as Hcp.
  rewrite calculateTotalGold_coppers.
  split.
  - setoid_replace 0%Q with (0 * 0.01)%Q by ring.
    apply Qmult_le_compat_r; [|discriminate].
    change 0%Q with (inject_Z 0). rewrite <- Zle_Qle. unfold coppers. lia.
  - rewrite hundredth_pos. unfold coppers. split.
    + intro H.
      destruct (Z_lt_le_dec 0 (prop c pp ?? 0)); [exists pp; assumption|].
      destruct (Z_lt_le_dec 0 (prop c gp ?? 0)); [exists gp; assumption|].
      destruct (Z_lt_le_dec 0 (prop c ep ?? 0)); [exists ep; assumption|].
      destruct (Z_lt_le_dec 0 (prop c sp ?? 0)); [exists sp; assumption|].
      exists cp. lia.
    + intros [d Hd]. destruct d; lia.
Qed.

Lemma calculateTotalGold_positive_witness :
  (0 < calculateTotalGold (bundle 0 0 0 0 3))%Q.
Proof.
  assert (Hc : canonical (bundle 0 0 0 0 3)).
  { intro d. destruct d; simpl; eexists; (split; [reflexivity|lia]). }
  apply (proj2 (calculateTotalGold_positive (bundle 0 0 0 0 3) Hc)).
  exists cp. simpl. lia.
Defined.

Lemma map_size_positive {V : Type} (m : JsMap V) : (0 <? map_size m) = true <-> m <> [].
Proof.
  unfold map_size. destruct m; simpl.
  - split; [discriminate|congruence].
  - split; [discriminate|]. intros _. apply Z.ltb_lt. lia.
Qed.

Lemma exceeds_false offered heldCount :
  exceeds offered heldCount = false <-> forall n, offered = Some n -> n <= heldCount.
Proof.
  destruct offered as [m|]; simpl.
  - rewrite Z.ltb_ge. split.
    + intros H n E. injection E as <-. exact H.
    + intro H. apply H. reflexivity.
  - split; [discriminate|reflexivity].
Qed.

(** X8: the confirm predicate holds exactly when (1) something is offered:
    an item on either side, or currency of positive total on either side;
    (2) unless negative gold is allowed, no denomination is offered above
    what that side holds of it; and (3) the balance the code computes is
    not positive. *)
Theorem canConfirmTrade_iff
    (this : ShopApplication) (game : Game) (playerCurrency shopCurrency : Currency) :
  canConfirmTrade this game playerCurrency shopCurrency = true <->
  (playerTradeItems this <> [] \/ (0 < calculateTotalGold (playerTradeCurrency this))%Q
   \/ shopTradeItems this <> [] \/ (0 < calculateTotalGold (shopTradeCurrency this))%Q)
  /\ (allowNegativeGold game = true \/
      forall d n,
        (prop (playerTradeCurrency this) d = Some n -> n <= prop playerCurrency d ?? 0) /\
        (prop (shopTradeCurrency this) d = Some n -> n <= prop shopCurrency d ?? 0))
  /\ (calculateTradeBalance this game <= 0)%Q.
Proof.
  unfold canConfirmTrade.
  set (hasP := (0 <? map_size (playerTradeItems this))
               || Js.Qgtb (calculateTotalGold (playerTradeCurrency this)) 0).
  set (hasS := (0 <? map_size (shopTradeItems this))
               || Js.Qgtb (calculateTotalGold (shopTradeCurrency this)) 0).
  set (over := existsb _ denominations).
  assert (HhasP : hasP = true <->
            playerTradeItems this <> []
            \/ (0 < calculateTotalGold (playerTradeCurrency this))%Q).
  { unfold hasP. rewrite orb_true_iff, map_size_positive, Qgtb_true. tauto. }
  assert (HhasS : hasS = true <->
            shopTradeItems this <> []
            \/ (0 < calculateTotalGold (shopTradeCurrency this))%Q).
  { unfold hasS. rewrite orb_true_iff, map_size_positive, Qgtb_true. tauto. }
  assert (Hover : over = false <->
            forall d n,
              (prop (playerTradeCurrency this) d = Some n -> n <= prop playerCurrency d ?? 0) /\
              (prop (shopTradeCurrency this) d = Some n -> n <= prop shopCurrency d ?? 0)).
  { unfold over. split.
    - intros H d n.
      destruct (exceeds (prop (playerTradeCurrency this) d) (prop playerCurrency d ?? 0)
                || exceeds (prop (shopTradeCurrency this) d) (prop shopCurrency d ?? 0))
        eqn:E.
      + exfalso.
        assert (Ht : existsb
                  (fun type =>
                     exceeds (prop (playerTradeCurrency this) type)
                       (prop playerCurrency type ?? 0)
                     || exceeds (prop (shopTradeCurrency this) type)
                          (prop shopCurrency type ?? 0)) denominations = true).
        { apply existsb_exists. exists d. split; [apply denominations_complete|exact E]. }
        congruence.
      + apply orb_false_iff in E as [E1 E2].
        split; intro Hn; [apply (proj1 (exceeds_false _ _) E1 n Hn)
                         |apply (proj1 (exceeds_false _ _) E2 n Hn)].
    - intro H. destruct (existsb _ denominations) eqn:E; [|reflexivity].
      apply existsb_exists in E as (d & _ & E). apply orb_true_iff in E as [E|E];
        apply exceeds_true in E as (n & En & Hlt);
        destruct (H d n) as [H1 H2]; [specialize (H1 En)|specialize (H2 En)]; lia. }
  set (positive := Js.Qgtb (calculateTradeBalance this game) 0).
  assert (Hbool :
    (if negb hasP && negb hasS then false
     else if negb (allowNegativeGold game) && over then false
     else if positive then false else true) = true
    <-> (hasP || hasS = true) /\ (allowNegativeGold game || negb over = true)
        /\ positive = false).
  { destruct hasP, hasS, (allowNegativeGold game), over, positive; simpl;
      intuition congruence. }
  rewrite Hbool. unfold positive.
  rewrite !orb_true_iff, HhasP, HhasS, negb_true_iff, Hover, Qgtb_false.
  tauto.
Qed.
(** X9: when the window shows the balance as positive, the trade cannot be
    confirmed, whatever the two parties hold. *)
Theorem positive_class_blocks_confirm
    (this : ShopApplication) (game : Game) (playerCurrency shopCurrency : Currency) :
  tradeBalanceClass this game = "positive"%string ->
  canConfirmTrade this game playerCurrency shopCurrency = false.
Proof.
  unfold tradeBalanceClass. intro H.
  destruct (Js.Qgtb (calculateTradeBalance this game) 0) eqn:B.
  - apply canConfirmTrade_positive_balance. apply Qgtb_true. exact B.
  - destruct (Js.Qgtb 0 (calculateTradeBalance this game)); discriminate H.
Qed.

Lemma positive_class_blocks_confirm_witness :
  canConfirmTrade Examples.swordOffer Examples.swordGame noCurrency noCurrency = false.
Proof.
  apply (positive_class_blocks_confirm Examples.swordOffer Examples.swordGame).
  reflexivity.
Defined.

(** ** What a failed commit leaves behind *)

Lemma executeTrade_failed_at_player rejects this game :
  rejects (UpdateCurrency Player
             (settle (prepareCurrency (playerActor game))
                     (playerTradeCurrency this) (shopTradeCurrency this))) game = true ->
  executeTrade rejects this game
  = (Failed, this,
     appendJournal
       (UpdateCurrency Player
          (settle (prepareCurrency (playerActor game))
                  (playerTradeCurrency this) (shopTradeCurrency this))) game).
Proof.
  intro H. unfold executeTrade. rewrite executeTradeBody_unfold. cbv zeta.
  unfold issue at 1. rewrite H. reflexivity.
Qed.

(** X10: a commit whose first operation, the player's currency update, is
    rejected reports failure and changes neither actor nor the baskets.
    A commit whose player update is accepted and whose shop update is
    rejected also reports failure and keeps the baskets, but the player's
    currency has already been replaced by held - offered + received while
    the shop's is unchanged: nothing is rolled back. In both cases no item
    is touched. *)
Theorem executeTrade_rejected_currency_update
    (rejects : HostOp -> Game -> bool) (this : ShopApplication) (game : Game) :
  let newPlayerCurrency :=
    settle (prepareCurrency (playerActor game))
           (playerTradeCurrency this) (shopTradeCurrency this) in
  let newShopCurrency :=
    settle (prepareCurrency (shopActor game))
           (shopTradeCurrency this) (playerTradeCurrency this) in
  let result := executeTrade rejects this game in
  (rejects (UpdateCurrency Player newPlayerCurrency) game = true ->
   fst result = (Failed, this) /\
   playerActor (snd result) = playerActor game /\
   shopActor (snd result) = shopActor game)
  /\
  (rejects (UpdateCurrency Player newPlayerCurrency) game = false ->
   (forall g, rejects (UpdateCurrency Shop newShopCurrency) g = true) ->
   fst result = (Failed, this) /\
   currency (playerActor (snd result)) = Some newPlayerCurrency /\
   items (playerActor (snd result)) = items (playerActor game) /\
   shopActor (snd result) = shopActor game).
Proof.
  intros newP newS result. split.
  - intro H. subst result. rewrite (executeTrade_failed_at_player _ _ _ H).
    repeat split.
  - intros H1 H2.
    assert (E : result
                = (Failed, this,
                   appendJournal (UpdateCurrency Shop newS)
                     (setActor (appendJournal (UpdateCurrency Player newP) game) Player
                        (mkActor (Some newP) (items (playerActor game)))))).
    { subst result. unfold executeTrade. rewrite executeTradeBody_unfold. cbv zeta.
      fold newP newS. unfold issue at 1. rewrite H1. simpl perform.
      cbv iota beta. unfold issue at 1. rewrite H2. reflexivity. }
    rewrite E. repeat split.
Qed.

Lemma executeTrade_rejected_currency_update_witness :
  fst (executeTrade (fun op _ => match op with
                                 | UpdateCurrency Shop _ => true
                                 | _ => false
                                 end)
         Examples.marketOffer Examples.marketGame)
  = (Failed, Examples.marketOffer)
  /\ fst (executeTrade (fun _ _ => true) Examples.marketOffer Examples.marketGame)
     = (Failed, Examples.marketOffer).
Proof.
  split.
  - apply (proj2 (executeTrade_rejected_currency_update
                    (fun op _ => match op with
                                 | UpdateCurrency Shop _ => true
                                 | _ => false
                                 end)
                    Examples.marketOffer Examples.marketGame)).
    + reflexivity.
    + reflexivity.
  - apply (proj1 (executeTrade_rejected_currency_update
                    (fun _ _ => true) Examples.marketOffer Examples.marketGame)).
    reflexivity.
Defined.

(** X11: on a host that accepts currency updates, however the commit ends
    (also when an item operation is rejected later and failure is
    reported), both parties' currencies have been replaced by
    held - offered + received: the payment stays applied. *)
Theorem executeTrade_payment_stays
    (rejects : HostOp -> Game -> bool) (this : ShopApplication) (game : Game) (p : Party) :
  (forall who value g, rejects (UpdateCurrency who value) g = false) ->
  currency (actorOf (snd (executeTrade rejects this game)) p)
  = Some (settle (prepareCurrency (actorOf game p))
                 (tradeCurrencyOf this p) (tradeCurrencyOf this (other p))).
Proof.
  intro Hacc.
  assert (Hsnd : snd (executeTrade rejects this game)
                 = snd (executeTradeBody rejects this game)).
  { unfold executeTrade.
    destruct (executeTradeBody rejects this game) as [[[]|] g]; reflexivity. }
  rewrite Hsnd, executeTradeBody_unfold. cbv zeta.
  unfold issue at 1. rewrite Hacc. simpl perform. cbv iota beta.
  unfold issue at 1. rewrite Hacc. simpl perform. cbv iota beta.
  match goal with
  | |- context [transferAll rejects Shop Player ?l ?g] =>
      pose proof (transferAll_sameCurrency rejects Shop Player l g) as H3;
      destruct (transferAll rejects Shop Player l g) as [[[]|] game3]; simpl in H3
  end.
  - match goal with
    | |- context [transferAll rejects Player Shop ?l ?g] =>
        pose proof (transferAll_sameCurrency rejects Player Shop l g) as H4
    end.
    rewrite H4, H3. destruct p; reflexivity.
  - simpl. rewrite H3. destruct p; reflexivity.
Qed.

Lemma executeTrade_payment_stays_witness :
  currency (playerActor
     (snd (executeTrade (fun op _ => match op with
                                     | DeleteItem _ _ => true
                                     | _ => false
                                     end)
             Examples.marketOffer Examples.marketGame)))
  = Some (bundle 0 15 0 0 0).
Proof.
  apply (executeTrade_payment_stays
           (fun op _ => match op with DeleteItem _ _ => true | _ => false end)
           Examples.marketOffer Examples.marketGame Player).
  reflexivity.
Defined.
(** ** How many things a transfer moves *)

Lemma sumQuantities_app l x : sumQuantities (l ++ [x]) = sumQuantities l + quantityOf x.
Proof. induction l as [|y r IH]; simpl; [lia|]. rewrite IH. lia. Qed.

Lemma hasId_absent k (l : list Item) :
  ~ In k (map _id l) -> forall i, In i l -> hasId k i = false.
Proof.
  intros H i Hin. unfold hasId. apply Nat.eqb_neq. intro E.
  apply H. rewrite <- E. apply in_map. exact Hin.
Qed.

Lemma map_update_absent k (u : Item -> Item) (l : list Item) :
  ~ In k (map _id l) -> map (fun i => if hasId k i then u i else i) l = l.
Proof.
  intro H. rewrite <- (map_id l) at 2. apply map_ext_in. intros i Hin.
  rewrite (hasId_absent k l H i Hin). reflexivity.
Qed.

Lemma filter_delete_absent k (l : list Item) :
  ~ In k (map _id l) -> filter (fun i => negb (hasId k i)) l = l.
Proof.
  intro H. induction l as [|x r IH]; simpl; [reflexivity|].
  rewrite (hasId_absent k (x :: r) H x (or_introl eq_refl)). simpl.
  f_equal. apply IH. intro Hin. apply H. right. exact Hin.
Qed.

Lemma distinct_head_cases (l : list Item) x d :
  NoDup (map _id (x :: l)) -> In d (x :: l) ->
  (d = x /\ ~ In (_id d) (map _id l)) \/ (hasId (_id d) x = false /\ In d l).
Proof.
  intros Hnd Hin. inversion Hnd as [|? ? Hx Hnd']; subst.
  destruct Hin as [->|Hin]; [left; auto|].
  right. split; [|exact Hin]. unfold hasId. apply Nat.eqb_neq. intro E.
  apply Hx. rewrite E. apply in_map. exact Hin.
Qed.

Lemma sumQuantities_update (l : list Item) d v :
  NoDup (map _id l) -> In d l ->
  sumQuantities
    (map (fun i => if hasId (_id d) i then mkItem (_id i) (withQuantity v (data i)) else i) l)
  = sumQuantities l - quantityOf d + v.
Proof.
  induction l as [|x r IH]; intros Hnd Hin; [contradiction|].
  destruct (distinct_head_cases r x d Hnd Hin) as [[-> Habs]|[Hx Hr]].
  - simpl. unfold hasId at 1. rewrite Nat.eqb_refl.
    rewrite (map_update_absent _ _ r Habs). unfold quantityOf at 1. simpl. lia.
  - simpl. rewrite Hx. simpl. rewrite IH; [lia| |exact Hr].
    inversion Hnd; assumption.
Qed.

Lemma sumQuantities_delete (l : list Item) d :
  NoDup (map _id l) -> In d l ->
  sumQuantities (filter (fun i => negb (hasId (_id d) i)) l)
  = sumQuantities l - quantityOf d.
Proof.
  induction l as [|x r IH]; intros Hnd Hin; [contradiction|].
  destruct (distinct_head_cases r x d Hnd Hin) as [[-> Habs]|[Hx Hr]].
  - simpl. unfold hasId at 1. rewrite Nat.eqb_refl. simpl.
    rewrite (filter_delete_absent _ r Habs). lia.
  - simpl. rewrite Hx. simpl. rewrite IH; [lia| |exact Hr].
    inversion Hnd; assumption.
Qed.

(** X12: a transfer that completes, between actors whose documents have
    distinct ids, adds exactly the transferred quantity [q] to what the
    receiver holds and takes [min n q] from the giver, [n] being the
    quantity of the source document. The number of things is conserved
    when [q <= n]; a transfer of more than the source holds creates
    [q - n] things. *)
Theorem transferItem_quantities
    (rejects : HostOp -> Game -> bool) (item : ItemId) (fromActor : Party)
    (q : Z) (game game' : Game) (doc : Item) :
  distinctIds (actorOf game fromActor) ->
  distinctIds (actorOf game (other fromActor)) ->
  getItem (actorOf game fromActor) item = Some doc ->
  transferItem rejects item fromActor (other fromActor) q game = (Normal tt, game') ->
  totalQuantity (actorOf game' (other fromActor))
  = totalQuantity (actorOf game (other fromActor)) + q
  /\ totalQuantity (actorOf game' fromActor)
     = totalQuantity (actorOf game fromActor) - Z.min (quantityOf doc) q.
Proof.
  intros HndF HndT Hdoc Hrun.
  destruct (transferItem_normal _ _ _ _ _ _ _ Hdoc Hrun) as (game1 & Hdest & Hsrc).
  pose proof (getItem_id _ _ _ Hdoc) as Hid.
  assert (Hin : In doc (items (actorOf game fromActor))).
  { unfold getItem in Hdoc. apply (find_some _ _ Hdoc). }
  destruct (perform_itemOp fromActor _ _ _ (sourceOp_itemOp doc fromActor q) Hsrc)
    as (Hto & _).
  rewrite actorOf_appendJournal in Hto.
  destruct (perform_itemOp (other fromActor) _ _ _
              (destinationOp_itemOp doc _ q game) Hdest) as (Hfrom1 & _).
  rewrite other_involutive, actorOf_appendJournal in Hfrom1.
  split.
  - rewrite Hto. clear Hsrc Hto. unfold destinationOp in Hdest.
    destruct (findExisting doc (actorOf game (other fromActor))) as [e|] eqn:E;
      simpl in Hdest.
    + rewrite actorOf_appendJournal in Hdest.
      destruct (getItem (actorOf game (other fromActor)) (_id e)); [|discriminate].
      injection Hdest as <-. rewrite actorOf_setActor_same.
      unfold totalQuantity. simpl.
      rewrite (sumQuantities_update _ e _ HndT (findExisting_In _ _ _ E)).
      unfold quantityOf. lia.
    + injection Hdest as <-. rewrite actorOf_appendJournal.
      unfold totalQuantity.
      destruct fromActor; simpl; rewrite sumQuantities_app;
        unfold quantityOf; simpl; reflexivity.
  - unfold sourceOp in Hsrc. fold (quantityOf doc) in Hsrc.
    destruct (quantityOf doc <=? q) eqn:Hle; simpl in Hsrc;
      rewrite actorOf_appendJournal, Hfrom1 in Hsrc;
      (destruct (getItem (actorOf game fromActor) (_id doc)); [|discriminate]);
      injection Hsrc as <-; rewrite actorOf_setActor_same;
      unfold totalQuantity; simpl.
    + apply Z.leb_le in Hle.
      rewrite (sumQuantities_delete _ doc HndF Hin). lia.
    + apply Z.leb_gt in Hle.
      rewrite (sumQuantities_update _ doc _ HndF Hin). lia.
Qed.

Lemma transferItem_quantities_witness :
  totalQuantity (shopActor (snd (transferItem reliable 7%nat Player Shop 9 Examples.arrowGame)))
  = 0 + 9
  /\ totalQuantity
       (playerActor (snd (transferItem reliable 7%nat Player Shop 9 Examples.arrowGame)))
     = 5 - Z.min 5 9.
Proof.
  apply (transferItem_quantities reliable 7%nat Player 9 Examples.arrowGame
           (snd (transferItem reliable 7%nat Player Shop 9 Examples.arrowGame))
           Examples.arrows).
  - unfold distinctIds. simpl. constructor; [simpl; tauto|constructor].
  - unfold distinctIds. simpl. constructor.
  - reflexivity.
  - reflexivity.
Defined.

(** ** The stacking target *)

Lemma find_first_match {A : Type} (f : A -> bool) (l : list A) :
  (exists x, In x l /\ f x = true) -> exists y, find f l = Some y.
Proof.
  intros (x & Hin & Hx). destruct (find f l) as [y|] eqn:E; [exists y; reflexivity|].
  pose proof (find_none _ _ E x Hin). congruence.
Qed.

Lemma strictEq_eq a b : strictEq a b = true <-> a = b.
Proof.
  destruct a as [x|], b as [y|]; simpl.
  - rewrite String.eqb_eq. split; congruence.
  - split; discriminate.
  - split; discriminate.
  - tauto.
Qed.

(** X13: the stacking target of a transfer. It is a document of the
    receiver that either carries the same non-empty source id as the
    transferred item or has the same name and type; a match by source id
    takes precedence over one by name and type; and there is no target
    exactly when no document of the receiver matches in either way. *)
Theorem findExisting_spec (item : Item) (toActor : Actor) :
  let bySource i :=
    truthy (sourceId (data item)) = true /\ sourceId (data i) = sourceId (data item) in
  let byName i :=
    name (data i) = name (data item) /\ type (data i) = type (data item) in
  (forall e, findExisting item toActor = Some e ->
     In e (items toActor) /\ (bySource e \/ byName e))
  /\ ((exists i, In i (items toActor) /\ bySource i) ->
      exists e, findExisting item toActor = Some e /\ bySource e)
  /\ (findExisting item toActor = None <->
      forall i, In i (items toActor) -> ~ bySource i /\ ~ byName i).
Proof.
  intros bySource byName.
  assert (HbyName : forall i,
            String.eqb (name (data i)) (name (data item))
            && String.eqb (type (data i)) (type (data item)) = true <-> byName i).
  { intro i. unfold byName. rewrite andb_true_iff, !String.eqb_eq. tauto. }
  unfold findExisting.
  set (fs := fun i : Item => strictEq (sourceId (data i)) (sourceId (data item))).
  set (fn := fun i : Item =>
               String.eqb (name (data i)) (name (data item))
               && String.eqb (type (data i)) (type (data item))).
  assert (Hname : (forall e, find fn (items toActor) = Some e ->
                     In e (items toActor) /\ byName e)
                  /\ (find fn (items toActor) = None <->
                      forall i, In i (items toActor) -> ~ byName i)).
  { split.
    - intros e E. apply find_some in E as [Hin Heq]. split; [exact Hin|].
      apply HbyName. exact Heq.
    - split.
      + intros E i Hin Hn. apply HbyName in Hn.
        pose proof (find_none _ _ E i Hin) as Hf. unfold fn in Hf. congruence.
      + intro H. destruct (find fn (items toActor)) as [e|] eqn:E; [|reflexivity].
        apply find_some in E as [Hin Heq]. apply HbyName in Heq.
        exfalso. apply (H e Hin Heq). }
  destruct Hname as [HnameSome HnameNone].
  destruct (truthy (sourceId (data item))) eqn:T.
  - destruct (find fs (items toActor)) as [e|] eqn:F.
    + apply find_some in F as [Hin Heq]. apply strictEq_eq in Heq.
      split; [|split].
      * intros e' E. injection E as <-. split; [exact Hin|]. left. split; auto.
      * intros _. exists e. split; [reflexivity|]. split; auto.
      * split; [discriminate|]. intro H. exfalso.
        apply (proj1 (H e Hin)). split; auto.
    + pose proof (find_none _ _ F) as Hnone.
      assert (HnoSource : forall i, In i (items toActor) -> ~ bySource i).
      { intros i Hin [_ Heq]. apply strictEq_eq in Heq.
        pose proof (Hnone i Hin) as Hf. unfold fs in Hf. congruence. }
      split; [|split].
      * intros e E. destruct (HnameSome e E) as [Hin Hn]. auto.
      * intros (i & Hin & Hi). exfalso. apply (HnoSource i Hin Hi).
      * rewrite HnameNone. split.
        -- intros H i Hin. split; [apply HnoSource; exact Hin|apply H; exact Hin].
        -- intros H i Hin. apply (proj2 (H i Hin)).
  - assert (HnoSource : forall i, ~ bySource i).
    { intros i [Ht _]. discriminate Ht. }
    split; [|split].
    + intros e E. destruct (HnameSome e E) as [Hin Hn]. auto.
    + intros (i & _ & Hi). exfalso. apply (HnoSource i Hi).
    + rewrite HnameNone. split.
      * intros H i Hin. split; [apply HnoSource|apply H; exact Hin].
      * intros H i Hin. apply (proj2 (H i Hin)).
Qed.

Lemma findExisting_spec_witness :
  exists e,
    findExisting Examples.potions (shopActor Examples.marketGame) = Some e /\
    sourceId (data e) = sourceId (data Examples.potions).
Proof.
  destruct (proj1 (proj2 (findExisting_spec Examples.potions
                            (shopActor Examples.marketGame)))) as (e & He & _ & Hs).
  - exists Examples.shopPotions. split; [simpl; tauto|]. split; reflexivity.
  - exists e. split; [exact He|exact Hs].
Defined.
(** ** The inventory listing *)

Section SortFacts.
Context {A : Type}.
Variable compareFn : A -> A -> Q.

Lemma insertSorted_perm x l : Permutation (insertSorted compareFn x l) (x :: l).
Proof.
  induction l as [|y r IH]; simpl; [reflexivity|].
  destruct (Js.Qgtb (compareFn x y) 0); [|reflexivity].
  rewrite IH. apply perm_swap.
Qed.

Lemma sortBy_perm l : Permutation (sortBy compareFn l) l.
Proof.
  induction l as [|x r IH]; simpl; [reflexivity|].
  rewrite insertSorted_perm. constructor. exact IH.
Qed.

(** An order the comparator decides. *)
Variable before : A -> A -> Prop.
Hypothesis before_trans : forall x y z, before x y -> before y z -> before x z.
Hypothesis compare_gt : forall x y, (0 < compareFn x y)%Q -> before y x.
Hypothesis compare_le : forall x y, (compareFn x y <= 0)%Q -> before x y.

Lemma insertSorted_sorted x l :
  StronglySorted before l -> StronglySorted before (insertSorted compareFn x l).
Proof.
  induction 1 as [|y r Hr IH Hy]; simpl.
  - constructor; constructor.
  - destruct (Js.Qgtb (compareFn x y) 0) eqn:E.
    + apply Qgtb_true in E. constructor; [exact IH|].
      assert (Hall : Forall (before y) (x :: r))
        by (constructor; [apply compare_gt; exact E|exact Hy]).
      apply Forall_forall. intros z Hz.
      apply (proj1 (Forall_forall _ _) Hall z).
      apply (Permutation_in _ (insertSorted_perm x r) Hz).
    + apply Qgtb_false in E. pose proof (compare_le _ _ E) as Hxy.
      constructor; [constructor; assumption|].
      constructor; [exact Hxy|].
      apply (Forall_impl (P := before y)); [|exact Hy].
      intros z Hz. apply (before_trans x y z); assumption.
Qed.

Lemma sortBy_sorted l : StronglySorted before (sortBy compareFn l).
Proof.
  induction l as [|x r IH]; simpl; [constructor|].
  apply insertSorted_sorted. exact IH.
Qed.

End SortFacts.

(** X14: whatever the sort method and the locale, the listing has exactly
    one row for every item of the actor that has a listed type and whose
    name matches the search text: it is a rearrangement of the rows of
    those items, none dropped and none repeated. *)
Theorem prepareInventory_rows
    (localeCompare : string -> string -> Z) (this : ShopApplication) (actor : Actor)
    (source : Party) (searchFilter sortMethod : string) :
  Permutation
    (prepareInventory localeCompare this actor source searchFilter sortMethod)
    (map (prepareRow (tradeItemsOf this source))
         (filter (listed searchFilter) (items actor)))
  /\ forall row,
       In row (prepareInventory localeCompare this actor source searchFilter sortMethod)
       <-> exists item,
             In item (items actor) /\ listed searchFilter item = true /\
             row = prepareRow (tradeItemsOf this source) item.
Proof.
  assert (Hperm : Permutation
            (prepareInventory localeCompare this actor source searchFilter sortMethod)
            (map (prepareRow (tradeItemsOf this source))
                 (filter (listed searchFilter) (items actor)))).
  { unfold prepareInventory. apply sortBy_perm. }
  split; [exact Hperm|].
  intro row. split.
  - intro Hin. apply (Permutation_in _ Hperm) in Hin.
    apply in_map_iff in Hin as (item & <- & Hin).
    apply filter_In in Hin as [Hin Hl]. exists item. auto.
  - intros (item & Hin & Hl & ->).
    apply (Permutation_in _ (Permutation_sym Hperm)).
    apply in_map. apply filter_In. auto.
Qed.

(** X15: sorted by 'price' the rows come with their gold price descending,
    by 'price-asc' ascending, and by 'quantity' with their quantity
    descending. *)
Theorem prepareInventory_sorted
    (localeCompare : string -> string -> Z) (this : ShopApplication) (actor : Actor)
    (source : Party) (searchFilter : string) :
  StronglySorted (fun a b => (row_priceInGp b <= row_priceInGp a)%Q)
    (prepareInventory localeCompare this actor source searchFilter "price")
  /\ StronglySorted (fun a b => (row_priceInGp a <= row_priceInGp b)%Q)
       (prepareInventory localeCompare this actor source searchFilter "price-asc")
  /\ StronglySorted (fun a b => row_quantity b <= row_quantity a)
       (prepareInventory localeCompare this actor source searchFilter "quantity").
Proof.
  unfold prepareInventory. split; [|split]; apply sortBy_sorted.
  - intros x y z Hxy Hyz. apply (Qle_trans _ (row_priceInGp y)); assumption.
  - intros x y H. unfold comparator in H. simpl in H.
    apply Qlt_le_weak. apply (proj1 (Qplus_lt_l _ _ (- row_priceInGp x))).
    setoid_replace (row_priceInGp x + - row_priceInGp x)%Q with 0%Q by ring.
    exact H.
  - intros x y H. unfold comparator in H. simpl in H.
    apply (proj1 (Qplus_le_l _ _ (- row_priceInGp x))).
    setoid_replace (row_priceInGp x + - row_priceInGp x)%Q with 0%Q by ring.
    exact H.
  - intros x y z Hxy Hyz. apply (Qle_trans _ (row_priceInGp y)); assumption.
  - intros x y H. unfold comparator in H. simpl in H.
    apply Qlt_le_weak. apply (proj1 (Qplus_lt_l _ _ (- row_priceInGp y))).
    setoid_replace (row_priceInGp y + - row_priceInGp y)%Q with 0%Q by ring.
    exact H.
  - intros x y H. unfold comparator in H. simpl in H.
    apply (proj1 (Qplus_le_l _ _ (- row_priceInGp y))).
    setoid_replace (row_priceInGp y + - row_priceInGp y)%Q with 0%Q by ring.
    exact H.
  - intros x y z Hxy Hyz. lia.
  - intros x y H. unfold comparator in H. simpl in H.
    change 0%Q with (inject_Z 0) in H. rewrite <- Zlt_Qlt in H. lia.
  - intros x y H. unfold comparator in H. simpl in H.
    change 0%Q with (inject_Z 0) in H. rewrite <- Zle_Qle in H. lia.
Qed.
(** * Quick buy and quick sell *)

Section QuickFacts.
Import Quick.

Lemma quick_traderOf_setTrader_same w p t : traderOf (setTrader w p t) p = t.
Proof. destruct p; reflexivity. Qed.

Lemma quick_traderOf_setTrader_other w p t :
  traderOf (setTrader w p t) (other p) = traderOf w (other p).
Proof. destruct p; reflexivity. Qed.

Lemma quick_traderOf_record op w p : traderOf (record op w) p = traderOf w p.
Proof. destruct p; reflexivity. Qed.

Lemma quick_log_setTrader w p t : log (setTrader w p t) = log w.
Proof. destruct p; reflexivity. Qed.

Lemma quick_log_setStock w h l : log (setStock w h l) = log w.
Proof. destruct h as [p|]; [apply quick_log_setTrader|reflexivity]. Qed.

Lemma quick_apply_log op w w' : apply op w = Some w' -> log w' = log w.
Proof.
  destruct op as [who value|owner itemData|holder id value|holder id]; simpl.
  - intro H. injection H as <-. apply quick_log_setTrader.
  - intro H. injection H as <-. destruct owner; reflexivity.
  - destruct (find (hasId id) (stockOf w holder)); [|discriminate].
    intro H. injection H as <-. apply quick_log_setStock.
  - destruct (find (hasId id) (stockOf w holder)); [|discriminate].
    intro H. injection H as <-. apply quick_log_setStock.
Qed.

Lemma quick_send_normal rejects op w w' :
  send rejects op w = (Normal tt, w') ->
  rejects op w = false /\ apply op (record op w) = Some w'.
Proof.
  unfold send. destruct (rejects op w); [discriminate|].
  destruct (apply op (record op w)); [|discriminate].
  intro H. injection H as <-. auto.
Qed.

Lemma quick_send_log rejects op w : log (snd (send rejects op w)) = log w ++ [op].
Proof.
  unfold send. destruct (rejects op w); [reflexivity|].
  destruct (apply op (record op w)) as [w'|] eqn:E; [|reflexivity].
  simpl. rewrite (quick_apply_log _ _ _ E). reflexivity.
Qed.

Lemma quick_send_SetGold rejects who value w :
  rejects (SetGold who value) w = false ->
  send rejects (SetGold who value) w
  = (Normal tt,
     setTrader (record (SetGold who value) w) who
       (mkTrader (Some value) (stock (traderOf w who)))).
Proof.
  intro H. unfold send. rewrite H. simpl. rewrite quick_traderOf_record. reflexivity.
Qed.

(** An argument that names a document resolves to it. *)
Lemma quick_names_resolve actor w item holder doc :
  names actor w item holder doc -> resolveItem actor item w = Document holder doc.
Proof.
  intros [(id & -> & H & ->)| ->]; simpl; [rewrite H|]; reflexivity.
Qed.

(** An argument either names a document or resolves to nothing. *)
Lemma quick_resolve_cases actor w item :
  ((item = NoItem \/ exists id, item = ById id /\ lookup (traderOf w actor) id = None)
   /\ resolveItem actor item w = NoItem)
  \/ exists holder doc, names actor w item holder doc.
Proof.
  destruct item as [|id|holder doc].
  - left. split; [left; reflexivity|reflexivity].
  - destruct (lookup (traderOf w actor) id) as [doc|] eqn:E.
    + right. exists (Held actor), doc. left. exists id. auto.
    + left. split; [right; exists id; auto|]. simpl. rewrite E. reflexivity.
  - right. exists holder, doc. right. reflexivity.
Qed.

(** The guards of [quickBuy]. *)
Lemma quickBuy_guards rejects item q w holder doc :
  names Shop w item holder doc ->
  let total := ((price (data doc) ?? 0) * inject_Z q)%Q in
  ((goldOf w Player < total)%Q -> quickBuy rejects item q w = (false, w)) /\
  (quantityOf doc < q -> quickBuy rejects item q w = (false, w)) /\
  ((total <= goldOf w Player)%Q -> q <= quantityOf doc ->
   quickBuy rejects item q w
   = match
       andThen (send rejects (SetGold Player (goldOf w Player - total)))
         (fun _ => andThen (send rejects (SetGold Shop (goldOf w Shop + total)))
         (fun _ => andThen (send rejects (Create Player (withQuantity q (data doc))))
         (fun _ => takeFrom rejects holder (_id doc) (quantityOf doc) q))) w
     with
     | (Normal _, w') => (true, w')
     | (Throw, w') => (false, w')
     end).
Proof.
  intro Hn. unfold quickBuy. rewrite (quick_names_resolve _ _ _ _ _ Hn).
  cbv zeta.
  change (gold (player w) ?? 0%Q) with (goldOf w Player).
  change (gold (shop w) ?? 0%Q) with (goldOf w Shop).
  change (quantity (data doc) ?? 1) with (quantityOf doc).
  unfold Qltb. split; [|split].
  - intro H. apply Qgtb_true in H. rewrite H. reflexivity.
  - intro H. apply Z.ltb_lt in H. rewrite H.
    destruct (Js.Qgtb _ (goldOf w Player)); reflexivity.
  - intros H1 H2. apply Qgtb_false in H1. apply Z.ltb_ge in H2.
    rewrite H1, H2. reflexivity.
Qed.

Lemma quickBuy_unnamed rejects item q w :
  item = NoItem \/ (exists id, item = ById id /\ lookup (shop w) id = None) ->
  quickBuy rejects item q w = (false, w).
Proof.
  intros [->|(id & -> & H)]; unfold quickBuy; simpl; [|rewrite H]; reflexivity.
Qed.

Lemma quick_takeFrom_normal rejects holder id n q w w' :
  takeFrom rejects holder id n q w = (Normal tt, w') ->
  apply (if n <=? q then Delete holder id else SetQuantity holder id (n - q)) (record
         (if n <=? q then Delete holder id else SetQuantity holder id (n - q)) w)
  = Some w'.
Proof.
  unfold takeFrom. destruct (n <=? q); intro H;
    apply quick_send_normal in H as [_ H]; exact H.
Qed.

(** What a deal that completes has done: [receiver] gets the new document,
    and the document dealt gives in the place where it lives; the other
    places are as they were. *)
Lemma quick_deal_inv rejects receiver goldPlayer goldShop holder q doc w w' :
  andThen (send rejects (SetGold Player goldPlayer))
    (fun _ => andThen (send rejects (SetGold Shop goldShop))
    (fun _ => andThen (send rejects (Create receiver (withQuantity q (data doc))))
    (fun _ => takeFrom rejects holder (_id doc) (quantityOf doc) q))) w
  = (Normal tt, w') ->
  let received (h : Holder) : list Item :=
    if isHeldBy receiver h
    then stockOf w h ++ [mkItem (fresh w) (withQuantity q (data doc))]
    else stockOf w h in
  gold (player w') = Some goldPlayer
  /\ gold (shop w') = Some goldShop
  /\ (forall h, h <> holder -> stockOf w' h = received h)
  /\ find (hasId (_id doc)) (received holder) <> None
  /\ stockOf w' holder
     = (if quantityOf doc <=? q
        then filter (fun i => negb (hasId (_id doc) i)) (received holder)
        else map (fun i => if hasId (_id doc) i
                           then mkItem (_id i) (withQuantity (quantityOf doc - q) (data i))
                           else i)
                 (received holder)).
Proof.
  intros H received. unfold andThen in H.
  destruct (send rejects (SetGold Player goldPlayer) w) as [[[]|] w1] eqn:E1;
    [|discriminate].
  destruct (send rejects (SetGold Shop goldShop) w1) as [[[]|] w2] eqn:E2;
    [|discriminate].
  destruct (send rejects (Create receiver (withQuantity q (data doc))) w2)
    as [[[]|] w3] eqn:E3; [|discriminate].
  apply quick_send_normal in E1 as [_ E1]. apply quick_send_normal in E2 as [_ E2].
  apply quick_send_normal in E3 as [_ E3]. apply quick_takeFrom_normal in H.
  simpl in E1, E2, E3. injection E1 as <-. injection E2 as <-. injection E3 as <-.
  subst received.
  destruct (quantityOf doc <=? q); simpl in H;
    destruct receiver, holder as [[|]|]; simpl in H |- *;
    match type of H with
    | match ?f with _ => _ end = _ => destruct f eqn:Hf; [|discriminate]
    end;
    injection H as <-; simpl;
    (split; [reflexivity|]); (split; [reflexivity|]);
    (split; [intros [[|]|] Hne; simpl; congruence|]);
    (split; [discriminate|reflexivity]).
Qed.

Lemma quick_send_longer rejects op w :
  (List.length (log w) < List.length (log (snd (send rejects op w))))%nat.
Proof. rewrite quick_send_log, length_app. simpl. lia. Qed.

Lemma quick_takeFrom_longer rejects holder id n q w :
  (List.length (log w) < List.length (log (snd (takeFrom rejects holder id n q w))))%nat.
Proof. unfold takeFrom. destruct (n <=? q); apply quick_send_longer. Qed.

Lemma quick_deal_longer rejects op1 op2 op3 holder id n q w :
  (List.length (log w)
   < List.length
       (log (snd (andThen (send rejects op1)
                    (fun _ => andThen (send rejects op2)
                    (fun _ => andThen (send rejects op3)
                    (fun _ => takeFrom rejects holder id n q))) w))))%nat.
Proof.
  unfold andThen.
  pose proof (quick_send_longer rejects op1 w) as H1.
  destruct (send rejects op1 w) as [[[]|] w1]; simpl in H1; [|exact H1].
  pose proof (quick_send_longer rejects op2 w1) as H2.
  destruct (send rejects op2 w1) as [[[]|] w2]; simpl in H2; [|simpl; lia].
  pose proof (quick_send_longer rejects op3 w2) as H3.
  destruct (send rejects op3 w2) as [[[]|] w3]; simpl in H3; [|simpl; lia].
  pose proof (quick_takeFrom_longer rejects holder id n q w3) as H4. lia.
Qed.

(** X16: [quickBuy] refuses without issuing any operation, returning false
    with the host exactly as it was, in these cases and no other: no item
    is given; the item is given as an id that is not in the shop's
    inventory; or, for the document found under the id, or the document
    passed (which is not looked up and need not be in the shop's
    inventory), the player's gold is below the total price or the
    document's quantity is below the quantity asked for. *)
Theorem quickBuy_refusal
    (rejects : Op -> World -> bool) (item : ItemArg) (q : Z) (w : World) :
  quickBuy rejects item q w = (false, w) <->
  item = NoItem
  \/ (exists id, item = ById id /\ lookup (shop w) id = None)
  \/ exists holder doc,
       ((exists id,
           item = ById id /\ lookup (shop w) id = Some doc /\ holder = Held Shop)
        \/ item = Document holder doc) /\
       ((goldOf w Player < (price (data doc) ?? 0) * inject_Z q)%Q
        \/ quantityOf doc < q).
Proof.
  split.
  - intro H.
    destruct (quick_resolve_cases Shop w item) as [[Habs _]|(holder & doc & Hn)];
      [destruct Habs; auto|].
    right. right. exists holder, doc. split; [exact Hn|].
    destruct (quickBuy_guards rejects item q w holder doc Hn) as (_ & _ & Hrun).
    destruct (Qlt_le_dec (goldOf w Player) ((price (data doc) ?? 0) * inject_Z q)%Q)
      as [Hlt|Hle]; [left; exact Hlt|].
    destruct (Z_lt_le_dec (quantityOf doc) q) as [Hq|Hq]; [right; exact Hq|].
    exfalso. rewrite (Hrun Hle Hq) in H.
    pose proof (quick_deal_longer rejects
                  (SetGold Player
                     (goldOf w Player - (price (data doc) ?? 0) * inject_Z q)%Q)
                  (SetGold Shop
                     (goldOf w Shop + (price (data doc) ?? 0) * inject_Z q)%Q)
                  (Create Player (withQuantity q (data doc)))
                  holder (_id doc) (quantityOf doc) q w) as Hlen.
    match type of H with
    | context [andThen ?c ?k w] => destruct (andThen c k w) as [[[]|] w1]
    end; [discriminate|].
    injection H as ->. simpl in Hlen. lia.
  - intros [H|[H|(holder & doc & Hn & H)]].
    + apply quickBuy_unnamed. left. exact H.
    + apply quickBuy_unnamed. right. exact H.
    + destruct (quickBuy_guards rejects item q w holder doc Hn) as (Hgold & Hstock & _).
      destruct H as [H|H]; auto.
Qed.

Lemma quickBuy_true_inv rejects item q w w' :
  quickBuy rejects item q w = (true, w') ->
  exists holder doc,
    names Shop w item holder doc /\
    ((price (data doc) ?? 0) * inject_Z q <= goldOf w Player)%Q /\
    q <= quantityOf doc /\
    andThen (send rejects
               (SetGold Player (goldOf w Player - (price (data doc) ?? 0) * inject_Z q)%Q))
      (fun _ => andThen (send rejects
               (SetGold Shop (goldOf w Shop + (price (data doc) ?? 0) * inject_Z q)%Q))
      (fun _ => andThen (send rejects (Create Player (withQuantity q (data doc))))
      (fun _ => takeFrom rejects holder (_id doc) (quantityOf doc) q))) w
    = (Normal tt, w').
Proof.
  intro H.
  destruct (quick_resolve_cases Shop w item) as [[Habs _]|(holder & doc & Hn)].
  { rewrite (quickBuy_unnamed rejects item q w Habs) in H. discriminate. }
  destruct (quickBuy_guards rejects item q w holder doc Hn) as (Hgold & Hstock & Hrun).
  exists holder, doc. split; [exact Hn|].
  destruct (Qlt_le_dec (goldOf w Player) ((price (data doc) ?? 0) * inject_Z q)%Q)
    as [Hlt|Hle]; [rewrite (Hgold Hlt) in H; discriminate|].
  destruct (Z_lt_le_dec (quantityOf doc) q) as [Hq|Hq];
    [rewrite (Hstock Hq) in H; discriminate|].
  rewrite (Hrun Hle Hq) in H.
  match type of H with
  | context [andThen ?c ?k w] => destruct (andThen c k w) as [[[]|] w1] eqn:E
  end; [|discriminate].
  injection H as ->. auto.
Qed.

(** X17: when [quickBuy] returns true, the item argument stood for a
    document (the one found under the id in the shop's inventory, or the
    one passed, wherever it lives); the player could afford the total
    price (unit price of that document times quantity) and the document
    held enough; the player's gold has gone down and the shop's gold up by
    exactly that total, so their sum is unchanged; and the player's gold
    is not negative. *)
Theorem quickBuy_payment
    (rejects : Op -> World -> bool) (item : ItemArg) (q : Z) (w w' : World) :
  quickBuy rejects item q w = (true, w') ->
  exists holder doc,
    ((exists id, item = ById id /\ lookup (shop w) id = Some doc /\ holder = Held Shop)
     \/ item = Document holder doc) /\
    let total := ((price (data doc) ?? 0) * inject_Z q)%Q in
    (total <= goldOf w Player)%Q /\ q <= quantityOf doc /\
    (goldOf w' Player == goldOf w Player - total)%Q /\
    (goldOf w' Shop == goldOf w Shop + total)%Q /\
    (goldOf w' Player + goldOf w' Shop == goldOf w Player + goldOf w Shop)%Q /\
    (0 <= goldOf w' Player)%Q.
Proof.
  intro H. destruct (quickBuy_true_inv _ _ _ _ _ H) as (holder & doc & Hn & Hle & Hq & E).
  exists holder, doc. split; [exact Hn|].
  intro total. fold total in Hle, E.
  destruct (quick_deal_inv rejects Player _ _ holder q doc w w' E) as (Hp & Hs & _).
  assert (Hgp : goldOf w' Player = (goldOf w Player - total)%Q).
  { unfold goldOf at 1. simpl traderOf. rewrite Hp. reflexivity. }
  assert (Hgs : goldOf w' Shop = (goldOf w Shop + total)%Q).
  { unfold goldOf at 1. simpl traderOf. rewrite Hs. reflexivity. }
  rewrite Hgp, Hgs.
  split; [exact Hle|]. split; [exact Hq|].
  split; [reflexivity|]. split; [reflexivity|]. split; [ring|].
  apply (proj1 (Qplus_le_l _ _ total)).
  setoid_replace (goldOf w Player - total + total)%Q with (goldOf w Player) by ring.
  setoid_replace (0 + total)%Q with total by ring. exact Hle.
Qed.

Lemma quickBuy_payment_witness :
  exists doc,
    lookup (shop QuickExamples.stall) 1%nat = Some doc /\
    (goldOf (snd (quickBuy accepting (ById 1%nat) 3 QuickExamples.stall)) Player
     == goldOf QuickExamples.stall Player - (price (data doc) ?? 0) * inject_Z 3)%Q.
Proof.
  destruct (quickBuy_payment accepting (ById 1%nat) 3 QuickExamples.stall
              (snd (quickBuy accepting (ById 1%nat) 3 QuickExamples.stall)) eq_refl)
    as (holder & doc & [(id & E & Hdoc & _)|E] & _ & _ & Hgold & _); [|discriminate].
  injection E as <-. exists doc. split; [exact Hdoc|exact Hgold].
Defined.

Lemma quick_lookup_id t id doc : lookup t id = Some doc -> _id doc = id /\ In doc (stock t).
Proof.
  unfold lookup. intro H. apply find_some in H as [Hin H].
  split; [apply Nat.eqb_eq; exact H|exact Hin].
Qed.

(** X18: when [quickBuy] returns true, the bought quantity has been given
    to the player as a new document (the fields of the document sold, the
    quantity field set to the bought quantity, a fresh id), appended to
    the inventory even when the player already holds the same kind of
    item. The document sold is the one found under the id in the shop's
    inventory, or the one passed. When it lives in the shop's inventory,
    it is gone from there when all of it was bought and otherwise stays
    with its quantity field lowered by the bought quantity; and, the
    shop's documents having distinct ids, the player holds [q] more things
    and the shop [q] fewer. When it is a passed document that lives
    somewhere else, the shop's inventory is as it was. *)
Theorem quickBuy_delivery
    (rejects : Op -> World -> bool) (item : ItemArg) (q : Z) (w w' : World) :
  quickBuy rejects item q w = (true, w') ->
  exists holder doc,
    ((exists id,
        item = ById id /\ lookup (shop w) id = Some doc /\ holder = Held Shop
        /\ _id doc = id)
     \/ item = Document holder doc) /\
    let holding (value : Z) : ItemData :=
      mkItemData (name (data doc)) (type (data doc)) (sourceId (data doc))
                 (Some value) (price (data doc)) (denomination (data doc)) in
    (holder <> Held Player ->
     stock (player w') = stock (player w) ++ [mkItem (fresh w) (holding q)]) /\
    (holder <> Held Shop -> stock (shop w') = stock (shop w)) /\
    (holder = Held Shop -> lookup (shop w) (_id doc) = Some doc ->
     lookup (shop w') (_id doc)
     = (if quantityOf doc =? q then None
        else Some (mkItem (_id doc) (holding (quantityOf doc - q)))) /\
     (NoDup (map _id (stock (shop w))) ->
      holdings w' Player = holdings w Player + q /\
      holdings w' Shop = holdings w Shop - q)).
Proof.
  intro H. destruct (quickBuy_true_inv _ _ _ _ _ H) as (holder & doc & Hn & _ & Hq & E).
  exists holder, doc. split.
  { destruct Hn as [(id & Hi & Hl & Hh)|Hn]; [left|right; exact Hn].
    exists id. destruct (quick_lookup_id _ _ _ Hl) as [Hid _]. auto. }
  intro holding.
  destruct (quick_deal_inv rejects Player _ _ holder q doc w w' E)
    as (_ & _ & Hrest & _ & Hholder).
  split; [|split].
  - intro Hne. exact (Hrest (Held Player) (fun e => Hne (eq_sym e))).
  - intro Hne. exact (Hrest (Held Shop) (fun e => Hne (eq_sym e))).
  - intros -> Hdoc.
    assert (Hplayer : stock (player w')
                      = stock (player w) ++ [mkItem (fresh w) (holding q)]).
    { apply (Hrest (Held Player)). discriminate. }
    simpl in Hholder.
    destruct (quick_lookup_id _ _ _ Hdoc) as [_ Hin].
    destruct (quantityOf doc <=? q) eqn:Hle.
    + apply Z.leb_le in Hle. assert (Heq : quantityOf doc = q) by lia.
      rewrite Heq, Z.eqb_refl. split.
      * unfold lookup. rewrite Hholder. apply find_deleted.
      * intro Hnd. unfold holdings. simpl. rewrite Hplayer, Hholder, sumQuantities_app.
        split; [reflexivity|].
        rewrite (sumQuantities_delete _ doc Hnd Hin). lia.
    + apply Z.leb_gt in Hle.
      assert (Hne : (quantityOf doc =? q) = false) by (apply Z.eqb_neq; lia).
      rewrite Hne. split.
      * unfold lookup. rewrite Hholder.
        rewrite (find_updated (_id doc)
                   (fun i => mkItem (_id i) (withQuantity (quantityOf doc - q) (data i)))
                   _ doc (fun i => eq_refl) Hdoc).
        reflexivity.
      * intro Hnd. unfold holdings. simpl. rewrite Hplayer, Hholder, sumQuantities_app.
        split; [reflexivity|].
        rewrite (sumQuantities_update _ doc _ Hnd Hin). lia.
Qed.

Lemma quickBuy_delivery_witness :
  (holdings (snd (quickBuy accepting (ById 1%nat) 3 QuickExamples.stall)) Player = 0 + 3
   /\ holdings (snd (quickBuy accepting (ById 1%nat) 3 QuickExamples.stall)) Shop = 4 - 3)
  /\ stock (shop (snd (quickBuy accepting (Document Elsewhere QuickExamples.remedy) 3
                         QuickExamples.cellar)))
     = [].
Proof.
  split.
  - destruct (quickBuy_delivery accepting (ById 1%nat) 3 QuickExamples.stall
                (snd (quickBuy accepting (ById 1%nat) 3 QuickExamples.stall)) eq_refl)
      as (holder & doc & [(id & E & Hdoc & -> & _)|E] & _ & _ & Hshop); [|discriminate].
    injection E as <-. injection Hdoc as <-.
    apply (Hshop eq_refl eq_refl). simpl. constructor; [simpl; tauto|constructor].
  - destruct (quickBuy_delivery accepting (Document Elsewhere QuickExamples.remedy) 3
                QuickExamples.cellar
                (snd (quickBuy accepting (Document Elsewhere QuickExamples.remedy) 3
                        QuickExamples.cellar)) eq_refl)
      as (holder & doc & [(id & E & _)|E] & _ & Hkept & _); [discriminate|].
    injection E as <- <-. apply Hkept. discriminate.
Defined.

(** The guards of [quickSell]. *)
Lemma quickSell_guards rejects item q ratio w holder doc :
  names Player w item holder doc ->
  let sellPrice := inject_Z (Qfloor ((price (data doc) ?? 0) * ratio)%Q * q) in
  ((goldOf w Shop < sellPrice)%Q -> quickSell rejects item q ratio w = (false, w)) /\
  (quantityOf doc < q -> quickSell rejects item q ratio w = (false, w)) /\
  ((sellPrice <= goldOf w Shop)%Q -> q <= quantityOf doc ->
   quickSell rejects item q ratio w
   = match
       andThen (send rejects (SetGold Player (goldOf w Player + sellPrice)))
         (fun _ => andThen (send rejects (SetGold Shop (goldOf w Shop - sellPrice)))
         (fun _ => andThen (send rejects (Create Shop (withQuantity q (data doc))))
         (fun _ => takeFrom rejects holder (_id doc) (quantityOf doc) q))) w
     with
     | (Normal _, w') => (true, w')
     | (Throw, w') => (false, w')
     end).
Proof.
  intro Hn. unfold quickSell. rewrite (quick_names_resolve _ _ _ _ _ Hn).
  cbv zeta.
  change (gold (player w) ?? 0%Q) with (goldOf w Player).
  change (gold (shop w) ?? 0%Q) with (goldOf w Shop).
  change (quantity (data doc) ?? 1) with (quantityOf doc).
  unfold Qltb. split; [|split].
  - intro H. apply Qgtb_true in H. rewrite H. reflexivity.
  - intro H. apply Z.ltb_lt in H. rewrite H.
    destruct (Js.Qgtb _ (goldOf w Shop)); reflexivity.
  - intros H1 H2. apply Qgtb_false in H1. apply Z.ltb_ge in H2.
    rewrite H1, H2. reflexivity.
Qed.

Lemma quickSell_unnamed rejects item q ratio w :
  item = NoItem \/ (exists id, item = ById id /\ lookup (player w) id = None) ->
  quickSell rejects item q ratio w = (false, w).
Proof.
  intros [->|(id & -> & H)]; unfold quickSell; simpl; [|rewrite H]; reflexivity.
Qed.

(** X19: when [quickSell] returns true, the item argument stood for a
    document (the one found under the id in the player's inventory, or
    the one passed, wherever it lives); the price paid is the whole number
    floor(unit price * sellRatio) times the quantity; the shop could
    afford it and the document held enough; the player's gold has gone up
    and the shop's down by exactly that price, and the shop's gold is not
    negative. For a unit price that is not negative, a ratio between 0 and
    1 and a quantity that is not negative, the price paid is at most the
    full price of the items and is not negative. *)
Theorem quickSell_payment
    (rejects : Op -> World -> bool) (item : ItemArg) (q : Z) (ratio : Q) (w w' : World) :
  quickSell rejects item q ratio w = (true, w') ->
  exists holder doc,
    ((exists id, item = ById id /\ lookup (player w) id = Some doc /\ holder = Held Player)
     \/ item = Document holder doc) /\
    let base := price (data doc) ?? 0%Q in
    let sellPrice := inject_Z (Qfloor (base * ratio) * q) in
    (sellPrice <= goldOf w Shop)%Q /\ q <= quantityOf doc /\
    (goldOf w' Player == goldOf w Player + sellPrice)%Q /\
    (goldOf w' Shop == goldOf w Shop - sellPrice)%Q /\
    (0 <= goldOf w' Shop)%Q /\
    ((0 <= base)%Q -> (0 <= ratio)%Q -> (ratio <= 1)%Q -> 0 <= q ->
     (0 <= sellPrice)%Q /\ (sellPrice <= base * inject_Z q)%Q).
Proof.
  intro H.
  destruct (quick_resolve_cases Player w item) as [[Habs _]|(holder & doc & Hn)].
  { rewrite (quickSell_unnamed rejects item q ratio w Habs) in H. discriminate. }
  destruct (quickSell_guards rejects item q ratio w holder doc Hn)
    as (Hgold & Hstock & Hrun).
  exists holder, doc. split; [exact Hn|].
  intros base sellPrice. fold base in Hgold, Hrun. fold sellPrice in Hgold, Hrun.
  destruct (Qlt_le_dec (goldOf w Shop) sellPrice) as [Hlt|Hle];
    [rewrite (Hgold Hlt) in H; discriminate|].
  destruct (Z_lt_le_dec (quantityOf doc) q) as [Hq|Hq];
    [rewrite (Hstock Hq) in H; discriminate|].
  rewrite (Hrun Hle Hq) in H.
  match type of H with
  | context [andThen ?c ?k w] => destruct (andThen c k w) as [[[]|] w1] eqn:E
  end; [|discriminate].
  injection H as ->.
  destruct (quick_deal_inv rejects Shop _ _ holder q doc w w' E) as (Hp & Hs & _).
  assert (Hgp : goldOf w' Player = (goldOf w Player + sellPrice)%Q).
  { unfold goldOf at 1. simpl traderOf. rewrite Hp. reflexivity. }
  assert (Hgs : goldOf w' Shop = (goldOf w Shop - sellPrice)%Q).
  { unfold goldOf at 1. simpl traderOf. rewrite Hs. reflexivity. }
  rewrite Hgp, Hgs.
  split; [exact Hle|]. split; [exact Hq|].
  split; [reflexivity|]. split; [reflexivity|]. split.
  - apply (proj1 (Qplus_le_l _ _ sellPrice)).
    setoid_replace (goldOf w Shop - sellPrice + sellPrice)%Q with (goldOf w Shop) by ring.
    setoid_replace (0 + sellPrice)%Q with sellPrice by ring. exact Hle.
  - intros Hbase Hr0 Hr1 Hq0.
    assert (Hprod : (0 <= base * ratio)%Q) by (apply Qmult_le_0_compat; assumption).
    assert (Hfloor0 : 0 <= Qfloor (base * ratio)).
    { change 0 with (Qfloor 0). apply Qfloor_resp_le. exact Hprod. }
    assert (HfloorLe : (inject_Z (Qfloor (base * ratio)) <= base)%Q).
    { apply (Qle_trans _ (base * ratio)); [apply Qfloor_le|].
      setoid_replace base with (base * 1)%Q at 2 by ring.
      rewrite (Qmult_comm base ratio), (Qmult_comm base 1).
      apply Qmult_le_compat_r; assumption. }
    unfold sellPrice. rewrite inject_Z_mult. split.
    + apply Qmult_le_0_compat; change 0%Q with (inject_Z 0); rewrite <- Zle_Qle; assumption.
    + apply Qmult_le_compat_r; [exact HfloorLe|].
      change 0%Q with (inject_Z 0). rewrite <- Zle_Qle. exact Hq0.
Qed.

Lemma quickSell_payment_witness :
  exists doc,
    lookup (player QuickExamples.pouch) 1%nat = Some doc /\
    (goldOf (snd (quickSell accepting (ById 1%nat) 3 0.5 QuickExamples.pouch)) Player
     == goldOf QuickExamples.pouch Player
        + inject_Z (Qfloor ((price (data doc) ?? 0) * 0.5) * 3))%Q /\
    (inject_Z (Qfloor ((price (data doc) ?? 0) * 0.5) * 3)
     <= (price (data doc) ?? 0) * inject_Z 3)%Q.
Proof.
  destruct (quickSell_payment accepting (ById 1%nat) 3 0.5 QuickExamples.pouch
              (snd (quickSell accepting (ById 1%nat) 3 0.5 QuickExamples.pouch)) eq_refl)
    as (holder & doc & [(id & E & Hdoc & _)|E] & _ & _ & Hgold & _ & _ & Hbound);
    [|discriminate].
  injection E as <-.
  exists doc. split; [exact Hdoc|]. split; [exact Hgold|].
  injection Hdoc as <-.
  apply Hbound; [discriminate|discriminate|discriminate|lia].
Defined.

Lemma quick_find_app (f : Item -> bool) (l l' : list Item) :
  find f l <> None -> find f (l ++ l') <> None.
Proof.
  induction l as [|x l IH]; simpl; [congruence|].
  destruct (f x); [discriminate|exact IH].
Qed.

(** On the accepting host a deal completes when the document dealt is in
    the place where it lives. *)
Lemma quick_deal_accepting receiver goldPlayer goldShop holder q doc w :
  find (hasId (_id doc)) (stockOf w holder) <> None ->
  exists w',
    andThen (send accepting (SetGold Player goldPlayer))
      (fun _ => andThen (send accepting (SetGold Shop goldShop))
      (fun _ => andThen (send accepting (Create receiver (withQuantity q (data doc))))
      (fun _ => takeFrom accepting holder (_id doc) (quantityOf doc) q))) w
    = (Normal tt, w').
Proof.
  intro Hdoc.
  pose proof (quick_find_app (hasId (_id doc)) (stockOf w holder)
                [mkItem (fresh w) (withQuantity q (data doc))] Hdoc) as Hdoc'.
  unfold andThen, send, accepting, takeFrom. simpl.
  destruct receiver, holder as [[|]|]; simpl in *;
    destruct (quantityOf doc <=? q); unfold send; simpl;
    match goal with
    | |- context [find ?f ?l] => destruct (find f l) eqn:Hf; [|congruence]
    end;
    eexists; reflexivity.
Qed.

(** X20: on a host that accepts every operation. Given an id, [quickBuy]
    returns true exactly when the id is in the shop's inventory, the
    player's gold covers the total price and the document holds at least
    the quantity asked for; and [quickSell] returns true exactly when the
    id is in the player's inventory, the shop's gold covers the price paid
    and the document holds at least the quantity. Given a document, which
    is not looked up, the same holds with the first condition dropped, for
    a document that is in the place where it lives: a document that the
    shop (for a purchase) or the player (for a sale) does not hold is
    traded all the same. No positive quantity is asked for. *)
Theorem quick_trades_accepted
    (id : ItemId) (holder : Holder) (passed : Item) (q : Z) (ratio : Q) (w : World) :
  let buyable (doc : Item) : Prop :=
    ((price (data doc) ?? 0) * inject_Z q <= goldOf w Player)%Q /\ q <= quantityOf doc in
  let sellable (doc : Item) : Prop :=
    (inject_Z (Qfloor ((price (data doc) ?? 0) * ratio)%Q * q) <= goldOf w Shop)%Q
    /\ q <= quantityOf doc in
  (fst (quickBuy accepting (ById id) q w) = true <->
   exists doc, lookup (shop w) id = Some doc /\ buyable doc)
  /\
  (fst (quickSell accepting (ById id) q ratio w) = true <->
   exists doc, lookup (player w) id = Some doc /\ sellable doc)
  /\
  (find (hasId (_id passed)) (stockOf w holder) <> None ->
   (fst (quickBuy accepting (Document holder passed) q w) = true <-> buyable passed)
   /\
   (fst (quickSell accepting (Document holder passed) q ratio w) = true
    <-> sellable passed)).
Proof.
  intros buyable sellable.
  assert (Hbuy : forall item h doc,
             names Shop w item h doc ->
             find (hasId (_id doc)) (stockOf w h) <> None ->
             (fst (quickBuy accepting item q w) = true <-> buyable doc)).
  { intros item h doc Hn Hfound.
    destruct (quickBuy_guards accepting item q w h doc Hn) as (Hgold & Hstock & Hrun).
    split.
    - intro H.
      destruct (Qlt_le_dec (goldOf w Player) ((price (data doc) ?? 0) * inject_Z q)%Q)
        as [Hlt|Hle]; [rewrite (Hgold Hlt) in H; discriminate|].
      destruct (Z_lt_le_dec (quantityOf doc) q) as [Hq|Hq];
        [rewrite (Hstock Hq) in H; discriminate|]. split; assumption.
    - intros [Hle Hq]. rewrite (Hrun Hle Hq).
      destruct (quick_deal_accepting Player
                  (goldOf w Player - (price (data doc) ?? 0) * inject_Z q)%Q
                  (goldOf w Shop + (price (data doc) ?? 0) * inject_Z q)%Q
                  h q doc w Hfound) as (w' & Hw').
      rewrite Hw'. reflexivity. }
  assert (Hsell : forall item h doc,
             names Player w item h doc ->
             find (hasId (_id doc)) (stockOf w h) <> None ->
             (fst (quickSell accepting item q ratio w) = true <-> sellable doc)).
  { intros item h doc Hn Hfound.
    destruct (quickSell_guards accepting item q ratio w h doc Hn)
      as (Hgold & Hstock & Hrun).
    split.
    - intro H.
      destruct (Qlt_le_dec (goldOf w Shop)
                  (inject_Z (Qfloor ((price (data doc) ?? 0) * ratio)%Q * q)))
        as [Hlt|Hle]; [rewrite (Hgold Hlt) in H; discriminate|].
      destruct (Z_lt_le_dec (quantityOf doc) q) as [Hq|Hq];
        [rewrite (Hstock Hq) in H; discriminate|]. split; assumption.
    - intros [Hle Hq]. rewrite (Hrun Hle Hq).
      destruct (quick_deal_accepting Shop
                  (goldOf w Player
                   + inject_Z (Qfloor ((price (data doc) ?? 0) * ratio)%Q * q))%Q
                  (goldOf w Shop
                   - inject_Z (Qfloor ((price (data doc) ?? 0) * ratio)%Q * q))%Q
                  h q doc w Hfound) as (w' & Hw').
      rewrite Hw'. reflexivity. }
  assert (Hfound : forall p doc,
             lookup (traderOf w p) id = Some doc ->
             names p w (ById id) (Held p) doc
             /\ find (hasId (_id doc)) (stockOf w (Held p)) <> None).
  { intros p doc Hl. split; [left; exists id; auto|].
    destruct (quick_lookup_id _ _ _ Hl) as [-> _].
    unfold lookup in Hl. simpl. rewrite Hl. discriminate. }
  split; [|split].
  - destruct (lookup (shop w) id) as [doc|] eqn:Hdoc.
    + destruct (Hfound Shop doc Hdoc) as [Hn Hf].
      rewrite (Hbuy _ _ _ Hn Hf). split.
      * intro H. exists doc. auto.
      * intros (doc' & E & H). injection E as <-. exact H.
    + rewrite (quickBuy_unnamed accepting (ById id) q w)
        by (right; exists id; auto).
      split; [discriminate|]. intros (doc & E & _). discriminate.
  - destruct (lookup (player w) id) as [doc|] eqn:Hdoc.
    + destruct (Hfound Player doc Hdoc) as [Hn Hf].
      rewrite (Hsell _ _ _ Hn Hf). split.
      * intro H. exists doc. auto.
      * intros (doc' & E & H). injection E as <-. exact H.
    + rewrite (quickSell_unnamed accepting (ById id) q ratio w)
        by (right; exists id; auto).
      split; [discriminate|]. intros (doc & E & _). discriminate.
  - intro Hf. split.
    + apply (Hbuy _ holder passed); [right; reflexivity|exact Hf].
    + apply (Hsell _ holder passed); [right; reflexivity|exact Hf].
Qed.

Lemma quick_trades_accepted_witness :
  fst (quickBuy accepting (Document Elsewhere QuickExamples.remedy) 3
         QuickExamples.cellar) = true
  /\ fst (quickSell accepting (Document Elsewhere QuickExamples.remedy) 3 0.5
            QuickExamples.cellar) = true.
Proof.
  destruct (quick_trades_accepted 1%nat Elsewhere QuickExamples.remedy 3 0.5
              QuickExamples.cellar) as (_ & _ & H).
  destruct H as [Hbuy Hsell]; [simpl; discriminate|].
  split.
  - apply Hbuy. split; [discriminate|unfold quantityOf; simpl; lia].
  - apply Hsell. split; [discriminate|unfold quantityOf; simpl; lia].
Defined.

(** X21: when the host accepts the two gold updates of [quickBuy] and then
    rejects the creation of the bought item, [quickBuy] returns false, yet
    the player's gold has gone down and the shop's up by the total price,
    nothing was added to the player's inventory and the shop's inventory
    is as before: the payment is not taken back. This holds for the
    document found under an id in the shop's inventory and for a document
    passed. *)
Theorem quickBuy_payment_not_rolled_back
    (rejects : Op -> World -> bool) (item : ItemArg) (q : Z) (w : World)
    (holder : Holder) (doc : Item) :
  (forall who value g, rejects (SetGold who value) g = false) ->
  (forall owner itemData g, rejects (Create owner itemData) g = true) ->
  (exists id, item = ById id /\ lookup (shop w) id = Some doc /\ holder = Held Shop)
  \/ item = Document holder doc ->
  ((price (data doc) ?? 0) * inject_Z q <= goldOf w Player)%Q ->
  q <= quantityOf doc ->
  let w' := snd (quickBuy rejects item q w) in
  fst (quickBuy rejects item q w) = false /\
  (goldOf w' Player == goldOf w Player - (price (data doc) ?? 0) * inject_Z q)%Q /\
  (goldOf w' Shop == goldOf w Shop + (price (data doc) ?? 0) * inject_Z q)%Q /\
  stock (player w') = stock (player w) /\
  stock (shop w') = stock (shop w) /\
  elsewhere w' = elsewhere w.
Proof.
  intros Hgold Hcreate Hn Hle Hq.
  destruct (quickBuy_guards rejects item q w holder doc Hn) as (_ & _ & Hrun).
  assert (E : quickBuy rejects item q w
              = (false,
                 record (Create Player (withQuantity q (data doc)))
                   (setTrader
                      (record (SetGold Shop
                                 (goldOf w Shop + (price (data doc) ?? 0) * inject_Z q)%Q)
                         (setTrader
                            (record (SetGold Player
                                       (goldOf w Player
                                        - (price (data doc) ?? 0) * inject_Z q)%Q) w)
                            Player
                            (mkTrader
                               (Some (goldOf w Player
                                      - (price (data doc) ?? 0) * inject_Z q)%Q)
                               (stock (player w)))))
                      Shop
                      (mkTrader
                         (Some (goldOf w Shop + (price (data doc) ?? 0) * inject_Z q)%Q)
                         (stock (shop w)))))).
  { rewrite (Hrun Hle Hq). unfold andThen.
    rewrite (quick_send_SetGold rejects Player _ w (Hgold _ _ _)).
    rewrite quick_send_SetGold by apply Hgold.
    unfold send at 1. rewrite Hcreate. reflexivity. }
  intro w'. subst w'. rewrite E. simpl. unfold goldOf. simpl.
  repeat split; reflexivity.
Qed.

Lemma quickBuy_payment_not_rolled_back_witness :
  fst (quickBuy (fun op _ => match op with Create _ _ => true | _ => false end)
         (ById 1%nat) 3 QuickExamples.stall) = false
  /\ (goldOf (snd (quickBuy (fun op _ => match op with Create _ _ => true | _ => false end)
                     (ById 1%nat) 3 QuickExamples.stall)) Player
      == 10 - 2.5 * inject_Z 3)%Q.
Proof.
  destruct (quickBuy_payment_not_rolled_back
              (fun op _ => match op with Create _ _ => true | _ => false end)
              (ById 1%nat) 3 QuickExamples.stall (Held Shop) QuickExamples.remedy)
    as (Hfalse & Hgold & _).
  - reflexivity.
  - reflexivity.
  - left. exists 1%nat. auto.
  - discriminate.
  - unfold quantityOf. simpl. lia.
  - split; [exact Hfalse|exact Hgold].
Defined.

End QuickFacts.
(** ** Searching by name *)

Lemma prefix_spec (t s : string) :
  String.prefix t s = true <-> exists b, s = (t ++ b)%string.
Proof.
  revert s. induction t as [|c t IH]; intro s.
  - split; [intros _; exists s; reflexivity|intros _; destruct s; reflexivity].
  - destruct s as [|d s]; simpl.
    + split; [discriminate|intros (b & E); discriminate].
    + destruct (ascii_dec c d) as [->|N].
      * rewrite IH. split; intros (b & E); exists b; congruence.
      * split; [discriminate|]. intros (b & E). congruence.
Qed.

(** [includes] decides whether the text occurs in the string. *)
Lemma includes_spec (s t : string) :
  includes s t = true <-> exists a b, s = (a ++ t ++ b)%string.
Proof.
  induction s as [|c s IH].
  - change (includes "" t) with (String.prefix t "" || false).
    rewrite orb_false_r, prefix_spec. split.
    + intros (b & E). exists ""%string, b. exact E.
    + intros (a & b & E). destruct a; [exists b; exact E|discriminate].
  - change (includes (String c s) t)
      with (String.prefix t (String c s) || includes s t).
    rewrite orb_true_iff, prefix_spec, IH. split.
    + intros [(b & E)|(a & b & E)].
      * exists ""%string, b. exact E.
      * exists (String c a), b. simpl. congruence.
    + intros (a & b & E). destruct a as [|d a].
      * left. exists b. exact E.
      * right. simpl in E. injection E as _ E. exists a, b. exact E.
Qed.

(** X22: an item is kept by the filters of the listing exactly when its
    type is one of the eight listed types and either no search text is
    given or the lower-cased search text occurs in the lower-cased name:
    the search is by substring and ignores letter case. *)
Theorem listed_spec (searchFilter : string) (item : Item) :
  listed searchFilter item = true <->
  In (type (data item)) validTypes /\
  (searchFilter = ""%string \/
   exists a b,
     Js.toLowerCase (name (data item))
     = (a ++ Js.toLowerCase searchFilter ++ b)%string).
Proof.
  unfold listed, isValidType. rewrite andb_true_iff.
  assert (Htype : existsb (String.eqb (type (data item))) validTypes = true
                  <-> In (type (data item)) validTypes).
  { rewrite existsb_exists. split.
    - intros (t & Hin & E). apply String.eqb_eq in E. rewrite E. exact Hin.
    - intro Hin. exists (type (data item)). split; [exact Hin|apply String.eqb_refl]. }
  rewrite Htype.
  destruct searchFilter as [|c r].
  - split; [intros [H _]; auto|intros [H _]; auto].
  - rewrite includes_spec. split.
    + intros [H1 H2]. auto.
    + intros [H1 [H2|H2]]; [discriminate|auto].
Qed.
(** * The registry of open windows *)

Lemma registry_get_set_same key win reg :
  registry_get key (registry_set key win reg) = Some win.
Proof.
  induction reg as [|[k w] r IH]; simpl.
  - rewrite String.eqb_refl. reflexivity.
  - destruct (String.eqb key k) eqn:E; simpl.
    + rewrite String.eqb_refl. reflexivity.
    + rewrite E. exact IH.
Qed.

Lemma registry_get_set_other key key' win reg :
  key' <> key -> registry_get key' (registry_set key win reg) = registry_get key' reg.
Proof.
  intro N. apply String.eqb_neq in N.
  induction reg as [|[k w] r IH]; simpl.
  - rewrite N. reflexivity.
  - destruct (String.eqb key k) eqn:E; simpl.
    + apply String.eqb_eq in E. subst k. rewrite N. reflexivity.
    + destruct (String.eqb key' k); [reflexivity|exact IH].
Qed.

Lemma registry_get_delete_other key key' reg :
  key' <> key -> registry_get key' (registry_delete key reg) = registry_get key' reg.
Proof.
  intro N. unfold registry_delete.
  induction reg as [|[k w] r IH]; simpl; [reflexivity|].
  destruct (String.eqb key k) eqn:E; simpl.
  - apply String.eqb_eq in E. subst k. apply String.eqb_neq in N. rewrite N. exact IH.
  - destruct (String.eqb key' k); [reflexivity|exact IH].
Qed.

Lemma registry_get_In key win reg : registry_get key reg = Some win -> In (key, win) reg.
Proof.
  induction reg as [|[k w] r IH]; simpl; [discriminate|].
  destruct (String.eqb_spec key k) as [->|N].
  - intro H. injection H as ->. left. reflexivity.
  - intro H. right. apply IH. exact H.
Qed.

Lemma hasActiveShop_key actorId key win reg :
  registry_get key reg = Some win -> includes key actorId = true ->
  hasActiveShop actorId reg = true.
Proof.
  intros Hget Hinc. unfold hasActiveShop. apply existsb_exists.
  exists (key, win). split; [apply registry_get_In; exact Hget|exact Hinc].
Qed.

Lemma string_app_assoc (a b c : string) : ((a ++ b) ++ c = a ++ b ++ c)%string.
Proof. induction a as [|x a IH]; simpl; [reflexivity|]. rewrite IH. reflexivity. Qed.

Lemma string_app_empty (a : string) : (a ++ "" = a)%string.
Proof. induction a as [|x a IH]; simpl; [reflexivity|]. rewrite IH. reflexivity. Qed.

(** X23: after [openShop] the returned window is registered under the key
    of the pair and is rendered, a second [openShop] for the same pair
    returns that same window and leaves the registry as it is, the entries
    of all other keys are untouched, and [hasActiveShop] answers true for
    the shop's id and for the player's id. *)
Theorem openShop_registers (shopId playerId : string) (reg : Registry) :
  let win := fst (openShop shopId playerId reg) in
  let reg' := snd (openShop shopId playerId reg) in
  registry_get (shopKey shopId playerId) reg' = Some win
  /\ window_element win = true
  /\ openShop shopId playerId reg' = (win, reg')
  /\ (forall key, key <> shopKey shopId playerId ->
                  registry_get key reg' = registry_get key reg)
  /\ hasActiveShop shopId reg' = true
  /\ hasActiveShop playerId reg' = true.
Proof.
  intros win reg'.
  assert (H1 : registry_get (shopKey shopId playerId) reg' = Some win
               /\ window_element win = true
               /\ forall key, key <> shopKey shopId playerId ->
                              registry_get key reg' = registry_get key reg).
  { subst win reg'. unfold openShop.
    destruct (registry_get (shopKey shopId playerId) reg) as [existing|] eqn:E.
    - destruct (window_element existing) eqn:R; simpl.
      + auto.
      + split; [apply registry_get_set_same|]. split; [reflexivity|].
        intros key N. rewrite registry_get_set_other by exact N.
        apply registry_get_delete_other. exact N.
    - simpl. split; [apply registry_get_set_same|]. split; [reflexivity|].
      intros key N. apply registry_get_set_other. exact N. }
  destruct H1 as (Hget & Hel & Hother).
  split; [exact Hget|]. split; [exact Hel|]. split; [|split; [exact Hother|]].
  - unfold openShop at 1. rewrite Hget, Hel. reflexivity.
  - split; apply (hasActiveShop_key _ _ _ _ Hget); apply includes_spec; unfold shopKey.
    + exists ""%string, ("-" ++ playerId)%string. reflexivity.
    + exists (shopId ++ "-")%string, ""%string.
      rewrite string_app_empty, string_app_assoc. reflexivity.
Qed.

Lemma hasChar_append c a b : hasChar c (a ++ b) = hasChar c a || hasChar c b.
Proof.
  induction a as [|d a IH]; simpl; [reflexivity|].
  rewrite IH. apply orb_assoc.
Qed.

(** X24: two pairs of actors get the same registry key only when they are
    the same pair, provided the shop ids contain no dash. *)
Theorem shopKey_injective (shopId shopId' playerId playerId' : string) :
  hasChar "-" shopId = false -> hasChar "-" shopId' = false ->
  shopKey shopId playerId = shopKey shopId' playerId' ->
  shopId = shopId' /\ playerId = playerId'.
Proof.
  unfold shopKey. revert shopId'.
  induction shopId as [|c s IH]; intros [|c' s'] H H' E; simpl in *.
  - injection E as E. auto.
  - injection E as Ec _. subst c'. simpl in H'. discriminate.
  - injection E as Ec _. subst c. simpl in H. discriminate.
  - injection E as Ec E. subst c'.
    apply orb_false_iff in H as [_ H]. apply orb_false_iff in H' as [_ H'].
    destruct (IH s' H H' E) as [-> ->]. auto.
Qed.

Lemma shopKey_injective_witness :
  ("npc" ++ "01")%string = "npc01"%string /\ "hero7"%string = ("hero" ++ "7")%string.
Proof.
  apply (shopKey_injective ("npc" ++ "01") "npc01" "hero7" ("hero" ++ "7"));
    reflexivity.
Defined.
(** * Confirmed commits *)

(** With negative gold not allowed, a confirmable trade offers no
    denomination above what its side holds. *)
Lemma canConfirmTrade_affordable this game playerCurrency shopCurrency :
  allowNegativeGold game = false ->
  canConfirmTrade this game playerCurrency shopCurrency = true ->
  forall d,
    exceeds (prop (playerTradeCurrency this) d) (prop playerCurrency d ?? 0) = false /\
    exceeds (prop (shopTradeCurrency this) d) (prop shopCurrency d ?? 0) = false.
Proof.
  intros Hneg H d. unfold canConfirmTrade in H. rewrite Hneg in H.
  cbn [negb andb] in H.
  match type of H with
  | (if ?c then _ else _) = _ => destruct c; [discriminate|]
  end.
  match type of H with
  | (if existsb ?f ?l then _ else _) = _ => destruct (existsb f l) eqn:E; [discriminate|]
  end.
  apply orb_false_iff.
  match type of E with
  | existsb ?f ?l = false =>
      destruct (f d) eqn:F; [|reflexivity];
      assert (Ht : existsb f l = true)
        by (apply existsb_exists; exists d;
            split; [apply denominations_complete|exact F])
  end.
  congruence.
Qed.

(** X25: with negative gold not allowed, when the window shows the trade
    as confirmable and the offered counts are present and not negative, a
    commit that completes leaves neither party with a negative count of
    any denomination. *)
Theorem confirmed_commit_no_negative_currency
    (rejects : HostOp -> Game -> bool) (this this' : ShopApplication)
    (game game' : Game) (p : Party) (d : Denomination) :
  allowNegativeGold game = false ->
  canConfirm this game = true ->
  canonical (playerTradeCurrency this) ->
  canonical (shopTradeCurrency this) ->
  executeTrade rejects this game = (Completed, this', game') ->
  0 <= held game' p d.
Proof.
  intros Hneg Hcan Hcp Hcs Hrun.
  rewrite (held_completed _ _ _ _ _ p d Hrun).
  destruct (canConfirmTrade_affordable _ _ _ _ Hneg Hcan d) as [Hp Hs].
  destruct (Hcp d) as (np & Enp & Hnp). destruct (Hcs d) as (ns & Ens & Hns).
  rewrite Enp in Hp. rewrite Ens in Hs. simpl in Hp, Hs.
  apply Z.ltb_ge in Hp. apply Z.ltb_ge in Hs.
  destruct p; simpl; unfold held; simpl; rewrite Enp, Ens; simpl; lia.
Qed.

Lemma confirmed_commit_no_negative_currency_witness :
  0 <= held (snd (executeTrade reliable Examples.marketOffer Examples.marketGame))
         Player gp.
Proof.
  apply (confirmed_commit_no_negative_currency reliable Examples.marketOffer
           (clearTrade Examples.marketOffer) Examples.marketGame
           (snd (executeTrade reliable Examples.marketOffer Examples.marketGame))
           Player gp).
  - reflexivity.
  - reflexivity.
  - intro d. destruct d; simpl; eexists; (split; [reflexivity|lia]).
  - intro d. destruct d; simpl; eexists; (split; [reflexivity|lia]).
  - reflexivity.
Defined.

(** On a host that accepts every operation a commit whose offered
    documents resolve completes. *)
Lemma executeTrade_accepted this game :
  offersResolve (playerActor game) (playerTradeItems this) ->
  offersResolve (shopActor game) (shopTradeItems this) ->
  exists game', executeTrade reliable this game = (Completed, clearTrade this, game').
Proof.
  intros [HndP HresP] [HndS HresS].
  unfold executeTrade. rewrite executeTradeBody_unfold. cbv zeta.
  rewrite !issue_UpdateCurrency_reliable.
  match goal with
  | |- context [transferAll reliable Shop Player _ ?g] => set (game2 := g)
  end.
  assert (Hitems : forall q, items (actorOf game2 q) = items (actorOf game q)).
  { intros []; reflexivity. }
  destruct (transferAll_reliable Shop (map_values (shopTradeItems this)) game2 HndS)
    as (game3 & Hrun3 & Hkeep).
  { apply Forall_forall. intros e Hin.
    rewrite (getItem_same_items _ (shopActor game)) by apply (Hitems Shop).
    apply (proj1 (Forall_forall _ _) HresS e Hin). }
  simpl other in Hrun3. rewrite Hrun3.
  destruct (transferAll_reliable Player (map_values (playerTradeItems this)) game3 HndP)
    as (game4 & Hrun4 & _).
  { apply Forall_forall. intros e Hin. apply Hkeep.
    rewrite (getItem_same_items _ (playerActor game)) by apply (Hitems Player).
    apply (proj1 (Forall_forall _ _) HresP e Hin). }
  simpl other in Hrun4. rewrite Hrun4.
  exists game4. reflexivity.
Qed.

(** X26: whatever the user has done in a freshly opened window (clicks,
    drops, removals, currency inputs, clearing), if the inventories have
    not changed meanwhile and the host accepts every operation, the commit
    completes: success is reported and both baskets are reset. *)
Theorem reachable_commit_completes (game : Game) (events : list UiEvent) :
  let this := fold_left (handle game) events newTrade in
  exists game',
    executeTrade reliable this game = (Completed, newTrade, game').
Proof.
  intro this.
  destruct (tradeOk_events game events newTrade (tradeOk_newTrade game))
    as (Hp & Hs & _).
  destruct (executeTrade_accepted this game
              (basketOk_offersResolve _ _ Hp) (basketOk_offersResolve _ _ Hs))
    as (game' & H).
  exists game'. exact H.
Qed.
